(** * marine-risk-mapping: the ingestion and load pipeline

    A shallow embedding of

    - [src/pipeline/ingestion/download_ais.py]  (module [download_ais]),
    - [src/pipeline/ingestion/download_mpa.py]  (module [download_mpa]),
    - [src/pipeline/database/load_data.py]      (module [load_data]),

    followed by the properties of the pipeline's specification.

    Python code with side effects is written in a state-and-exception
    monad over an explicit world (file system, database, trace of observable
    events).  Remote servers, third-party libraries (httpx, zipfile,
    geopandas, pandas) and what PostgreSQL decides about the data it is sent
    are parameters of the functions that call them. *)

From Stdlib Require Import ZArith List String Ascii Lia Bool Floats OrdersEx.
From stdpp Require Import gmap strings list sorting.
Import ListNotations.

Open Scope string_scope.
Open Scope Z_scope.
Open Scope list_scope.

(** ** Python results: values, exceptions, and an exhausted loop budget *)

Module py.

(** The exceptions the three modules raise or let through. *)
Inductive exn : Type :=
| HTTPStatusError (status_code : Z)   (* httpx: response.raise_for_status() *)
| RequestError                         (* httpx: timeout, connection, read error *)
| FileNotFoundError (msg : string)
| BadZipFile                           (* zipfile.ZipFile on a file that is no archive *)
| OverflowError                        (* datetime: result out of range *)
| ParquetError                         (* geopandas / pandas cannot read the file *)
| DatabaseError                        (* psycopg2: a statement failed *)
| KeyError (key : string)              (* pandas: no such label *)
| AttributeError (name : string)       (* no such attribute *)
| ValueError                           (* int(x), float(x): not a number *)
| TypeError.                           (* int(None), float(None) *)

Inductive result (A : Type) : Type :=
| Ok (a : A)
| Raise (e : exn)
| OutOfFuel.          (* a [while] loop did not finish within the model's budget *)

Arguments Ok {A} a.
Arguments Raise {A} e.
Arguments OutOfFuel {A}.

(** A computation over a world [W]: the world is threaded through, and the
    effects performed before an exception stay performed. *)
Definition M (W A : Type) : Type := W -> result A * W.

Definition ret {W A} (a : A) : M W A := fun w => (Ok a, w).

Definition bind {W A B} (m : M W A) (k : A -> M W B) : M W B :=
  fun w =>
    match m w with
    | (Ok a, w') => k a w'
    | (Raise e, w') => (Raise e, w')
    | (OutOfFuel, w') => (OutOfFuel, w')
    end.

Definition raise {W A} (e : exn) : M W A := fun w => (Raise e, w).

Definition gets {W A} (f : W -> A) : M W A := fun w => (Ok (f w), w).

Definition modify {W} (f : W -> W) : M W unit := fun w => (Ok tt, f w).

Definition lift {W A} (r : result A) : M W A := fun w => (r, w).

(** [try: m except h]: the handler [h] answers [None] for an exception no
    [except] clause matches, which then propagates. *)
Definition try_except {W A} (m : M W A) (h : exn -> option (M W A)) : M W A :=
  fun w =>
    match m w with
    | (Raise e, w') =>
        match h e with
        | Some handler => handler w'
        | None => (Raise e, w')
        end
    | other => other
    end.

(** [try: m finally: f]. *)
Definition try_finally {W A} (m : M W A) (f : M W unit) : M W A :=
  fun w =>
    match m w with
    | (r, w') =>
        match f w' with
        | (Ok _, w'') => (r, w'')
        | (Raise e, w'') => (Raise e, w'')
        | (OutOfFuel, w'') => (OutOfFuel, w'')
        end
    end.

(** [for x in xs: body x]. *)
Fixpoint for_each {W A} (xs : list A) (body : A -> M W unit) : M W unit :=
  match xs with
  | [] => ret tt
  | x :: xs' => bind (body x) (fun _ => for_each xs' body)
  end.

(** [if c: m] with no [else]. *)
Definition when {W} (c : bool) (m : M W unit) : M W unit :=
  if c then m else ret tt.

(** The monad is registered with stdpp's classes, so that code below reads
    [x ← m; k] for a bound result and [m;; k] for a statement. *)
#[global] Instance M_ret {W} : MRet (M W) := fun A a => ret a.
#[global] Instance M_bind {W} : MBind (M W) := fun A B k m => bind m k.

(** Code without effects that may raise runs in [result] itself. *)
#[global] Instance result_ret : MRet result := fun A a => Ok a.
#[global] Instance result_bind : MBind result :=
  fun A B k r =>
    match r with
    | Ok a => k a
    | Raise e => Raise e
    | OutOfFuel => OutOfFuel
    end.

End py.

Import py.

(** ** The part of [datetime] the pipeline uses

    A [date] is kept as its proleptic Gregorian ordinal ([date.toordinal()]):
    day 1 is 0001-01-01 and [date.max] is 9999-12-31.  Comparison of dates is
    comparison of ordinals, and [d + timedelta(days=n)] adds [n] to the
    ordinal and raises [OverflowError] when the sum leaves the range. *)

Module datetime.

Definition date : Type := Z.

Definition MINYEAR : Z := 1.
Definition MAXYEAR : Z := 9999.
Definition _MAXORDINAL : Z := 3652059.   (* date(9999, 12, 31).toordinal() *)

Definition valid_date (d : date) : Prop := 1 <= d <= _MAXORDINAL.

Definition _is_leap (year : Z) : bool :=
  (year mod 4 =? 0) && (negb (year mod 100 =? 0) || (year mod 400 =? 0)).

Definition _days_before_year (year : Z) : Z :=
  let y := year - 1 in y * 365 + y / 4 - y / 100 + y / 400.

Definition _DAYS_IN_MONTH : list Z :=
  [31; 28; 31; 30; 31; 30; 31; 31; 30; 31; 30; 31].

Definition _days_in_month (year month : Z) : Z :=
  if (month =? 2) && _is_leap year then 29
  else nth (Z.to_nat (month - 1)) _DAYS_IN_MONTH 0.

Definition _DAYS_BEFORE_MONTH : list Z :=
  [0; 31; 59; 90; 120; 151; 181; 212; 243; 273; 304; 334].

Definition _days_before_month (year month : Z) : Z :=
  nth (Z.to_nat (month - 1)) _DAYS_BEFORE_MONTH 0
  + (if (2 <? month) && _is_leap year then 1 else 0).

Definition _ymd2ord (year month day : Z) : Z :=
  _days_before_year year + _days_before_month year month + day.

(** [date(year, month, day)]; [None] stands for the [ValueError] of an
    impossible date. *)
Definition mkdate (year month day : Z) : option date :=
  if (MINYEAR <=? year) && (year <=? MAXYEAR)
     && (1 <=? month) && (month <=? 12)
     && (1 <=? day) && (day <=? _days_in_month year month)
  then Some (_ymd2ord year month day)
  else None.

Definition _DI400Y : Z := 146097.
Definition _DI100Y : Z := 36524.
Definition _DI4Y : Z := 1461.

Definition _ord2ymd (ordinal : Z) : Z * Z * Z :=
  let n := ordinal - 1 in
  let n400 := n / _DI400Y in
  let n := n mod _DI400Y in
  let year := n400 * 400 + 1 in
  let n100 := n / _DI100Y in
  let n := n mod _DI100Y in
  let n4 := n / _DI4Y in
  let n := n mod _DI4Y in
  let n1 := n / 365 in
  let n := n mod 365 in
  let year := year + n100 * 100 + n4 * 4 + n1 in
  if (n1 =? 4) || (n100 =? 4) then (year - 1, 12, 31)
  else
    let leapyear := (n1 =? 3) && (negb (n4 =? 24) || (n100 =? 3)) in
    let month := Z.shiftr (n + 50) 5 in
    let preceding :=
      nth (Z.to_nat (month - 1)) _DAYS_BEFORE_MONTH 0
      + (if (2 <? month) && leapyear then 1 else 0) in
    if n <? preceding then
      let month := month - 1 in
      let preceding :=
        preceding
        - (nth (Z.to_nat (month - 1)) _DAYS_IN_MONTH 0
           + (if (month =? 2) && leapyear then 1 else 0)) in
      (year, month, n - preceding + 1)
    else (year, month, n - preceding + 1).

Definition digit (n : Z) : ascii := ascii_of_nat (48 + Z.to_nat (n mod 10)).

Definition two_digits (n : Z) : string :=
  String (digit (n / 10)) (String (digit n) EmptyString).

Definition four_digits (n : Z) : string :=
  two_digits (n / 100) +:+ two_digits (n mod 100).

(** [d.isoformat()], the text YYYY-MM-DD. *)
Definition isoformat (d : date) : string :=
  let '(y, m, dd) := _ord2ymd d in
  four_digits y +:+ "-" +:+ two_digits m +:+ "-" +:+ two_digits dd.

(** [d + timedelta(days=n)]. *)
Definition add_days (d : date) (n : Z) : result date :=
  let o := d + n in
  if (0 <? o) && (o <=? _MAXORDINAL) then Ok o else Raise OverflowError.

(** [(b - a).days]. *)
Definition days_between (a b : date) : Z := b - a.

End datetime.

(** ** pathlib and the file system

    A path is its text; [p / name] joins with a slash.  The file system maps
    the path of each regular file to its content.  Directories are not
    modelled: [mkdir(parents=True, exist_ok=True)] changes nothing that the
    pipeline observes, and the directory a file is opened in is taken to
    exist, as it does once an entry point has made it. *)

Module pathlib.

Definition Path : Type := string.

Definition joinpath (p : Path) (name : string) : Path := p +:+ "/" +:+ name.

Definition exists_ {C : Type} (fs : gmap string C) (p : Path) : bool :=
  bool_decide (is_Some (fs !! p)).

End pathlib.

Notation "p // name" := (pathlib.joinpath p name) (at level 40, left associativity).


(** ** httpx: what a streamed GET can meet

    [httpx.stream("GET", url, follow_redirects=True, timeout=300)] either
    fails before any response (connection refused, connect timeout, ...:
    a [RequestError]), or yields a response with a status code whose body
    arrives in chunks; the body either arrives whole or breaks off after some
    chunks (read timeout, connection reset: a [RequestError] raised by
    [iter_bytes]).  [raise_for_status] raises [HTTPStatusError] for a status
    outside 2xx. *)

Module httpx.

Definition bytes : Type := list Byte.byte.

Inductive stream_end : Type :=
| Complete
| Broken.

Inductive exchange : Type :=
| NoResponse
| Response (status_code : Z) (chunks : list bytes) (fin : stream_end).

(** A remote service: what a GET of each URL meets. *)
Definition server : Type := string -> exchange.

Definition is_success (status_code : Z) : bool :=
  (200 <=? status_code) && (status_code <=? 299).

(** The exchange ends in a timeout, a connection error or a non-success
    status. *)
Definition transport_failure (x : exchange) : Prop :=
  match x with
  | NoResponse => True
  | Response status_code _ fin => is_success status_code = false \/ fin = Broken
  end.

(** The exchange delivers the whole body with a success status. *)
Definition delivers (x : exchange) : Prop :=
  match x with
  | NoResponse => False
  | Response status_code _ fin => is_success status_code = true /\ fin = Complete
  end.

Definition delivered_body (x : exchange) : option bytes :=
  match x with
  | Response status_code chunks Complete =>
      if is_success status_code then Some (concat chunks) else None
  | _ => None
  end.

End httpx.

(** ** The host: file system and observable events

    Shared by the two download modules; [Msg] is the type of the messages a
    module logs. *)

Module host.

Import pathlib httpx.

Section with_messages.

Context {Msg : Type}.

(** What a module does to the outside, in the order it does it. *)
Inductive event : Type :=
| Get (url : string)          (* a request is sent *)
| Sleep (seconds : Z)         (* time.sleep *)
| Info (m : Msg)              (* logger.info *)
| Error (m : Msg).            (* logger.error *)

Record world : Type := mkWorld {
  fs : gmap string bytes;
  trace : list event
}.

Definition emit (e : event) : M world unit :=
  modify (fun w => mkWorld (fs w) (trace w ++ [e])).

Definition path_exists (p : Path) : M world bool :=
  gets (fun w => exists_ (fs w) p).

(** [open(p, "wb")] in a directory that exists: the file is created, or
    truncated, at once.  The entry points make the directory before they
    open a file in it; a call with a path whose directory is missing is not
    among the runs of this model. *)
Definition open_wb (p : Path) : M world unit :=
  modify (fun w => mkWorld (<[p := []]> (fs w)) (trace w)).

(** [f.write(chunk)] on the file opened at [p]. *)
Definition write (p : Path) (chunk : bytes) : M world unit :=
  modify (fun w => mkWorld (alter (fun c => c ++ chunk) p (fs w)) (trace w)).

(** [p.stat().st_size]. *)
Definition stat_size (p : Path) : M world Z :=
  fun w =>
    match fs w !! p with
    | Some c => (Ok (Z.of_nat (length c)), w)
    | None => (Raise (FileNotFoundError p), w)
    end.

(** [p.unlink()]. *)
Definition unlink (p : Path) : M world unit :=
  fun w =>
    match fs w !! p with
    | Some _ => (Ok tt, mkWorld (delete p (fs w)) (trace w))
    | None => (Raise (FileNotFoundError p), w)
    end.

(** Entering [with httpx.stream("GET", url, ...) as response]. *)
Definition stream_get (srv : server) (url : string)
  : M world (Z * list bytes * stream_end) :=
  emit (Get url);;
  match srv url with
  | NoResponse => raise RequestError
  | Response status_code chunks fin => mret (status_code, chunks, fin)
  end.

Definition raise_for_status (status_code : Z) : M world unit :=
  if is_success status_code then mret tt else raise (HTTPStatusError status_code).

(** [for chunk in response.iter_bytes(...): f.write(chunk)]. *)
Fixpoint write_chunks (p : Path) (chunks : list bytes) (fin : stream_end)
  : M world unit :=
  match chunks with
  | chunk :: rest => write p chunk;; write_chunks p rest fin
  | [] =>
      match fin with
      | Complete => mret tt
      | Broken => raise RequestError
      end
  end.

End with_messages.

Arguments event : clear implicits.
Arguments world : clear implicits.

End host.

(** ** [download_ais.py] *)

Module download_ais.

Import datetime pathlib httpx host.

Definition BASE_URL : string := "https://marinecadastre.gov/downloads/ais2024".
Definition OUTPUT_DIR : Path := "data/raw/ais".
Definition START_DATE : date := 738886.   (* date(2024, 1, 1) *)
Definition END_DATE : date := 739251.     (* date(2024, 12, 31) *)
Definition CHUNK_SIZE : Z := 65536.
Definition DELAY_BETWEEN_DOWNLOADS : Z := 1.   (* seconds *)

(** What the module writes to its logger. *)
Inductive message : Type :=
| Skipping (filename : string)
| Downloading (filename : string)
| Saved (filename : string) (size : Z)
| HttpError (filename : string) (status_code : Z)
| RequestFailed (filename : string)
| Starting (files : nat)
| Progress (i : Z) (files : nat)
| DownloadComplete (downloaded skipped failed : Z).

(** The body of the [while current <= end] loop, with a budget of
    iterations for the recursion. *)
Fixpoint generate_dates_loop (fuel : nat) (end_ current : date) (dates : list date)
  : result (list date) :=
  match fuel with
  | O => OutOfFuel
  | S fuel' =>
      if current <=? end_ then
        match add_days current 1 with
        | Ok next => generate_dates_loop fuel' end_ next (dates ++ [current])
        | Raise e => Raise e
        | OutOfFuel => OutOfFuel
        end
      else Ok dates
  end.

(** The loop body runs at most [end - start + 1] times and the test once
    more; the budget is one above that. *)
Definition generate_dates_budget (start end_ : date) : nat :=
  S (S (Z.to_nat (end_ - start))).

Definition generate_dates (start end_ : date) : result (list date) :=
  generate_dates_loop (generate_dates_budget start end_) end_ start [].

Definition filename_of (file_date : date) : string :=
  "ais-" +:+ isoformat file_date +:+ ".parquet".

Definition download_file (srv : server) (file_date : date) (output_dir : Path)
  : M (world message) bool :=
  let filename := filename_of file_date in
  let url := BASE_URL +:+ "/" +:+ filename in
  let output_path := output_dir // filename in
  present ← path_exists output_path;
  if present : bool then
    emit (Info (Skipping filename));;
    mret false
  else
    emit (Info (Downloading filename));;
    try_except
      ('(status_code, chunks, fin) ← stream_get srv url;
       raise_for_status status_code;;
       open_wb output_path;;
       write_chunks output_path chunks fin;;
       size ← stat_size output_path;
       emit (Info (Saved filename size));;
       mret true)
      (fun e =>
         match e with
         | HTTPStatusError status_code => Some (
             emit (Error (HttpError filename status_code));;
             mret false)
         | RequestError => Some (
             emit (Error (RequestFailed filename));;
             present ← path_exists output_path;
             when present (unlink output_path);;
             mret false)
         | _ => None
         end).

Record counts : Type := mkCounts {
  downloaded : Z;
  skipped : Z;
  failed : Z
}.

(** One turn of [for i, file_date in enumerate(dates, start=1)]. *)
Definition fetch_step (srv : server) (files : nat) (i : Z) (file_date : date)
    (c : counts) : M (world message) counts :=
  emit (Info (Progress i files));;
  result ← download_file srv file_date OUTPUT_DIR;
  if result : bool then
    let c := mkCounts (downloaded c + 1) (skipped c) (failed c) in
    emit (Sleep DELAY_BETWEEN_DOWNLOADS);;
    mret c
  else
    let filename := filename_of file_date in
    present ← path_exists (OUTPUT_DIR // filename);
    if present : bool
    then mret (mkCounts (downloaded c) (skipped c + 1) (failed c))
    else mret (mkCounts (downloaded c) (skipped c) (failed c + 1)).

Fixpoint fetch_loop (srv : server) (files : nat) (i : Z) (dates : list date)
    (c : counts) : M (world message) counts :=
  match dates with
  | [] => mret c
  | file_date :: rest =>
      c' ← fetch_step srv files i file_date c;
      fetch_loop srv files (i + 1) rest c'
  end.

Definition download_all_ais_data (srv : server) : M (world message) unit :=
  (* OUTPUT_DIR.mkdir(parents=True, exist_ok=True): no observable change *)
  dates ← lift (generate_dates START_DATE END_DATE);
  emit (Info (Starting (length dates)));;
  c ← fetch_loop srv (length dates) 1 dates (mkCounts 0 0 0);
  emit (Info (DownloadComplete (downloaded c) (skipped c) (failed c))).

End download_ais.

(** ** The part of geopandas, zipfile and pathlib globbing that
       [download_mpa.py] relies on *)

Module geopandas.

Import pathlib httpx.

(** One row of a GeoDataFrame: its attributes (kept as one identifying
    text) and the bounding box of its geometry, a row of
    [gdf.geometry.bounds].  The coordinates are binary64 numbers. *)
Record feature : Type := mkFeature {
  site : string;
  minx : float;
  miny : float;
  maxx : float;
  maxy : float
}.

(** A coordinate reference system, reduced to what [crs.to_epsg()]
    answers: an EPSG code, or [None] when the system has none. *)
Definition CRS : Type := option Z.

Record GeoDataFrame : Type := mkGeoDataFrame {
  crs : option CRS;           (* [gdf.crs], [None] when the frame has none *)
  rows : list feature
}.

(** The third-party code whose results the module consumes. *)
Record library : Type := mkLibrary {
  (* zipfile: the paths below the extraction directory after
     [extractall], files and directories alike, relative to it;
     [None] when the file is not a zip archive *)
  unzip : bytes -> option (list Path);
  (* gpd.read_file on a dataset of the extracted archive *)
  read_file : bytes -> Path -> result GeoDataFrame;
  (* the reprojection of one geometry from a source system to EPSG:4326 *)
  reproject : CRS -> feature -> feature;
  (* the GeoParquet serialisation of a frame *)
  to_parquet : GeoDataFrame -> bytes
}.

(** [gdf.to_crs(epsg=4326)]: every geometry reprojected, rows kept in
    place. *)
Definition to_crs_4326 (lib : library) (gdf : GeoDataFrame) : GeoDataFrame :=
  match crs gdf with
  | Some src => mkGeoDataFrame (Some (Some 4326)) (map (reproject lib src) (rows gdf))
  | None => gdf
  end.

(** [Path.name]: the text after the last slash. *)
Fixpoint name_from (acc p : string) : string :=
  match p with
  | EmptyString => acc
  | String c rest =>
      if Ascii.eqb c "/" then name_from EmptyString rest
      else name_from (acc +:+ String c EmptyString) rest
  end.

Definition name (p : Path) : string := name_from EmptyString p.

Definition ends_with (suffix s : string) : bool :=
  let n := String.length s in
  let k := String.length suffix in
  (k <=? n)%nat && String.eqb (substring (n - k) k s) suffix.

(** [Path(tmpdir).rglob(pattern)] for a pattern of the shape [*suffix]:
    the listed paths whose name ends with the suffix. *)
Definition rglob_suffix (suffix : string) (listing : list Path) : list Path :=
  List.filter (fun p => ends_with suffix (name p)) listing.

End geopandas.

(** ** [download_mpa.py] *)

Module download_mpa.

Import pathlib httpx host geopandas.

Definition MPA_URL : string :=
  "https://marineprotectedareas.noaa.gov/media/data/"
  +:+ "NOAA_Marine_Protected_Areas_Inventory_2023.zip".
Definition OUTPUT_DIR : Path := "data/raw/mpa".
Definition OUTPUT_FILE : Path := OUTPUT_DIR // "mpa_inventory.parquet".
Definition CHUNK_SIZE : Z := 65536.

(** lon_min, lat_min, lon_max, lat_max *)
Definition US_COAST_BBOX : float * float * float * float :=
  ((-130.0)%float, 24.0%float, (-65.0)%float, 49.0%float).

Inductive message : Type :=
| ZipExists
| DownloadingInventory
| DownloadedZip (size : Z)
| HttpError (status_code : Z)
| RequestFailed
| Extracting
| FoundGeodatabase (name : string)
| ReadFeatures (n : nat)
| Reprojecting (from : CRS)
| Filtered (kept total : nat)
| SavedFeatures (n : nat) (path : Path) (size : Z)
| ParquetExists (path : Path)
| CleanedUp
| Columns
| CrsIs (c : option CRS).

Definition download_mpa_zip (srv : server) (output_path : Path)
  : M (world message) Path :=
  let zip_path := output_path // "mpa_inventory.zip" in
  present ← path_exists zip_path;
  if present : bool then
    emit (Info ZipExists);;
    mret zip_path
  else
    emit (Info DownloadingInventory);;
    try_except
      ('(status_code, chunks, fin) ← stream_get srv MPA_URL;
       raise_for_status status_code;;
       open_wb zip_path;;
       write_chunks zip_path chunks fin;;
       size ← stat_size zip_path;
       emit (Info (DownloadedZip size));;
       mret zip_path)
      (fun e =>
         match e with
         | HTTPStatusError status_code => Some (
             emit (Error (HttpError status_code));;
             present ← path_exists zip_path;
             when present (unlink zip_path);;
             raise e)
         | RequestError => Some (
             emit (Error RequestFailed);;
             present ← path_exists zip_path;
             when present (unlink zip_path);;
             raise e)
         | _ => None
         end).

(** [zipfile.ZipFile(zip_path, "r")] followed by [extractall(tmpdir)]: the
    temporary directory lives outside the modelled file system and is gone
    when the [with] block ends. *)
Definition extractall (lib : library) (zip_path : Path)
  : M (world message) (bytes * list Path) :=
  fun w =>
    match fs w !! zip_path with
    | None => (Raise (FileNotFoundError zip_path), w)
    | Some archive =>
        match unzip lib archive with
        | None => (Raise BadZipFile, w)
        | Some listing => (Ok (archive, listing), w)
        end
    end.

Definition extract_and_read_geodatabase (lib : library) (zip_path : Path)
  : M (world message) GeoDataFrame :=
  emit (Info Extracting);;
  '(archive, listing) ← extractall lib zip_path;
  let gdb_dirs := rglob_suffix ".gdb" listing in
  match gdb_dirs with
  | [] => raise (FileNotFoundError "No .gdb directory found in downloaded zip")
  | gdb :: _ =>
      emit (Info (FoundGeodatabase (name gdb)));;
      gdf ← lift (read_file lib archive gdb);
      emit (Info (ReadFeatures (length (rows gdf))));;
      mret gdf
  end.

(** [gdf.crs and gdf.crs.to_epsg() != 4326]. *)
Definition needs_reprojection (gdf : GeoDataFrame) : bool :=
  match crs gdf with
  | None => false
  | Some (Some 4326) => false
  | Some _ => true
  end.

(** One entry of [mask]: the four comparisons on a row of the bounds. *)
Definition in_bbox (bbox : float * float * float * float) (f : feature) : bool :=
  let '(lon_min, lat_min, lon_max, lat_max) := bbox in
  (PrimFloat.leb lon_min (minx f))
  && (PrimFloat.leb (maxx f) lon_max)
  && (PrimFloat.leb lat_min (miny f))
  && (PrimFloat.leb (maxy f) lat_max).

Definition filter_us_coast (lib : library) (gdf : GeoDataFrame)
  : M (world message) GeoDataFrame :=
  gdf ← (if needs_reprojection gdf
         then emit (Info (Reprojecting (default None (crs gdf))));;
              mret (to_crs_4326 lib gdf)
         else mret gdf);
  let filtered := mkGeoDataFrame (crs gdf) (List.filter (in_bbox US_COAST_BBOX) (rows gdf)) in
  emit (Info (Filtered (length (rows filtered)) (length (rows gdf))));;
  mret filtered.

Definition save_to_parquet (lib : library) (gdf : GeoDataFrame) (output_path : Path)
  : M (world message) unit :=
  modify (fun w => mkWorld (<[output_path := to_parquet lib gdf]> (fs w)) (trace w));;
  size ← stat_size output_path;
  emit (Info (SavedFeatures (length (rows gdf)) output_path size)).

Definition download_mpa_data (srv : server) (lib : library) : M (world message) unit :=
  (* OUTPUT_DIR.mkdir(parents=True, exist_ok=True): no observable change *)
  present ← path_exists OUTPUT_FILE;
  if present : bool then
    emit (Info (ParquetExists OUTPUT_FILE))
  else
    zip_path ← download_mpa_zip srv OUTPUT_DIR;
    gdf ← extract_and_read_geodatabase lib zip_path;
    gdf_us ← filter_us_coast lib gdf;
    save_to_parquet lib gdf_us OUTPUT_FILE;;
    unlink zip_path;;
    emit (Info CleanedUp);;
    emit (Info Columns);;
    emit (Info (CrsIs (crs gdf_us))).

End download_mpa.

(** ** [load_data.py] *)

Module load_data.

Import pathlib httpx geopandas.

Definition AIS_DIR : Path := "data/raw/ais".
Definition CETACEAN_FILE : Path := "data/raw/cetacean/us_cetacean_sightings.parquet".
Definition MPA_FILE : Path := "data/raw/mpa/mpa_inventory.parquet".
Definition BATCH_SIZE : Z := 50000.

(** *** Data frames

    A value in a cell of a data frame, in a record handed to the database
    and in a column of a stored row: [None] for a null (what [pd.notna]
    answers [False] for: None, NaN, NaT), otherwise the value, kept as a
    text. *)
Definition cell : Type := option string.

(** A record bound for a relation, and a row of one: the column values in
    the order of the statement that inserts them. *)
Definition row : Type := list cell.

(** A DataFrame or GeoDataFrame: the labels of its columns, its rows with
    one cell per label, and for a GeoDataFrame the label of its active
    geometry column.  A geometry is kept as its WKT text. *)
Record DataFrame : Type := mkDataFrame {
  columns : list string;
  data : list (list cell);
  geometry_column : option string
}.

(** A row as [iterrows()] hands it out: the cells under their labels. *)
Definition Series : Type := list (string * cell).

Definition iterrows (df : DataFrame) : list Series :=
  map (fun values => zip (columns df) values) (data df).

Fixpoint label_lookup (s : Series) (key : string) : option cell :=
  match s with
  | [] => None
  | (label, c) :: rest => if String.eqb label key then Some c else label_lookup rest key
  end.

(** [row[key]]. *)
Definition getitem (s : Series) (key : string) : result cell :=
  match label_lookup s key with
  | Some c => Ok c
  | None => Raise (KeyError key)
  end.

(** [row.get(key)] and [row.get(key, None)]. *)
Definition get (s : Series) (key : string) : cell :=
  default None (label_lookup s key).

(** [pd.notna(x)]. *)
Definition notna (c : cell) : bool :=
  match c with
  | Some _ => true
  | None => false
  end.

(** [df[key]]: the column under the label. *)
Definition column (df : DataFrame) (key : string) : result (list cell) :=
  if bool_decide (key ∈ columns df)
  then Ok (map (fun s => get s key) (iterrows df))
  else Raise (KeyError key).

(** [row.geometry]: attribute access on a row goes by the label. *)
Definition row_geometry (s : Series) : result cell :=
  match label_lookup s "geometry" with
  | Some g => Ok g
  | None => Raise (AttributeError "geometry")
  end.

(** [gdf.geometry]: the active geometry column. *)
Definition geometry (gdf : DataFrame) : result (list cell) :=
  match geometry_column gdf with
  | Some key =>
      if bool_decide (key ∈ columns gdf) then column gdf key
      else Raise (AttributeError "geometry")
  | None => Raise (AttributeError "geometry")
  end.

(** [g.wkt]: a missing geometry is [None], which has no such attribute. *)
Definition wkt (g : cell) : result cell :=
  match g with
  | Some text => Ok (Some text)
  | None => Raise (AttributeError "wkt")
  end.

(** [pd.DataFrame({label: column, ...})] over columns of [n] cells each. *)
Definition DataFrame_of_dict (n : nat) (dict : list (string * list cell)) : DataFrame :=
  mkDataFrame
    (map fst dict)
    (map (fun i => map (fun c => default None (snd c !! i)) dict) (seq 0 n))
    None.

(** The conversions of Python and pandas whose results the loaders
    consume.  [int] and [float] raise on a value they cannot convert. *)
Record python : Type := mkPython {
  int_ : string -> result string;         (* int(x) *)
  float_ : string -> result string;       (* float(x) *)
  str_ : string -> string;                (* str(x) *)
  astype_str : cell -> cell;              (* one cell of series.astype(str) *)
  (* flat.to_csv(buffer, sep="\t", header=False, index=False, na_rep="\\N"):
     the text written to the buffer *)
  to_csv : DataFrame -> string
}.

(** [conv(x)] on a cell; [None] is no number. *)
Definition converted (conv : string -> result string) (c : cell) : result cell :=
  match c with
  | Some v => v' ← conv v; mret (Some v')
  | None => Raise TypeError
  end.

(** A [for] loop, or a comprehension, that builds one item per element and
    stops at the first exception. *)
Fixpoint collect {A B : Type} (f : A -> result B) (xs : list A) : result (list B) :=
  match xs with
  | [] => Ok []
  | x :: rest =>
      y ← f x;
      ys ← collect f rest;
      mret (y :: ys)
  end.

(** *** The database *)

Inductive table : Type :=
| marine_protected_areas
| cetacean_sightings
| ais_positions.

#[global] Instance table_eq_dec : EqDecision table.
Proof. solve_decision. Defined.

(** The three durable relations, and the session's temporary relation
    [ais_staging] when it exists.  A stored row is the record, or the
    staged row, it was inserted as: the database's own conversions (casts,
    [ST_GeomFromText]) are kept only as the question whether the statement
    is accepted. *)
Record database : Type := mkDatabase {
  mpa_rows : list row;
  cetacean_rows : list row;
  ais_rows : list row;
  ais_staging : option (list row)
}.

Definition rows_of (t : table) (db : database) : list row :=
  match t with
  | marine_protected_areas => mpa_rows db
  | cetacean_sightings => cetacean_rows db
  | ais_positions => ais_rows db
  end.

Definition insert_into (t : table) (new : list row) (db : database) : database :=
  match t with
  | marine_protected_areas =>
      mkDatabase (mpa_rows db ++ new) (cetacean_rows db) (ais_rows db) (ais_staging db)
  | cetacean_sightings =>
      mkDatabase (mpa_rows db) (cetacean_rows db ++ new) (ais_rows db) (ais_staging db)
  | ais_positions =>
      mkDatabase (mpa_rows db) (cetacean_rows db) (ais_rows db ++ new) (ais_staging db)
  end.

Definition set_staging (st : option (list row)) (db : database) : database :=
  mkDatabase (mpa_rows db) (cetacean_rows db) (ais_rows db) st.

(** What PostgreSQL decides about the data it is sent.  The connection
    runs with [autocommit = True]: a statement that is accepted has taken
    effect, one that is rejected raises and changes nothing. *)
Record postgres : Type := mkPostgres {
  (* INSERT INTO <table> ... VALUES <records>: whether the records are accepted *)
  accepts_values : table -> list row -> bool;
  (* COPY ais_staging ... FROM STDIN WITH (FORMAT text, NULL '\N'): the rows
     read from the text, [None] when the text is rejected *)
  copy_from : string -> option (list row);
  (* INSERT INTO ais_positions ... SELECT ... FROM ais_staging: whether the
     staged rows pass the casts and the constraints of the relation *)
  accepts_select : list row -> bool
}.

Inductive statement : Type :=
| SelectCount (t : table)
| InsertValues (t : table) (n : nat)      (* INSERT ... VALUES with n records *)
| CreateStaging                           (* CREATE TEMP TABLE ais_staging *)
| CopyStaging (buffer : string)           (* COPY ais_staging FROM STDIN *)
| InsertFromStaging                       (* INSERT INTO ais_positions SELECT ... FROM ais_staging *)
| DropStaging.                            (* DROP TABLE ais_staging *)

Inductive message : Type :=
| MpaFileNotFound
| ReadMpa (n : nat)
| LoadedMpa (n : nat)
| CetaceanFileNotFound
| ReadCetacean (n : nat)
| LoadedCetacean (n : nat)
| NoAisFiles
| FoundAisFiles (n : nat)
| Reading (file_idx : Z) (files : nat) (name : string)
| LoadedFile (file_idx : Z) (files : nat) (name : string) (n_rows total_so_far : Z)
| AisComplete (total : Z)
| Connecting
| AlreadyHasRows (t : table) (count : Z)
| FinalRowCounts
| RowCount (t : table) (count : Z)
| ConnectionClosed.

Inductive event : Type :=
| Stat (p : Path)               (* Path.exists() *)
| Glob (dir : Path)             (* Path.glob("*.parquet") *)
| ReadParquet (p : Path)        (* gpd.read_parquet / pd.read_parquet *)
| Execute (q : statement)       (* a statement sent on the cursor *)
| Info (m : message)
| Warning (m : message)
| Connect
| Close.

Record world : Type := mkWorld {
  fs : gmap string bytes;
  db : database;
  trace : list event
}.

(** What a Python call hands back. *)
Inductive value : Type :=
| NoneValue
| IntValue (n : Z).

(** [read_parquet]: the frame of a Parquet file, [None] when the content
    cannot be read as one. *)
Definition reader : Type := bytes -> option DataFrame.

Definition emit (e : event) : M world unit :=
  modify (fun w => mkWorld (fs w) (db w) (trace w ++ [e])).

Definition path_exists (p : Path) : M world bool :=
  emit (Stat p);;
  gets (fun w => exists_ (fs w) p).

Definition read_parquet (rd : reader) (p : Path) : M world DataFrame :=
  emit (ReadParquet p);;
  ((fun w =>
    match fs w !! p with
    | None => (Raise (FileNotFoundError p), w)
    | Some content =>
        match rd content with
        | Some df => (Ok df, w)
        | None => (Raise ParquetError, w)
        end
    end) : M world DataFrame).

(** [cur.execute("SELECT COUNT( * ) FROM t")] and [cur.fetchone()[0]]. *)
Definition select_count (t : table) : M world Z :=
  emit (Execute (SelectCount t));;
  gets (fun w => Z.of_nat (length (rows_of t (db w)))).

(** psycopg2's [_paginate(seq, page_size)]: the records in pages of
    [page_size], the last one shorter. *)
Definition page_size : nat := 100.

Fixpoint pages_of {A : Type} (budget : nat) (argslist : list A) : list (list A) :=
  match budget with
  | O => []
  | S budget' =>
      match argslist with
      | [] => []
      | _ => take page_size argslist :: pages_of budget' (drop page_size argslist)
      end
  end.

Definition paginate {A : Type} (argslist : list A) : list (list A) :=
  pages_of (length argslist) argslist.

(** One [cur.execute] of [execute_values]: an INSERT with the records of a
    page. *)
Definition execute_insert (pg : postgres) (t : table) (page : list row) : M world unit :=
  emit (Execute (InsertValues t (length page)));;
  ((fun w =>
    if accepts_values pg t page
    then (Ok tt, mkWorld (fs w) (insert_into t page (db w)) (trace w))
    else (Raise DatabaseError, w)) : M world unit).

(** [execute_values(cur, sql, records, template=...)], with the default
    [page_size=100]: one statement per page, each committed on its own. *)
Definition execute_values (pg : postgres) (t : table) (records : list row)
  : M world unit :=
  for_each (paginate records) (execute_insert pg t).

Definition create_staging : M world unit :=
  emit (Execute CreateStaging);;
  ((fun w =>
    match ais_staging (db w) with
    | Some _ => (Raise DatabaseError, w)     (* relation already exists *)
    | None => (Ok tt, mkWorld (fs w) (set_staging (Some []) (db w)) (trace w))
    end) : M world unit).

(** [cur.copy_expert(copy_sql, buffer)]. *)
Definition copy_staging (pg : postgres) (buffer : string) : M world unit :=
  emit (Execute (CopyStaging buffer));;
  ((fun w =>
    match ais_staging (db w) with
    | Some st =>
        match copy_from pg buffer with
        | Some staged =>
            (Ok tt, mkWorld (fs w) (set_staging (Some (st ++ staged)) (db w)) (trace w))
        | None => (Raise DatabaseError, w)   (* e.g. a text no column type takes *)
        end
    | None => (Raise DatabaseError, w)
    end) : M world unit).

Definition insert_from_staging (pg : postgres) : M world unit :=
  emit (Execute InsertFromStaging);;
  ((fun w =>
    match ais_staging (db w) with
    | Some st =>
        if accepts_select pg st
        then (Ok tt, mkWorld (fs w) (insert_into ais_positions st (db w)) (trace w))
        else (Raise DatabaseError, w)
    | None => (Raise DatabaseError, w)
    end) : M world unit).

Definition drop_staging : M world unit :=
  emit (Execute DropStaging);;
  ((fun w =>
    match ais_staging (db w) with
    | Some _ => (Ok tt, mkWorld (fs w) (set_staging None (db w)) (trace w))
    | None => (Raise DatabaseError, w)
    end) : M world unit).

(** The files [dir.glob("*" + suffix)] finds: the regular files directly
    below [dir] whose name ends with the suffix. *)
Definition directly_below (dir p : Path) : bool :=
  let d := dir +:+ "/" in
  String.prefix d p
  && String.eqb (name p) (substring (String.length d) (String.length p - String.length d) p).

Definition path_le (a b : Path) : Prop := String.leb a b = true.

#[global] Instance path_le_dec (a b : Path) : Decision (path_le a b).
Proof. unfold path_le. apply _. Defined.

Definition sorted_glob (dir : Path) (suffix : string) : M world (list Path) :=
  emit (Glob dir);;
  gets (fun w =>
    merge_sort path_le
      (List.filter (fun p => directly_below dir p && ends_with suffix (name p))
                   (map fst (map_to_list (fs w))))).

(** *** The loaders *)

(** The tuple [load_mpa_data] appends for one row, and the record it is
    renamed into: twelve values, in the order of the INSERT. *)
Definition mpa_record (py : python) (r : Series) : result row :=
  site_id ← getitem r "Site_ID";
  site_name ← getitem r "Site_Name";
  gov_level ← getitem r "Gov_Level";
  state ← getitem r "State";
  prot_lvl ← getitem r "Prot_Lvl";
  mgmt_agen ← getitem r "Mgmt_Agen";
  let iucn_cat := get r "IUCNcat" in
  estab_yr ← (c ← getitem r "Estab_Yr";
              if notna c then c ← getitem r "Estab_Yr"; converted (int_ py) c
              else mret None);
  area_km ← (c ← getitem r "AreaKm";
             if notna c then c ← getitem r "AreaKm"; converted (float_ py) c
             else mret None);
  area_mar ← (c ← getitem r "AreaMar";
              if notna c then c ← getitem r "AreaMar"; converted (float_ py) c
              else mret None);
  mar_percent ← (c ← getitem r "MarPercent";
                 if notna c then c ← getitem r "MarPercent"; converted (int_ py) c
                 else mret None);
  geom ← (g ← row_geometry r; wkt g);
  mret [site_id; site_name; gov_level; state; prot_lvl; mgmt_agen; iucn_cat;
        estab_yr; area_km; area_mar; mar_percent; geom].

Definition load_mpa_data (pg : postgres) (py : python) (rd : reader) : M world value :=
  present ← path_exists MPA_FILE;
  if negb present then
    emit (Warning MpaFileNotFound);;
    mret NoneValue
  else
    gdf ← read_parquet rd MPA_FILE;
    emit (Info (ReadMpa (length (data gdf))));;
    rows ← lift (collect (mpa_record py) (iterrows gdf));
    let records := rows in
    execute_values pg marine_protected_areas records;;
    emit (Info (LoadedMpa (length records)));;
    mret NoneValue.

(** The record [load_cetacean_data] builds for one row: eight values, in
    the order of the INSERT. *)
Definition cetacean_record (py : python) (r : Series) : result row :=
  let name := get r "scientificName" in
  lat ← getitem r "decimalLatitude";
  lon ← getitem r "decimalLongitude";
  let date := if notna (get r "eventDate")
              then option_map (str_ py) (get r "eventDate")
              else None in
  year ← (if notna (get r "date_year")
          then c ← getitem r "date_year"; converted (int_ py) c
          else mret None);
  let order := get r "order" in
  let family := get r "family" in
  let species := get r "species" in
  mret [name; lat; lon; date; year; order; family; species].

Definition load_cetacean_data (pg : postgres) (py : python) (rd : reader)
  : M world value :=
  present ← path_exists CETACEAN_FILE;
  if negb present then
    emit (Warning CetaceanFileNotFound);;
    mret NoneValue
  else
    df ← read_parquet rd CETACEAN_FILE;
    emit (Info (ReadCetacean (length (data df))));;
    records ← lift (collect (cetacean_record py) (iterrows df));
    execute_values pg cetacean_sightings records;;
    emit (Info (LoadedCetacean (length records)));;
    mret NoneValue.

(** The flat frame [load_ais_data] builds from the frame of a file: the
    fifteen attribute columns, looked up in this order, and the geometries
    as WKT. *)
Definition flat_frame (py : python) (gdf : DataFrame) : result DataFrame :=
  mmsi ← column gdf "mmsi";
  base_date_time ← column gdf "base_date_time";
  let base_date_time := map (astype_str py) base_date_time in
  sog ← column gdf "sog";
  cog ← column gdf "cog";
  heading ← column gdf "heading";
  vessel_name ← column gdf "vessel_name";
  imo ← column gdf "imo";
  call_sign ← column gdf "call_sign";
  vessel_type ← column gdf "vessel_type";
  status ← column gdf "status";
  length_ ← column gdf "length";
  width ← column gdf "width";
  draft ← column gdf "draft";
  cargo ← column gdf "cargo";
  transceiver ← column gdf "transceiver";
  geom ← (g ← geometry gdf; collect wkt g);
  mret (DataFrame_of_dict (length (data gdf))
          [("mmsi", mmsi); ("base_date_time", base_date_time); ("sog", sog);
           ("cog", cog); ("heading", heading); ("vessel_name", vessel_name);
           ("imo", imo); ("call_sign", call_sign); ("vessel_type", vessel_type);
           ("status", status); ("length", length_); ("width", width);
           ("draft", draft); ("cargo", cargo); ("transceiver", transceiver);
           ("geom", geom)]).

(** One turn of [for file_idx, filepath in enumerate(parquet_files, start=1)];
    the result is the new [total_loaded]. *)
Definition load_ais_file (pg : postgres) (py : python) (rd : reader) (files : nat)
    (file_idx : Z) (filepath : Path) (total_loaded : Z) : M world Z :=
  emit (Info (Reading file_idx files (name filepath)));;
  gdf ← read_parquet rd filepath;
  flat ← lift (flat_frame py gdf);
  let n_rows := Z.of_nat (length (data flat)) in
  let buffer := to_csv py flat in
  create_staging;;
  copy_staging pg buffer;;
  insert_from_staging pg;;
  drop_staging;;
  let total_loaded := total_loaded + n_rows in
  emit (Info (LoadedFile file_idx files (name filepath) n_rows total_loaded));;
  mret total_loaded.

Fixpoint load_ais_files (pg : postgres) (py : python) (rd : reader) (files : nat)
    (file_idx : Z) (parquet_files : list Path) (total_loaded : Z) : M world Z :=
  match parquet_files with
  | [] => mret total_loaded
  | filepath :: rest =>
      total_loaded ← load_ais_file pg py rd files file_idx filepath total_loaded;
      load_ais_files pg py rd files (file_idx + 1) rest total_loaded
  end.

Definition load_ais_data (pg : postgres) (py : python) (rd : reader) : M world value :=
  parquet_files ← sorted_glob AIS_DIR ".parquet";
  match parquet_files with
  | [] =>
      emit (Warning NoAisFiles);;
      mret NoneValue
  | _ =>
      emit (Info (FoundAisFiles (length parquet_files)));;
      total_loaded ← load_ais_files pg py rd (length parquet_files) 1 parquet_files 0;
      emit (Info (AisComplete total_loaded));;
      mret NoneValue
  end.

(** The body of [for table in [...]] in [load_all_data]. *)
Definition load_table (pg : postgres) (py : python) (rd : reader) (t : table)
  : M world unit :=
  count ← select_count t;
  if 0 <? count then
    emit (Info (AlreadyHasRows t count))
  else
    match t with
    | marine_protected_areas => load_mpa_data pg py rd;; mret tt
    | cetacean_sightings => load_cetacean_data pg py rd;; mret tt
    | ais_positions => load_ais_data pg py rd;; mret tt
    end.

Definition report_count (t : table) : M world unit :=
  count ← select_count t;
  emit (Info (RowCount t count)).

(** [psycopg2.connect] to a database that is up opens a fresh session: no
    temporary relation exists in it yet, and none outlives it.  A database
    that cannot be reached is outside the worlds of this model, which all
    hold one. *)
Definition connect : M world unit :=
  emit Connect;;
  modify (fun w => mkWorld (fs w) (set_staging None (db w)) (trace w)).

Definition close : M world unit :=
  emit Close;;
  modify (fun w => mkWorld (fs w) (set_staging None (db w)) (trace w));;
  emit (Info ConnectionClosed).

Definition load_all_data (pg : postgres) (py : python) (rd : reader) : M world unit :=
  emit (Info Connecting);;
  connect;;
  try_finally
    (for_each [marine_protected_areas; cetacean_sightings; ais_positions]
              (load_table pg py rd);;
     emit (Info FinalRowCounts);;
     for_each [ais_positions; cetacean_sightings; marine_protected_areas]
              report_count)
    close.

End load_data.

(** ** Notions the properties are stated with *)

Module notions.

Import datetime pathlib httpx host.

(** The dates [start], [start + 1], ..., [n] of them. *)
Definition date_range (start : date) (n : nat) : list date :=
  map (fun i => start + Z.of_nat i) (seq 0 n).

(** The spec's three fetch outcomes. *)
Inductive outcome : Type := Downloaded | Skipped | Failed.

(** The outcome of fetching a unit, read off the file system before the
    call and the exchange its request would meet. *)
Definition fetch_outcome_of (srv : server) (file_date : date) (output_dir : Path)
    (w : world download_ais.message) : outcome :=
  if exists_ (fs w) (output_dir // download_ais.filename_of file_date) then Skipped
  else match delivered_body
               (srv (download_ais.BASE_URL +:+ "/" +:+ download_ais.filename_of file_date)) with
       | Some _ => Downloaded
       | None => Failed
       end.

(** The counter of the fetch loop that an outcome adds one to. *)
Definition count_outcome (o : outcome) (c : download_ais.counts) : download_ais.counts :=
  match o with
  | Downloaded =>
      download_ais.mkCounts (download_ais.downloaded c + 1) (download_ais.skipped c)
                            (download_ais.failed c)
  | Skipped =>
      download_ais.mkCounts (download_ais.downloaded c) (download_ais.skipped c + 1)
                            (download_ais.failed c)
  | Failed =>
      download_ais.mkCounts (download_ais.downloaded c) (download_ais.skipped c)
                            (download_ais.failed c + 1)
  end.

(** The URLs requested, and the pauses taken, in a trace. *)
Definition requests {Msg} (t : list (event Msg)) : list string :=
  omap (fun e => match e with Get url => Some url | _ => None end) t.

Definition pauses {Msg} (t : list (event Msg)) : list Z :=
  omap (fun e => match e with Sleep seconds => Some seconds | _ => None end) t.

(** A service that is down: no request gets a response. *)
Definition unreachable : server := fun _ => NoResponse.

(** A service whose responses break off after the first chunk. *)
Definition flaky : server :=
  fun _ => Response 200 [[Byte.x50; Byte.x41; Byte.x52]] Broken.

(** A service that delivers two chunks for every URL. *)
Definition healthy : server :=
  fun _ => Response 200 [[Byte.x50; Byte.x41]; [Byte.x52; Byte.x31]] Complete.

Definition empty_world {Msg} : world Msg := mkWorld ∅ [].

(** The archive a run of the Archive Normalizer works on: the zip already on
    disk when there is one, else the body its download delivers. *)
Definition archive_at_hand (srv : server) (w : world download_mpa.message)
  : option bytes :=
  match fs w !! (download_mpa.OUTPUT_DIR // "mpa_inventory.zip") with
  | Some archive => Some archive
  | None => delivered_body (srv download_mpa.MPA_URL)
  end.

(** The frame whose bounds [filter_us_coast] tests: the input, reprojected
    when its reference system is not EPSG:4326. *)
Definition canonical (lib : geopandas.library) (gdf : geopandas.GeoDataFrame)
  : geopandas.GeoDataFrame :=
  if download_mpa.needs_reprojection gdf then geopandas.to_crs_4326 lib gdf else gdf.

(** The frame [filter_us_coast] hands back: the rows of the canonical frame
    that pass the mask, under the canonical frame's reference system. *)
Definition us_coast_part (lib : geopandas.library) (gdf : geopandas.GeoDataFrame)
  : geopandas.GeoDataFrame :=
  geopandas.mkGeoDataFrame
    (geopandas.crs (canonical lib gdf))
    (List.filter (download_mpa.in_bbox download_mpa.US_COAST_BBOX)
                 (geopandas.rows (canonical lib gdf))).

(** One of the four bounds is not a number, as for an empty geometry. *)
Definition has_nan_bound (f : geopandas.feature) : Prop :=
  PrimFloat.is_nan (geopandas.minx f) = true
  \/ PrimFloat.is_nan (geopandas.miny f) = true
  \/ PrimFloat.is_nan (geopandas.maxx f) = true
  \/ PrimFloat.is_nan (geopandas.maxy f) = true.

(** The bounding box lies entirely within the region (-130, 24, -65, 49). *)
Definition within_us_coast (f : geopandas.feature) : Prop :=
  PrimFloat.leb (-130.0)%float (geopandas.minx f) = true
  /\ PrimFloat.leb (geopandas.maxx f) (-65.0)%float = true
  /\ PrimFloat.leb 24.0%float (geopandas.miny f) = true
  /\ PrimFloat.leb (geopandas.maxy f) 49.0%float = true.

(** The bounding box reaches beyond an edge of the region. *)
Definition crosses_us_coast_edge (f : geopandas.feature) : Prop :=
  PrimFloat.ltb (geopandas.minx f) (-130.0)%float = true
  \/ PrimFloat.ltb (-65.0)%float (geopandas.maxx f) = true
  \/ PrimFloat.ltb (geopandas.miny f) 24.0%float = true
  \/ PrimFloat.ltb 49.0%float (geopandas.maxy f) = true.

(** The two bounding boxes of the spec's example, on a feature of any name. *)
Definition feature_inside (site : string) : geopandas.feature :=
  geopandas.mkFeature site (-70.0)%float 30.0%float (-68.0)%float 32.0%float.

Definition feature_astride (site : string) : geopandas.feature :=
  geopandas.mkFeature site (-66.0)%float 30.0%float (-64.0)%float 32.0%float.

(** A library for examples: archives list their bytes as one-letter paths,
    no dataset can be read, reprojection shifts nothing, and a frame is
    serialised as one byte per row. *)
Definition toy_library : geopandas.library :=
  geopandas.mkLibrary
    (fun archive =>
       match archive with
       | [] => None
       | _ => Some (map (fun b => String (Ascii.ascii_of_byte b) EmptyString) archive)
       end)
    (fun _ _ => Raise ParquetError)
    (fun _ f => f)
    (fun gdf => map (fun _ => Byte.x2a) (geopandas.rows gdf)).

(** A library for examples that reads a one-feature frame, in a projected
    system, from any dataset, and moves nothing on reprojection. *)
Definition one_feature_library : geopandas.library :=
  geopandas.mkLibrary
    (fun archive =>
       match archive with
       | [] => None
       | _ => Some ["NOAA"; "NOAA/inventory.gdb"; "NOAA/inventory.gdb/a1.gdbtable"]
       end)
    (fun _ _ => Ok (geopandas.mkGeoDataFrame (Some (Some 3857)) [feature_inside "site"]))
    (fun _ f => f)
    (fun gdf => map (fun _ => Byte.x2a) (geopandas.rows gdf)).

(** The frame [read_parquet] finds in the file at a path, if any. *)
Definition frame_at (rd : load_data.reader) (w : load_data.world) (p : Path)
  : option load_data.DataFrame :=
  load_data.fs w !! p ≫= rd.

(** The database takes the records, page by page as [execute_values] sends
    them. *)
Definition accepted (pg : load_data.postgres) (t : load_data.table)
    (records : list load_data.row) : Prop :=
  Forall (fun page => load_data.accepts_values pg t page = true)
         (load_data.paginate records).

(** What one turn of the loop of [load_ais_data] needs of the file at a
    path to go through, and what it then yields: the file can be read, its
    frame has the columns and the geometries of the flat frame, COPY takes
    the text written for the flat frame, and the INSERT ... SELECT takes the
    rows COPY has read.  The result is the number of rows of the frame and
    the rows COPY has read. *)
Definition ais_load_at (pg : load_data.postgres) (py : load_data.python)
    (rd : load_data.reader) (w : load_data.world) (p : Path)
  : option (nat * list load_data.row) :=
  gdf ← frame_at rd w p;
  match load_data.flat_frame py gdf with
  | Ok flat =>
      staged ← load_data.copy_from pg (load_data.to_csv py flat);
      if load_data.accepts_select pg staged
      then Some (length (load_data.data flat), staged)
      else None
  | _ => None
  end.

(** The row count [SELECT COUNT( * )] reports for a relation. *)
Definition row_count (t : load_data.table) (w : load_data.world) : Z :=
  Z.of_nat (length (load_data.rows_of t (load_data.db w))).

(** The files read, the running totals logged and the final totals logged,
    in a trace of the loaders. *)
Definition files_read (t : list load_data.event) : list Path :=
  omap (fun e => match e with load_data.ReadParquet p => Some p | _ => None end) t.

Definition logged_running_totals (t : list load_data.event) : list Z :=
  omap (fun e => match e with
                 | load_data.Info (load_data.LoadedFile _ _ _ _ total) => Some total
                 | _ => None
                 end) t.

Definition logged_final_totals (t : list load_data.event) : list Z :=
  omap (fun e => match e with
                 | load_data.Info (load_data.AisComplete total) => Some total
                 | _ => None
                 end) t.

(** The sums of the row counts of the files processed so far, after each
    file, starting from [acc]. *)
Fixpoint running_totals (acc : Z) (n_rows : list Z) : list Z :=
  match n_rows with
  | [] => []
  | n :: rest => (acc + n) :: running_totals (acc + n) rest
  end.

(** Of the files that went through: the row counts of their frames, the sum
    of these, and the rows that reached the relation. *)
Definition frame_rows (loads : list (nat * list load_data.row)) : list Z :=
  map (fun l => Z.of_nat (fst l)) loads.

Definition total_rows (loads : list (nat * list load_data.row)) : Z :=
  foldr Z.add 0 (frame_rows loads).

Definition staged_rows (loads : list (nat * list load_data.row)) : list load_data.row :=
  concat (map snd loads).

(** The events only the loader of a relation produces: its accesses to its
    source files, its statements, and its log messages.  The count queries
    are the orchestrator's. *)
Definition loader_footprint (t : load_data.table) (e : load_data.event) : bool :=
  match t, e with
  | load_data.marine_protected_areas, (load_data.Stat p | load_data.ReadParquet p) =>
      String.eqb p load_data.MPA_FILE
  | load_data.marine_protected_areas, load_data.Execute (load_data.InsertValues t' _) =>
      match t' with load_data.marine_protected_areas => true | _ => false end
  | load_data.marine_protected_areas,
    (load_data.Info m | load_data.Warning m) =>
      match m with
      | load_data.MpaFileNotFound | load_data.ReadMpa _ | load_data.LoadedMpa _ => true
      | _ => false
      end
  | load_data.cetacean_sightings, (load_data.Stat p | load_data.ReadParquet p) =>
      String.eqb p load_data.CETACEAN_FILE
  | load_data.cetacean_sightings, load_data.Execute (load_data.InsertValues t' _) =>
      match t' with load_data.cetacean_sightings => true | _ => false end
  | load_data.cetacean_sightings,
    (load_data.Info m | load_data.Warning m) =>
      match m with
      | load_data.CetaceanFileNotFound | load_data.ReadCetacean _
      | load_data.LoadedCetacean _ => true
      | _ => false
      end
  | load_data.ais_positions, load_data.Glob _ => true
  | load_data.ais_positions, load_data.ReadParquet p =>
      load_data.directly_below load_data.AIS_DIR p
  | load_data.ais_positions, load_data.Execute q =>
      match q with
      | load_data.CreateStaging | load_data.CopyStaging _
      | load_data.InsertFromStaging | load_data.DropStaging => true
      | load_data.InsertValues load_data.ais_positions _ => true
      | _ => false
      end
  | load_data.ais_positions, (load_data.Info m | load_data.Warning m) =>
      match m with
      | load_data.NoAisFiles | load_data.FoundAisFiles _ | load_data.Reading _ _ _
      | load_data.LoadedFile _ _ _ _ _ | load_data.AisComplete _ => true
      | _ => false
      end
  | _, _ => false
  end.

(** Between two worlds, a relation kept its rows and its loader left no
    trace. *)
Definition untouched (t : load_data.table) (w w' : load_data.world) : Prop :=
  load_data.rows_of t (load_data.db w') = load_data.rows_of t (load_data.db w)
  /\ load_data.fs w' = load_data.fs w
  /\ exists log,
       load_data.trace w' = load_data.trace w ++ log
       /\ Forall (fun e => loader_footprint t e = false) log.

(** A computation that leaves the relation untouched whatever its own
    outcome; with [loaded] set, when run where the relation has rows. *)
Definition leaves_untouched {A} (loaded : bool) (t : load_data.table)
    (m : M load_data.world A) : Prop :=
  forall w, (loaded = true -> 0 < row_count t w) -> untouched t w (snd (m w)).

(** The labels the three loaders look up. *)
Definition all_labels : list string :=
  ["Site_ID"; "Site_Name"; "Gov_Level"; "State"; "Prot_Lvl"; "Mgmt_Agen"; "IUCNcat";
   "Estab_Yr"; "AreaKm"; "AreaMar"; "MarPercent";
   "scientificName"; "decimalLatitude"; "decimalLongitude"; "eventDate"; "date_year";
   "order"; "family"; "species";
   "mmsi"; "base_date_time"; "sog"; "cog"; "heading"; "vessel_name"; "imo";
   "call_sign"; "vessel_type"; "status"; "length"; "width"; "draft"; "cargo";
   "transceiver"; "geometry"].

(** A reader for examples: every byte of a file is one row, which holds the
    byte, as a character, under every label. *)
Definition row_per_byte : load_data.reader :=
  fun content =>
    Some (load_data.mkDataFrame
            all_labels
            (map (fun b => replicate (length all_labels)
                             (Some (String (Ascii.ascii_of_byte b) EmptyString)))
                 content)
            (Some "geometry")).

(** Conversions for examples: every value converts to itself, and the text
    written for a frame has one line per row, its cells separated by
    tabs. *)
Definition plain : load_data.python :=
  load_data.mkPython
    (fun v => Ok v)
    (fun v => Ok v)
    (fun v => v)
    (fun c => c)
    (fun flat =>
       String.concat ""
         (map (fun r => String.concat (String "009" "") (map (default "\N") r)
                        +:+ String "010" "")
              (load_data.data flat))).

Fixpoint lines_from (acc s : string) : list string :=
  match s with
  | EmptyString => match acc with EmptyString => [] | _ => [acc] end
  | String c rest =>
      if Ascii.eqb c "010" then acc :: lines_from EmptyString rest
      else lines_from (acc +:+ String c EmptyString) rest
  end.

(** A database for examples that accepts every statement; COPY reads one
    row per line of the text, and keeps the line in it. *)
Definition lenient : load_data.postgres :=
  load_data.mkPostgres
    (fun _ _ => true)
    (fun buffer => Some (map (fun line => [Some line]) (lines_from EmptyString buffer)))
    (fun _ => true).

(** A database for examples that rejects every COPY, as PostgreSQL does for
    a text that a column type does not take. *)
Definition strict : load_data.postgres :=
  load_data.mkPostgres (fun _ _ => true) (fun _ => None) (fun _ => true).

(** The spec's end-to-end scenario: three source files, for 2024-01-01 to
    2024-01-03, of ten rows each, and an empty position relation. *)
Definition ten_bytes : bytes :=
  [Byte.x30; Byte.x31; Byte.x32; Byte.x33; Byte.x34;
   Byte.x35; Byte.x36; Byte.x37; Byte.x38; Byte.x39].

Definition three_days : load_data.world :=
  load_data.mkWorld
    {[ load_data.AIS_DIR // "ais-2024-01-03.parquet" := ten_bytes;
       load_data.AIS_DIR // "ais-2024-01-01.parquet" := ten_bytes;
       load_data.AIS_DIR // "ais-2024-01-02.parquet" := ten_bytes ]}
    (load_data.mkDatabase [] [] [] None)
    [].

Definition three_days_files : list Path :=
  [load_data.AIS_DIR // "ais-2024-01-01.parquet";
   load_data.AIS_DIR // "ais-2024-01-02.parquet";
   load_data.AIS_DIR // "ais-2024-01-03.parquet"].

(** What the three files yield, with the conversions and the database of
    the examples. *)
Definition three_days_loads : list (nat * list load_data.row) :=
  omap (ais_load_at lenient plain row_per_byte three_days) three_days_files.

(** A database state in which the protected areas are loaded and the two
    other relations are empty, next to one AIS file of two rows. *)
Definition partly_loaded : load_data.world :=
  load_data.mkWorld
    {[ load_data.AIS_DIR // "ais-2024-01-01.parquet" := [Byte.x31; Byte.x32] ]}
    (load_data.mkDatabase [[Some "site"]] [] [] None)
    [].

(** A database state in which all three relations have rows. *)
Definition fully_loaded : load_data.world :=
  load_data.mkWorld
    {[ load_data.AIS_DIR // "ais-2024-01-01.parquet" := [Byte.x31; Byte.x32] ]}
    (load_data.mkDatabase [[Some "site"]] [[Some "whale"]] [[Some "ship"]] None)
    [].

(** Between two worlds, the files are the same, the log has only been
    appended to, and every relation has kept the rows it had, in their
    order, with new rows only after them. *)
Definition grown (w w' : load_data.world) : Prop :=
  load_data.fs w' = load_data.fs w
  /\ load_data.trace w `prefix_of` load_data.trace w'
  /\ forall t,
       load_data.rows_of t (load_data.db w) `prefix_of` load_data.rows_of t (load_data.db w').

(** A computation that only ever adds rows, whatever its own outcome. *)
Definition only_grows {A} (m : M load_data.world A) : Prop :=
  forall w, grown w (snd (m w)).

(** A reader for examples that cannot read a file that starts with a zero
    byte, and reads one row per byte otherwise. *)
Definition picky : load_data.reader :=
  fun content =>
    match content with
    | Byte.x00 :: _ => None
    | _ => row_per_byte content
    end.

(** Three AIS files of which the second starts with a zero byte, and an
    empty position relation. *)
Definition second_file_broken : load_data.world :=
  load_data.mkWorld
    {[ load_data.AIS_DIR // "ais-2024-01-01.parquet" := [Byte.x31; Byte.x32];
       load_data.AIS_DIR // "ais-2024-01-02.parquet" := [Byte.x00];
       load_data.AIS_DIR // "ais-2024-01-03.parquet" := [Byte.x33] ]}
    (load_data.mkDatabase [] [] [] None)
    [].

(** The statements under [try:] in [load_all_data], and the world in which
    they start: the connection of [w] just opened. *)
Definition load_all_data_try (pg : load_data.postgres) (py : load_data.python)
    (rd : load_data.reader) : M load_data.world unit :=
  for_each [load_data.marine_protected_areas; load_data.cetacean_sightings;
            load_data.ais_positions]
           (load_data.load_table pg py rd);;
  load_data.emit (load_data.Info load_data.FinalRowCounts);;
  for_each [load_data.ais_positions; load_data.cetacean_sightings;
            load_data.marine_protected_areas]
           load_data.report_count.

Definition connected (w : load_data.world) : load_data.world :=
  load_data.mkWorld (load_data.fs w)
    (load_data.set_staging None (load_data.db w))
    (load_data.trace w ++ [load_data.Info load_data.Connecting; load_data.Connect]).

(** A reader for examples that reads no file at all. *)
Definition unreadable : load_data.reader := fun _ => None.

(** A database state with no rows, next to the two single-file sources (of
    two rows and one row) and two AIS files (of two rows and one row). *)
Definition fresh : load_data.world :=
  load_data.mkWorld
    {[ load_data.MPA_FILE := [Byte.x6d; Byte.x70];
       load_data.CETACEAN_FILE := [Byte.x63];
       load_data.AIS_DIR // "ais-2024-01-02.parquet" := [Byte.x33];
       load_data.AIS_DIR // "ais-2024-01-01.parquet" := [Byte.x31; Byte.x32] ]}
    (load_data.mkDatabase [] [] [] None)
    [].

End notions.

Import notions.

(** * Properties *)

(** ** Running monadic code *)

Lemma run_bind {W A B} (m : M W A) (k : A -> M W B) (w : W) :
  (m ≫= k) w =
  match m w with
  | (Ok a, w') => k a w'
  | (Raise e, w') => (Raise e, w')
  | (OutOfFuel, w') => (OutOfFuel, w')
  end.
Proof. reflexivity. Qed.

Lemma run_ret {W A} (a : A) (w : W) : (mret a : M W A) w = (Ok a, w).
Proof. reflexivity. Qed.

Lemma omap_shorter {A B} (f : A -> option B) (xs : list A) :
  (length (omap f xs) <= length xs)%nat.
Proof.
  induction xs as [|x xs IH]; [reflexivity|]. cbn [omap list_omap length].
  destruct (f x); cbn [length]; lia.
Qed.

(** Where [omap] drops nothing, it pairs every element with its image. *)
Lemma Forall2_omap_all {A B} (f : A -> option B) (xs : list A) :
  length (omap f xs) = length xs ->
  Forall2 (fun x y => f x = Some y) xs (omap f xs).
Proof.
  induction xs as [|x xs IH]; [constructor|]. cbn [omap list_omap length].
  pose proof (omap_shorter f xs) as Hle.
  destruct (f x) as [y|] eqn:Hx; cbn [length]; intros Hlen; [|lia].
  constructor; [exact Hx|]. apply IH. lia.
Qed.

Lemma result_bind_Ok {A B} (r : result A) (k : A -> result B) (b : B) :
  r ≫= k = Ok b -> exists a, r = Ok a /\ k a = Ok b.
Proof. destruct r as [a| |]; try discriminate. intros H. exists a. auto. Qed.

(** Unfolds the plumbing of the monad, and the projections of the worlds,
    in the goal. *)
Ltac run_monad :=
  cbv [mbind M_bind bind mret M_ret ret raise gets modify lift when
       try_except try_finally
       host.emit host.fs host.trace
       load_data.emit load_data.fs load_data.db load_data.trace].

(** ** The Unit Enumerator: [generate_dates] *)

Section generate_dates_facts.

Import datetime download_ais.

Example START_DATE_is_2024_01_01 : mkdate 2024 1 1 = Some START_DATE.
Proof. reflexivity. Qed.

Example END_DATE_is_2024_12_31 : mkdate 2024 12 31 = Some END_DATE.
Proof. reflexivity. Qed.

Example date_max_is_9999_12_31 : mkdate 9999 12 31 = Some _MAXORDINAL.
Proof. reflexivity. Qed.

Example filename_of_leap_day :
  option_map filename_of (mkdate 2024 2 29) = Some "ais-2024-02-29.parquet".
Proof. reflexivity. Qed.

Example generate_dates_three_days :
  generate_dates START_DATE (START_DATE + 2) = Ok [738886; 738887; 738888].
Proof. reflexivity. Qed.

Lemma date_range_S start n :
  date_range start (S n) = start :: date_range (start + 1) n.
Proof.
  unfold date_range. simpl. rewrite Z.add_0_r. f_equal.
  rewrite <- seq_shift, map_map. apply map_ext. intros i. lia.
Qed.

Lemma date_range_length start n : length (date_range start n) = n.
Proof. unfold date_range. now rewrite length_map, length_seq. Qed.

Lemma date_range_lookup start n (i : nat) :
  (i < n)%nat -> date_range start n !! i = Some (start + Z.of_nat i).
Proof.
  intros Hi. unfold date_range. rewrite list_lookup_fmap.
  rewrite lookup_seq_lt by exact Hi. reflexivity.
Qed.

Lemma date_range_lower start n d : d ∈ date_range start n -> start <= d.
Proof.
  unfold date_range. intros Hd. apply list_elem_of_fmap in Hd as (i & -> & _). lia.
Qed.

Lemma date_range_sorted start n : StronglySorted Z.lt (date_range start n).
Proof.
  revert start. induction n as [|n IH]; intros start.
  - constructor.
  - rewrite date_range_S. constructor; [apply IH|].
    apply Forall_forall. intros d Hd.
    apply date_range_lower in Hd. lia.
Qed.

Lemma date_range_NoDup start n : NoDup (date_range start n).
Proof.
  revert start. induction n as [|n IH]; intros start.
  - constructor.
  - rewrite date_range_S. constructor; [|apply IH].
    intros Hd. apply date_range_lower in Hd. lia.
Qed.

Lemma add_days_one_ok d :
  0 <= d -> d < _MAXORDINAL -> add_days d 1 = Ok (d + 1).
Proof.
  intros H0 H1. unfold add_days. cbv zeta.
  destruct (Z.ltb_spec 0 (d + 1)); [|lia].
  destruct (Z.leb_spec (d + 1) _MAXORDINAL); [reflexivity|lia].
Qed.

Lemma add_days_one_overflow : add_days _MAXORDINAL 1 = Raise OverflowError.
Proof. reflexivity. Qed.

(** With every date of the loop below [date.max], the loop appends the
    remaining dates and stops. *)
Lemma generate_dates_loop_below_max (n : nat) :
  forall fuel end_ current dates,
    0 < current -> end_ < _MAXORDINAL -> current <= end_ + 1 ->
    Z.to_nat (end_ + 1 - current) = n -> (n < fuel)%nat ->
    generate_dates_loop fuel end_ current dates = Ok (dates ++ date_range current n).
Proof.
  induction n as [|n IH]; intros fuel end_ current dates Hpos Hmax Hle Hn Hfuel;
    (destruct fuel as [|fuel]; [lia|]); simpl.
  - destruct (Z.leb_spec current end_); [lia|].
    unfold date_range. simpl. now rewrite app_nil_r.
  - destruct (Z.leb_spec current end_); [|lia].
    rewrite add_days_one_ok by lia. cbv iota beta.
    etransitivity; [apply IH; lia|].
    rewrite date_range_S, <- app_assoc. reflexivity.
Qed.

(** With [date.max] as the end, the increment after the last append leaves
    the range of [date]. *)
Lemma generate_dates_loop_at_max (n : nat) :
  forall fuel current dates,
    0 < current -> current <= _MAXORDINAL ->
    Z.to_nat (_MAXORDINAL - current) = n -> (n < fuel)%nat ->
    generate_dates_loop fuel _MAXORDINAL current dates = Raise OverflowError.
Proof.
  induction n as [|n IH]; intros fuel current dates Hpos Hle Hn Hfuel;
    (destruct fuel as [|fuel]; [lia|]); simpl;
    (destruct (Z.leb_spec current _MAXORDINAL); [|lia]).
  - assert (current = _MAXORDINAL) as -> by lia. reflexivity.
  - rewrite add_days_one_ok by lia. apply IH; lia.
Qed.

(** The budget is never the reason the loop stops. *)
Lemma generate_dates_loop_finishes (n : nat) :
  forall fuel end_ current dates,
    Z.to_nat (end_ + 1 - current) = n -> (n < fuel)%nat ->
    generate_dates_loop fuel end_ current dates <> OutOfFuel.
Proof.
  induction n as [|n IH]; intros fuel end_ current dates Hn Hfuel;
    (destruct fuel as [|fuel]; [lia|]); simpl.
  - destruct (Z.leb_spec current end_); [lia|discriminate].
  - destruct (Z.leb_spec current end_); [|discriminate].
    unfold add_days. cbv zeta.
    destruct (_ && _); [|discriminate]. apply IH; lia.
Qed.

Lemma generate_dates_finishes start end_ : generate_dates start end_ <> OutOfFuel.
Proof.
  unfold generate_dates, generate_dates_budget.
  eapply generate_dates_loop_finishes; [reflexivity|lia].
Qed.

Lemma generate_dates_run (start end_ : date) :
  0 < start -> start <= end_ -> end_ < _MAXORDINAL ->
  generate_dates start end_ = Ok (date_range start (Z.to_nat (end_ + 1 - start))).
Proof.
  intros Hlo Hle Hmax. unfold generate_dates, generate_dates_budget.
  rewrite (generate_dates_loop_below_max (Z.to_nat (end_ + 1 - start))); [reflexivity|lia..].
Qed.

(** X1: For an interval that ends before [date.max], [generate_dates] is the
    inclusive, gap-free, ascending list of its [(end - start).days + 1]
    dates. *)
Lemma generate_dates_below_max (start end_ : date) :
  valid_date start -> start <= end_ -> end_ < _MAXORDINAL ->
  exists dates,
    generate_dates start end_ = Ok dates
    /\ Z.of_nat (length dates) = days_between start end_ + 1
    /\ (forall i : nat, (i < length dates)%nat -> dates !! i = Some (start + Z.of_nat i))
    /\ head dates = Some start
    /\ last dates = Some end_
    /\ StronglySorted Z.lt dates
    /\ NoDup dates.
Proof.
  intros [Hlo Hhi] Hle Hmax.
  set (n := Z.to_nat (end_ + 1 - start)).
  exists (date_range start n).
  assert (Hrun : generate_dates start end_ = Ok (date_range start n)).
  { unfold generate_dates, generate_dates_budget.
    rewrite (generate_dates_loop_below_max n); [reflexivity|lia..]. }
  assert (Hn : (0 < n)%nat) by lia.
  split; [exact Hrun|]. rewrite date_range_length.
  split; [unfold days_between; lia|].
  split; [intros i Hi; now apply date_range_lookup|].
  split; [destruct n; [lia|now rewrite date_range_S]|].
  split.
  { rewrite last_lookup, date_range_length, date_range_lookup by lia.
    f_equal. lia. }
  split; [apply date_range_sorted|apply date_range_NoDup].
Qed.

(** C2 (the failing case): with [date.max] as the end of the interval the
    enumeration raises [OverflowError] in place of returning the
    [(end - start).days + 1] dates: after the last date is appended,
    [current += timedelta(days=1)] steps past the largest date. *)
Theorem generate_dates_overflows_at_date_max (start : date) :
  valid_date start ->
  generate_dates start _MAXORDINAL = Raise OverflowError.
Proof.
  intros [Hlo Hhi]. unfold generate_dates, generate_dates_budget.
  eapply generate_dates_loop_at_max; [lia|lia|reflexivity|lia].
Qed.

Lemma generate_dates_overflows_at_date_max_witness :
  mkdate 9999 12 31 = Some _MAXORDINAL
  /\ valid_date _MAXORDINAL
  /\ generate_dates _MAXORDINAL _MAXORDINAL = Raise OverflowError.
Proof.
  split; [reflexivity|]. 
  assert (H : valid_date _MAXORDINAL) by (unfold valid_date, _MAXORDINAL; lia).
  split; [exact H|]. exact (generate_dates_overflows_at_date_max _MAXORDINAL H).
Defined.

Lemma generate_dates_below_max_witness :
  exists dates,
    generate_dates START_DATE END_DATE = Ok dates
    /\ Z.of_nat (length dates) = 366
    /\ head dates = Some START_DATE
    /\ last dates = Some END_DATE.
Proof.
  destruct (generate_dates_below_max START_DATE END_DATE) as (dates & H1 & H2 & _ & H4 & H5 & _).
  - unfold valid_date, START_DATE, _MAXORDINAL. lia.
  - unfold START_DATE, END_DATE. lia.
  - unfold END_DATE, _MAXORDINAL. lia.
  - exists dates. split; [exact H1|]. split; [rewrite H2; reflexivity|]. split; assumption.
Defined.

End generate_dates_facts.

(** ** The Remote Fetch Coordinator: [download_file] and the fetch loop *)

Section fetch_facts.

Import datetime pathlib httpx host download_ais.

Lemma exists_Some {C} (m : gmap string C) p c : m !! p = Some c -> exists_ m p = true.
Proof. intros H. unfold exists_. apply bool_decide_eq_true. rewrite H. eauto. Qed.

Lemma exists_None {C} (m : gmap string C) p : m !! p = None -> exists_ m p = false.
Proof.
  intros H. unfold exists_. apply bool_decide_eq_false. rewrite H.
  intros [c Hc]. discriminate.
Qed.

Lemma exists_true_inv {C} (m : gmap string C) p : exists_ m p = true -> is_Some (m !! p).
Proof. unfold exists_. apply bool_decide_eq_true. Qed.

Lemma exists_false_inv {C} (m : gmap string C) p : exists_ m p = false -> m !! p = None.
Proof.
  unfold exists_. intros H. apply bool_decide_eq_false in H.
  destruct (m !! p) eqn:E; [|reflexivity]. exfalso. apply H. eauto.
Qed.

Lemma requests_app {Msg} (t1 t2 : list (event Msg)) :
  requests (t1 ++ t2) = requests t1 ++ requests t2.
Proof. apply omap_app. Qed.

Lemma pauses_app {Msg} (t1 t2 : list (event Msg)) :
  pauses (t1 ++ t2) = pauses t1 ++ pauses t2.
Proof. apply omap_app. Qed.

(** Two names below one directory are one path only when they are one
    name. *)
Lemma joinpath_inj (dir : Path) (a b : string) : dir // a = dir // b -> a = b.
Proof.
  unfold joinpath. induction dir as [|ch dir IH]; simpl.
  - intros H. now injection H.
  - intros H. injection H as H. now apply IH.
Qed.

Context {Msg : Type}.

(** Writing the chunks of a response appends them to the open file; a
    stream that breaks raises after the chunks that arrived. *)
Lemma write_chunks_run (p : Path) (chunks : list bytes) (fin : stream_end) :
  forall (m : gmap string bytes) (t : list (event Msg)) (c : bytes),
    m !! p = Some c ->
    write_chunks p chunks fin (mkWorld m t) =
    (match fin with Complete => Ok tt | Broken => Raise RequestError end,
     mkWorld (<[p := c ++ concat chunks]> m) t).
Proof.
  induction chunks as [|chunk rest IH]; intros m t c Hc; simpl.
  - rewrite app_nil_r, insert_id by exact Hc. destruct fin; reflexivity.
  - rewrite run_bind. unfold write at 1, modify. simpl.
    rewrite (IH _ _ (c ++ chunk)).
    + rewrite insert_alter_eq, <- app_assoc. reflexivity.
    + rewrite lookup_alter_eq, Hc. reflexivity.
Qed.

End fetch_facts.

Section download_file_facts.

Import datetime pathlib httpx host download_ais.

Variable srv : server.
Variable file_date : date.
Variable output_dir : Path.

Local Abbreviation filename := (filename_of file_date).
Local Abbreviation url := (BASE_URL +:+ "/" +:+ filename_of file_date).
Local Abbreviation output_path := (output_dir // filename_of file_date).

Local Arguments String.append : simpl never.
Local Arguments joinpath : simpl never.
Local Arguments filename_of : simpl never.

(** The destination is there: nothing is requested, nothing is written. *)
Lemma download_file_present (w : world message) (c : bytes) :
  fs w !! output_path = Some c ->
  download_file srv file_date output_dir w =
  (Ok false, mkWorld (fs w) (trace w ++ [Info (Skipping filename)])).
Proof.
  intros Hc. destruct w as [m t]. cbn [fs trace] in *.
  unfold download_file, path_exists. run_monad.
  rewrite (exists_Some _ _ _ Hc). reflexivity.
Qed.

(** The destination is not there: one request is sent, and what the file
    system holds afterwards depends on how the exchange ends. *)
Lemma download_file_absent (w : world message) :
  fs w !! output_path = None ->
  download_file srv file_date output_dir w =
  match srv url with
  | NoResponse =>
      (Ok false,
       mkWorld (fs w)
         (trace w ++ [Info (Downloading filename); Get url;
                      Error (RequestFailed filename)]))
  | Response status_code chunks fin =>
      if is_success status_code then
        match fin with
        | Complete =>
            (Ok true,
             mkWorld (<[output_path := concat chunks]> (fs w))
               (trace w ++ [Info (Downloading filename); Get url;
                            Info (Saved filename (Z.of_nat (length (concat chunks))))]))
        | Broken =>
            (Ok false,
             mkWorld (fs w)
               (trace w ++ [Info (Downloading filename); Get url;
                            Error (RequestFailed filename)]))
        end
      else
        (Ok false,
         mkWorld (fs w)
           (trace w ++ [Info (Downloading filename); Get url;
                        Error (HttpError filename status_code)]))
  end.
Proof.
  intros Hc. destruct w as [m t]. cbn [fs trace] in *.
  unfold download_file, path_exists, stream_get, raise_for_status. run_monad.
  rewrite (exists_None _ _ Hc).
  destruct (srv _) as [|status_code chunks fin]; run_monad.
  { rewrite (exists_None _ _ Hc). run_monad. rewrite <- !app_assoc. reflexivity. }
  destruct (is_success status_code); run_monad.
  2: { rewrite <- !app_assoc. reflexivity. }
  unfold open_wb. run_monad.
  rewrite (write_chunks_run _ _ _ _ _ []) by apply lookup_insert_eq.
  rewrite insert_insert_eq. simpl app.
  destruct fin; run_monad.
  - unfold stat_size. cbn [fs trace]. rewrite lookup_insert_eq. run_monad.
    rewrite <- !app_assoc. reflexivity.
  - rewrite (exists_Some _ _ (concat chunks)) by apply lookup_insert_eq.
    unfold unlink. run_monad. rewrite lookup_insert_eq. run_monad.
    rewrite delete_insert_id by exact Hc.
    rewrite <- !app_assoc. reflexivity.
Qed.

Local Abbreviation fetch_outcome := (fetch_outcome_of srv file_date output_dir).

Lemma delivered_body_Some x : is_Some (delivered_body x) <-> delivers x.
Proof.
  destruct x as [|status_code chunks fin]; simpl.
  - split; [intros [? ?]; discriminate|tauto].
  - destruct fin, (is_success status_code); simpl; split;
      try (intros [? ?]; discriminate); try (intros [? ?]; discriminate); eauto.
Qed.

Lemma delivered_body_None x : delivered_body x = None <-> transport_failure x.
Proof.
  destruct x as [|status_code chunks fin]; simpl.
  - tauto.
  - destruct fin, (is_success status_code); simpl; split; intros H;
      try reflexivity; try discriminate; try tauto;
      destruct H; discriminate.
Qed.

(** [download_file] never raises, and its boolean merges two outcomes. *)
Lemma download_file_outcome (w : world message) :
  exists w',
    download_file srv file_date output_dir w
    = (Ok (match fetch_outcome w with Downloaded => true | _ => false end), w')
    /\ fs w' = match fetch_outcome w, delivered_body (srv url) with
               | Downloaded, Some body => <[output_path := body]> (fs w)
               | _, _ => fs w
               end
    /\ exists log,
         trace w' = trace w ++ log
         /\ log = match fetch_outcome w with
                  | Skipped => [Info (Skipping filename)]
                  | Downloaded =>
                      [Info (Downloading filename); Get url;
                       Info (Saved filename
                               (Z.of_nat (length (default [] (delivered_body (srv url))))))]
                  | Failed =>
                      [Info (Downloading filename); Get url;
                       Error (match srv url with
                              | Response status_code _ _ =>
                                  if is_success status_code
                                  then RequestFailed filename
                                  else HttpError filename status_code
                              | NoResponse => RequestFailed filename
                              end)]
                  end.
Proof.
  unfold fetch_outcome_of.
  destruct (exists_ (fs w) output_path) eqn:E.
  - apply exists_true_inv in E as [c Hc].
    rewrite (download_file_present w c Hc). eexists. split; [reflexivity|].
    split; [reflexivity|]. eexists. split; reflexivity.
  - apply exists_false_inv in E.
    rewrite (download_file_absent w E).
    destruct (srv url) as [|status_code chunks fin]; simpl.
    + eexists. split; [reflexivity|]. split; [reflexivity|]. eexists. split; reflexivity.
    + destruct (is_success status_code), fin; simpl;
        (eexists; split; [reflexivity|]; split; [reflexivity|]; eexists; split; reflexivity).
Qed.

End download_file_facts.

(** ** The fetch loop: one unit *)

Section fetch_step_facts.

Import datetime pathlib httpx host download_ais.

Variable srv : server.
Variable file_date : date.

Local Abbreviation filename := (filename_of file_date).
Local Abbreviation url := (BASE_URL +:+ "/" +:+ filename_of file_date).
Local Abbreviation output_path := (OUTPUT_DIR // filename_of file_date).
Local Abbreviation fetch_outcome := (fetch_outcome_of srv file_date OUTPUT_DIR).

Local Arguments String.append : simpl never.
Local Arguments joinpath : simpl never.
Local Arguments filename_of : simpl never.

Lemma fetch_outcome_Skipped (w : world message) :
  fetch_outcome w = Skipped <-> is_Some (fs w !! output_path).
Proof.
  unfold fetch_outcome_of. destruct (exists_ (fs w) output_path) eqn:E.
  - apply exists_true_inv in E. tauto.
  - apply exists_false_inv in E. rewrite E.
    split; [destruct (delivered_body _); discriminate|intros [? ?]; discriminate].
Qed.

Lemma fetch_outcome_Downloaded (w : world message) :
  fetch_outcome w = Downloaded <-> fs w !! output_path = None /\ delivers (srv url).
Proof.
  unfold fetch_outcome_of. rewrite <- delivered_body_Some.
  destruct (exists_ (fs w) output_path) eqn:E.
  - apply exists_true_inv in E as [c Hc]. rewrite Hc.
    split; [discriminate|intros [? _]; discriminate].
  - apply exists_false_inv in E.
    destruct (delivered_body _); split; eauto; try discriminate.
    intros [_ [? ?]]. discriminate.
Qed.

Lemma fetch_outcome_Failed (w : world message) :
  fetch_outcome w = Failed <-> fs w !! output_path = None /\ transport_failure (srv url).
Proof.
  unfold fetch_outcome_of. rewrite <- delivered_body_None.
  destruct (exists_ (fs w) output_path) eqn:E.
  - apply exists_true_inv in E as [c Hc]. rewrite Hc.
    split; [discriminate|intros [? _]; discriminate].
  - apply exists_false_inv in E.
    destruct (delivered_body _); split; eauto; try discriminate.
    intros [_ ?]. discriminate.
Qed.

(** After a call that answered [False], the destination is on disk exactly
    when the unit was skipped. *)
Lemma recheck_tells_skipped_from_failed (w w' : world message) (b : bool) :
  download_file srv file_date OUTPUT_DIR w = (Ok b, w') ->
  b = false ->
  exists_ (fs w') output_path = match fetch_outcome w with Skipped => true | _ => false end.
Proof.
  intros Hrun Hb.
  destruct (download_file_outcome srv file_date OUTPUT_DIR w) as (w1 & Hrun1 & Hfs & _).
  rewrite Hrun in Hrun1. injection Hrun1 as Hb1 <-. subst b.
  rewrite Hfs. clear Hfs Hrun.
  destruct (fetch_outcome w) eqn:Ho; try discriminate.
  - apply fetch_outcome_Skipped in Ho as [c Hc]. now apply exists_Some with c.
  - apply fetch_outcome_Failed in Ho as [Hc _]. now apply exists_None.
Qed.

(** One turn of the loop: the unit's outcome is counted, and the pause is
    taken after a download only. *)
Lemma fetch_step_run (files : nat) (i : Z) (c : counts) (w : world message) :
  exists fs' log,
    fetch_step srv files i file_date c w =
    (Ok (count_outcome (fetch_outcome w) c),
     mkWorld fs'
       (trace w ++ Info (Progress i files) :: log
                ++ match fetch_outcome w with
                   | Downloaded => [Sleep DELAY_BETWEEN_DOWNLOADS]
                   | _ => []
                   end))
    /\ pauses log = []
    /\ fs' = match fetch_outcome w, delivered_body (srv url) with
             | Downloaded, Some body => <[output_path := body]> (fs w)
             | _, _ => fs w
             end.
Proof.
  destruct w as [m t].
  set (w1 := mkWorld m (t ++ [Info (Progress i files)])).
  destruct (download_file_outcome srv file_date OUTPUT_DIR w1)
    as ([m' t'] & Hrun & Hfs & log & Htrace & Hlog).
  assert (Ho : fetch_outcome w1 = fetch_outcome (mkWorld m t)) by reflexivity.
  rewrite Ho in *. cbn [fs trace w1] in Htrace. subst t'.
  exists m', log.
  split.
  - pose proof (fun w' => recheck_tells_skipped_from_failed w1 w' false) as Hre.
    unfold fetch_step, path_exists. run_monad. fold w1. rewrite Hrun.
    destruct (fetch_outcome (mkWorld m t)) eqn:E; cbv iota beta.
    + unfold count_outcome. rewrite <- !app_assoc. reflexivity.
    + specialize (Hre _ Hrun eq_refl). rewrite Ho in Hre. cbn [fs] in Hre.
      rewrite Hre. unfold count_outcome. rewrite <- !app_assoc, app_nil_r. reflexivity.
    + specialize (Hre _ Hrun eq_refl). rewrite Ho in Hre. cbn [fs] in Hre.
      rewrite Hre. unfold count_outcome. rewrite <- !app_assoc, app_nil_r. reflexivity.
  - split; [rewrite Hlog; destruct (fetch_outcome _); reflexivity|exact Hfs].
Qed.

Lemma fetch_step_pause_count
    (files : nat) (i : Z) (c : counts) (w : world message) :
  exists c' w',
    fetch_step srv files i file_date c w = (Ok c', w')
    /\ downloaded c <= downloaded c'
    /\ pauses (trace w') =
       pauses (trace w)
       ++ replicate (Z.to_nat (downloaded c' - downloaded c)) DELAY_BETWEEN_DOWNLOADS.
Proof.
  destruct (fetch_step_run files i c w) as (fs' & log & Hstep & Hlog & _).
  eexists _, _. split; [exact Hstep|]. cbn [trace]. unfold pauses in *.
  rewrite omap_app. cbn [omap list_omap]. rewrite omap_app, Hlog.
  destruct (fetch_outcome w); cbn [count_outcome downloaded].
  - split; [lia|]. replace (downloaded c + 1 - downloaded c) with 1 by lia. reflexivity.
  - split; [lia|]. rewrite Z.sub_diag. reflexivity.
  - split; [lia|]. rewrite Z.sub_diag. reflexivity.
Qed.

End fetch_step_facts.

(** ** The Remote Fetch Coordinator: the claims *)

Section fetch_claims.

Import datetime pathlib httpx host download_ais.

Local Arguments String.append : simpl never.
Local Arguments joinpath : simpl never.
Local Arguments filename_of : simpl never.

(** C1: when the exchange of a unit ends in a transport-level failure
    (no response, a non-success status, or a body that breaks off),
    [download_file] answers [False] and the file system after the call is
    the one before it: the chunks written before the failure are deleted
    again, so a destination that was absent stays absent and one that was
    present is untouched. *)
Theorem download_file_failure_leaves_no_partial_file
    (srv : server) (file_date : date) (output_dir : Path) (w : world message) :
  transport_failure (srv (BASE_URL +:+ "/" +:+ filename_of file_date)) ->
  exists w',
    download_file srv file_date output_dir w = (Ok false, w')
    /\ fs w' = fs w
    /\ (fs w !! (output_dir // filename_of file_date) = None ->
        fs w' !! (output_dir // filename_of file_date) = None).
Proof.
  intros Hfail.
  destruct (fs w !! (output_dir // filename_of file_date)) as [c|] eqn:Hc.
  - rewrite (download_file_present srv file_date output_dir w c Hc).
    eexists. split; [reflexivity|]. split; [reflexivity|discriminate].
  - rewrite (download_file_absent srv file_date output_dir w Hc).
    destruct (srv _) as [|status_code chunks fin]; simpl in Hfail.
    + eexists. split; [reflexivity|]. split; [reflexivity|]. intros _. exact Hc.
    + destruct (is_success status_code).
      * destruct Hfail as [Hfail | ->]; [discriminate|].
        eexists. split; [reflexivity|]. split; [reflexivity|]. intros _. exact Hc.
      * eexists. split; [reflexivity|]. split; [reflexivity|]. intros _. exact Hc.
Qed.

(** C3: when the destination exists and is not empty, [download_file]
    answers [False], which the loop counts as skipped, without a request
    being sent, and the file system is unchanged. *)
Theorem download_file_skips_existing
    (srv : server) (file_date : date) (output_dir : Path) (w : world message)
    (c : bytes) :
  fs w !! (output_dir // filename_of file_date) = Some c ->
  c <> [] ->
  exists w',
    download_file srv file_date output_dir w = (Ok false, w')
    /\ fetch_outcome_of srv file_date output_dir w = Skipped
    /\ requests (trace w') = requests (trace w)
    /\ fs w' = fs w.
Proof.
  intros Hc _.
  rewrite (download_file_present srv file_date output_dir w c Hc).
  eexists. split; [reflexivity|]. split.
  - unfold fetch_outcome_of. now rewrite (exists_Some _ _ _ Hc).
  - split; [|reflexivity]. cbn [trace]. unfold requests.
    rewrite omap_app. simpl. apply app_nil_r.
Qed.



Lemma download_file_failure_leaves_no_partial_file_witness :
  transport_failure (flaky (BASE_URL +:+ "/" +:+ filename_of START_DATE))
  /\ exists w',
       download_file flaky START_DATE OUTPUT_DIR empty_world = (Ok false, w')
       /\ fs w' = ∅
       /\ (fs (@empty_world message) !! (OUTPUT_DIR // filename_of START_DATE) = None ->
           fs w' !! (OUTPUT_DIR // filename_of START_DATE) = None).
Proof.
  assert (H : transport_failure (flaky (BASE_URL +:+ "/" +:+ filename_of START_DATE)))
    by (right; reflexivity).
  split; [exact H|].
  exact (download_file_failure_leaves_no_partial_file
           flaky START_DATE OUTPUT_DIR empty_world H).
Defined.

Lemma download_file_skips_existing_witness :
  let w := mkWorld {[ OUTPUT_DIR // filename_of START_DATE := [Byte.x50] ]} [] in
  exists w',
    download_file healthy START_DATE OUTPUT_DIR w = (Ok false, w')
    /\ fetch_outcome_of healthy START_DATE OUTPUT_DIR w = Skipped
    /\ requests (trace w') = requests (trace w)
    /\ fs w' = fs w.
Proof.
  intros w.
  apply (download_file_skips_existing healthy START_DATE OUTPUT_DIR w [Byte.x50]).
  - apply lookup_singleton_eq.
  - discriminate.
Defined.

(** C7 (the failing case): an attempt that ends in the failed outcome has
    sent its request to the service, so it is a non-skipped attempt, yet the
    loop counts it and goes on to the next unit without the pause of
    [DELAY_BETWEEN_DOWNLOADS]: [time.sleep] sits in the branch of a
    [True] result only. *)
Theorem failed_attempt_takes_no_pause
    (srv : server) (file_date : date) (files : nat) (i : Z) (c : counts)
    (w : world message) :
  fs w !! (OUTPUT_DIR // filename_of file_date) = None ->
  transport_failure (srv (BASE_URL +:+ "/" +:+ filename_of file_date)) ->
  exists w',
    fetch_step srv files i file_date c w
    = (Ok (mkCounts (downloaded c) (skipped c) (failed c + 1)), w')
    /\ requests (trace w')
       = requests (trace w) ++ [BASE_URL +:+ "/" +:+ filename_of file_date]
    /\ pauses (trace w') = pauses (trace w)
    /\ last (trace w') <> Some (Sleep DELAY_BETWEEN_DOWNLOADS).
Proof.
  intros Hc Hfail. destruct w as [m t]. cbn [fs trace] in *.
  unfold fetch_step, path_exists. run_monad.
  rewrite (download_file_absent srv file_date OUTPUT_DIR
             (mkWorld m (t ++ [Info (Progress i files)])) Hc).
  cbn [fs trace].
  destruct (srv _) as [|status_code chunks fin]; cbn [transport_failure] in Hfail.
  - rewrite (exists_None _ _ Hc). eexists. split; [reflexivity|]. cbn [trace].
    rewrite !requests_app, !pauses_app. cbn. rewrite !app_nil_r.
    repeat split; try reflexivity.
    rewrite last_app. cbn. discriminate.
  - destruct (is_success status_code).
    + destruct Hfail as [Hfail | ->]; [discriminate|]. cbn [fs trace].
      rewrite (exists_None _ _ Hc). eexists. split; [reflexivity|]. cbn [trace].
      rewrite !requests_app, !pauses_app. cbn. rewrite !app_nil_r.
      repeat split; try reflexivity.
      rewrite last_app. cbn. discriminate.
    + cbn [fs trace].
      rewrite (exists_None _ _ Hc). eexists. split; [reflexivity|]. cbn [trace].
      rewrite !requests_app, !pauses_app. cbn. rewrite !app_nil_r.
      repeat split; try reflexivity.
      rewrite last_app. cbn. discriminate.
Qed.

Lemma failed_attempt_takes_no_pause_witness :
  exists w',
    fetch_step unreachable 366 1 START_DATE (mkCounts 0 0 0) empty_world
    = (Ok (mkCounts 0 0 (0 + 1)), w')
    /\ requests (trace w')
       = requests (trace (@empty_world message))
         ++ [BASE_URL +:+ "/" +:+ filename_of START_DATE]
    /\ pauses (trace w') = pauses (trace (@empty_world message))
    /\ last (trace w') <> Some (Sleep DELAY_BETWEEN_DOWNLOADS).
Proof.
  apply (failed_attempt_takes_no_pause unreachable START_DATE 366 1 (mkCounts 0 0 0)
           empty_world).
  - reflexivity.
  - exact I.
Defined.

(** The same on one unit of the module's own interval, against a service
    that is down. *)
Example failed_attempt_is_followed_by_no_pause :
  exists w',
    fetch_step unreachable 366 1 START_DATE (mkCounts 0 0 0) empty_world
    = (Ok (mkCounts 0 0 1), w')
    /\ requests (trace w') = [BASE_URL +:+ "/" +:+ filename_of START_DATE]
    /\ pauses (trace w') = [].
Proof. eexists. split; [vm_compute; reflexivity|]. split; vm_compute; reflexivity. Qed.

(** Where the loop does pause: after exactly the attempts that end in the
    downloaded outcome, as the last thing before the next unit. *)
Lemma fetch_step_pauses_after_download_only
    (srv : server) (file_date : date) (files : nat) (i : Z) (c : counts)
    (w : world message) :
  exists c' w',
    fetch_step srv files i file_date c w = (Ok c', w')
    /\ match fetch_outcome_of srv file_date OUTPUT_DIR w with
       | Downloaded =>
           last (trace w') = Some (Sleep DELAY_BETWEEN_DOWNLOADS)
           /\ pauses (trace w') = pauses (trace w) ++ [DELAY_BETWEEN_DOWNLOADS]
       | Skipped | Failed =>
           pauses (trace w') = pauses (trace w)
       end.
Proof.
  destruct (fetch_step_run srv file_date files i c w) as (fs' & log & Hstep & Hlog & _).
  eexists _, _. split; [exact Hstep|]. cbn [trace]. unfold pauses in *.
  destruct (fetch_outcome_of _ _ _ _).
  - split.
    + rewrite app_comm_cons, app_assoc. apply last_snoc.
    + rewrite omap_app. cbn [omap list_omap]. rewrite omap_app, Hlog. reflexivity.
  - rewrite omap_app. cbn [omap list_omap]. rewrite omap_app, Hlog. simpl. now rewrite app_nil_r.
  - rewrite omap_app. cbn [omap list_omap]. rewrite omap_app, Hlog. simpl. now rewrite app_nil_r.
Qed.

(** A whole run against a service that is down: 366 requests, 366 failed
    units, and not one pause. *)
Example a_year_of_failures_without_a_pause :
  let w' := snd (download_all_ais_data unreachable empty_world) in
  last (trace w') = Some (Info (DownloadComplete 0 0 366))
  /\ length (requests (trace w')) = 366%nat
  /\ pauses (trace w') = [].
Proof. vm_compute. repeat split; reflexivity. Qed.

(** Over the whole loop: as many pauses as units downloaded. *)
Lemma fetch_loop_pauses (srv : server) (files : nat) (dates : list date) :
  forall (i : Z) (c : counts) (w : world message),
  exists c' w',
    fetch_loop srv files i dates c w = (Ok c', w')
    /\ downloaded c <= downloaded c'
    /\ pauses (trace w') =
       pauses (trace w)
       ++ replicate (Z.to_nat (downloaded c' - downloaded c)) DELAY_BETWEEN_DOWNLOADS.
Proof.
  induction dates as [|file_date rest IH]; intros i c w.
  - exists c, w. split; [reflexivity|]. split; [lia|].
    rewrite Z.sub_diag. simpl. now rewrite app_nil_r.
  - destruct (fetch_step_pause_count srv file_date files i c w)
      as (c1 & w1 & Hstep & Hc1 & Hp1).
    destruct (IH (i + 1) c1 w1) as (c' & w' & Hloop & Hle & Hp).
    exists c', w'. split.
    + simpl. rewrite run_bind, Hstep. exact Hloop.
    + split; [lia|]. rewrite Hp, Hp1, <- app_assoc. f_equal.
      rewrite <- replicate_add. f_equal. lia.
Qed.

End fetch_claims.

(** ** The Archive Normalizer *)

Section float_order.

Lemma compare_cont_flip (p q : positive) :
  PosDef.Pos.compare_cont Eq q p = CompOpp (PosDef.Pos.compare_cont Eq p q).
Proof. symmetry. exact (Pos.compare_cont_antisym p q Eq). Qed.

(** On binary64 numbers, [a < b] excludes [b <= a]. *)
Lemma SFcompare_Lt_Gt (x y : SpecFloat.spec_float) :
  SpecFloat.SFcompare x y = Some Lt -> SpecFloat.SFcompare y x = Some Gt.
Proof.
  destruct x as [sx|sx| |sx mx ex], y as [sy|sy| |sy my ey]; simpl;
    try discriminate;
    try solve [destruct sx; try destruct sy; simpl; congruence].
  destruct sx, sy; try congruence;
    rewrite (Z.compare_antisym ex ey);
    (destruct (ex ?= ey)%Z eqn:E; simpl; try congruence);
    rewrite (compare_cont_flip mx my);
    destruct (PosDef.Pos.compare_cont Eq mx my); simpl; congruence.
Qed.

Lemma float_ltb_excludes_leb (a b : float) :
  PrimFloat.ltb a b = true -> PrimFloat.leb b a = false.
Proof.
  rewrite FloatAxioms.ltb_spec, FloatAxioms.leb_spec.
  unfold SpecFloat.SFltb, SpecFloat.SFleb.
  destruct (SpecFloat.SFcompare (Prim2SF a) (Prim2SF b)) as [[| |]|] eqn:E;
    try discriminate.
  intros _. now rewrite (SFcompare_Lt_Gt _ _ E).
Qed.

End float_order.

Section normalizer_facts.

Import pathlib httpx host geopandas download_mpa.

Local Arguments String.append : simpl never.
Local Arguments joinpath : simpl never.

Variable srv : server.
Variable lib : library.

Local Abbreviation zip_of dir := (dir // "mpa_inventory.zip").

(** The zip is there: it is handed back as it is. *)
Lemma download_mpa_zip_present (output_path : Path) (w : world message) (c : bytes) :
  fs w !! zip_of output_path = Some c ->
  download_mpa_zip srv output_path w =
  (Ok (zip_of output_path), mkWorld (fs w) (trace w ++ [Info ZipExists])).
Proof.
  intros Hc. destruct w as [m t]. cbn [fs trace] in *.
  unfold download_mpa_zip, path_exists. run_monad.
  rewrite (exists_Some _ _ _ Hc). reflexivity.
Qed.

(** The zip is not there: it is requested, and a failed exchange leaves no
    zip behind and propagates. *)
Lemma download_mpa_zip_absent (output_path : Path) (w : world message) :
  fs w !! zip_of output_path = None ->
  download_mpa_zip srv output_path w =
  match srv MPA_URL with
  | NoResponse =>
      (Raise RequestError,
       mkWorld (fs w)
         (trace w ++ [Info DownloadingInventory; Get MPA_URL; Error RequestFailed]))
  | Response status_code chunks fin =>
      if is_success status_code then
        match fin with
        | Complete =>
            (Ok (zip_of output_path),
             mkWorld (<[zip_of output_path := concat chunks]> (fs w))
               (trace w ++ [Info DownloadingInventory; Get MPA_URL;
                            Info (DownloadedZip (Z.of_nat (length (concat chunks))))]))
        | Broken =>
            (Raise RequestError,
             mkWorld (fs w)
               (trace w ++ [Info DownloadingInventory; Get MPA_URL; Error RequestFailed]))
        end
      else
        (Raise (HTTPStatusError status_code),
         mkWorld (fs w)
           (trace w ++ [Info DownloadingInventory; Get MPA_URL;
                        Error (HttpError status_code)]))
  end.
Proof.
  intros Hc. destruct w as [m t]. cbn [fs trace] in *.
  unfold download_mpa_zip, path_exists, stream_get, raise_for_status. run_monad.
  rewrite (exists_None _ _ Hc).
  destruct (srv _) as [|status_code chunks fin]; run_monad.
  { rewrite (exists_None _ _ Hc). run_monad. rewrite <- !app_assoc. reflexivity. }
  destruct (is_success status_code); run_monad.
  2: { rewrite (exists_None _ _ Hc). run_monad. rewrite <- !app_assoc. reflexivity. }
  unfold open_wb. run_monad.
  rewrite (write_chunks_run _ _ _ _ _ []) by apply lookup_insert_eq.
  rewrite insert_insert_eq. simpl app.
  destruct fin; run_monad.
  - unfold stat_size. cbn [fs trace]. rewrite lookup_insert_eq. run_monad.
    rewrite <- !app_assoc. reflexivity.
  - rewrite (exists_Some _ _ (concat chunks)) by apply lookup_insert_eq.
    unfold unlink. run_monad. rewrite lookup_insert_eq. run_monad.
    rewrite delete_insert_id by exact Hc.
    rewrite <- !app_assoc. reflexivity.
Qed.

(** Extraction of an archive that is on disk. *)
Lemma extract_and_read_geodatabase_run (zip_path : Path) (w : world message)
    (archive : bytes) :
  fs w !! zip_path = Some archive ->
  extract_and_read_geodatabase lib zip_path w =
  match unzip lib archive with
  | None => (Raise BadZipFile, mkWorld (fs w) (trace w ++ [Info Extracting]))
  | Some listing =>
      match rglob_suffix ".gdb" listing with
      | [] =>
          (Raise (FileNotFoundError "No .gdb directory found in downloaded zip"),
           mkWorld (fs w) (trace w ++ [Info Extracting]))
      | gdb :: _ =>
          match read_file lib archive gdb with
          | Ok gdf =>
              (Ok gdf,
               mkWorld (fs w)
                 (trace w ++ [Info Extracting; Info (FoundGeodatabase (name gdb));
                              Info (ReadFeatures (length (rows gdf)))]))
          | Raise e =>
              (Raise e,
               mkWorld (fs w)
                 (trace w ++ [Info Extracting; Info (FoundGeodatabase (name gdb))]))
          | OutOfFuel =>
              (OutOfFuel,
               mkWorld (fs w)
                 (trace w ++ [Info Extracting; Info (FoundGeodatabase (name gdb))]))
          end
      end
  end.
Proof.
  intros Hc. destruct w as [m t]. cbn [fs trace] in *.
  unfold extract_and_read_geodatabase, extractall. run_monad. rewrite Hc.
  destruct (unzip lib archive) as [listing|]; [|reflexivity].
  destruct (rglob_suffix ".gdb" listing) as [|gdb rest]; [reflexivity|].
  run_monad.
  destruct (read_file lib archive gdb); rewrite <- ?app_assoc; reflexivity.
Qed.

(** [filter_us_coast] always answers, with the rows of the canonical frame
    that pass the mask, in their order. *)
Lemma filter_us_coast_run (gdf : GeoDataFrame) (w : world message) :
  exists w',
    filter_us_coast lib gdf w =
    (Ok (mkGeoDataFrame (crs (canonical lib gdf))
           (List.filter (in_bbox US_COAST_BBOX) (rows (canonical lib gdf)))), w')
    /\ fs w' = fs w
    /\ requests (trace w') = requests (trace w).
Proof.
  destruct w as [m t]. unfold filter_us_coast, canonical.
  destruct (needs_reprojection gdf); run_monad.
  - eexists. split; [reflexivity|]. split; [reflexivity|].
    cbn [trace]. unfold requests. rewrite !omap_app. simpl. now rewrite !app_nil_r.
  - eexists. split; [reflexivity|]. split; [reflexivity|].
    cbn [trace]. unfold requests. rewrite !omap_app. simpl. now rewrite !app_nil_r.
Qed.

Lemma filter_is_sublist {A} (keep : A -> bool) (l : list A) :
  sublist (List.filter keep l) l.
Proof.
  induction l as [|a l IH]; simpl.
  - constructor.
  - destruct (keep a); [apply sublist_skip|apply sublist_cons]; exact IH.
Qed.

Lemma in_bbox_us_coast (f : feature) :
  in_bbox US_COAST_BBOX f = true <-> within_us_coast f.
Proof.
  unfold in_bbox, US_COAST_BBOX, within_us_coast.
  rewrite !andb_true_iff. tauto.
Qed.

Lemma zip_is_not_snapshot : zip_of OUTPUT_DIR <> OUTPUT_FILE.
Proof. intros H. vm_compute in H. discriminate. Qed.

(** With the snapshot absent, once the zip is at hand the run goes on from
    it: no further request is sent, and a run that does not complete leaves
    the files as the fetch left them. *)
Lemma download_mpa_data_after_fetch (w w1 : world message) (archive : bytes) :
  fs w !! OUTPUT_FILE = None ->
  download_mpa_zip srv OUTPUT_DIR w = (Ok (zip_of OUTPUT_DIR), w1) ->
  fs w1 !! zip_of OUTPUT_DIR = Some archive ->
  exists r w',
    download_mpa_data srv lib w = (r, w')
    /\ requests (trace w') = requests (trace w1)
    /\ (r <> Ok tt -> fs w' = fs w1)
    /\ (unzip lib archive = None -> r = Raise BadZipFile)
    /\ (forall listing,
          unzip lib archive = Some listing -> rglob_suffix ".gdb" listing = [] ->
          r = Raise (FileNotFoundError "No .gdb directory found in downloaded zip")).
Proof.
  intros Hout Hfetch Hzip. destruct w as [m t], w1 as [m1 t1]. cbn [fs trace] in *.
  unfold download_mpa_data, path_exists. run_monad.
  rewrite (exists_None _ _ Hout), Hfetch.
  rewrite (extract_and_read_geodatabase_run _ _ archive) by exact Hzip.
  cbn [fs trace].
  destruct (unzip lib archive) as [listing|].
  2: { eexists _, _. split; [reflexivity|]. cbn [trace fs].
       rewrite !requests_app. simpl. rewrite !app_nil_r.
       repeat split; try reflexivity; discriminate. }
  destruct (rglob_suffix ".gdb" listing) as [|gdb rest] eqn:Hgdb.
  { eexists _, _. split; [reflexivity|]. cbn [trace fs].
    rewrite !requests_app. simpl. rewrite !app_nil_r.
    repeat split; try reflexivity; try discriminate. }
  destruct (read_file lib archive gdb) as [gdf|e|].
  2,3: eexists _, _; (split; [reflexivity|]); cbn [trace fs];
       rewrite !requests_app; simpl; rewrite !app_nil_r;
       repeat split; try reflexivity; try discriminate;
       intros listing' [= <-]; congruence.
  match goal with
  | |- context [filter_us_coast lib gdf ?w2] =>
      destruct (filter_us_coast_run gdf w2) as ([m3 t3] & Hrun & Hfs & Hreq);
      rewrite Hrun
  end.
  cbn [fs trace] in Hfs, Hreq. subst m3.
  unfold save_to_parquet, stat_size, unlink. run_monad.
  rewrite lookup_insert_eq. run_monad.
  rewrite lookup_insert_ne by (apply not_eq_sym, zip_is_not_snapshot).
  rewrite Hzip.
  eexists _, _. split; [reflexivity|]. cbn [trace fs].
  rewrite !requests_app, Hreq, !requests_app. simpl. rewrite !app_nil_r.
  repeat split; try reflexivity; try discriminate; try congruence.
Qed.

(** The archive at hand is the one the fetch step leaves on disk. *)
Lemma download_mpa_zip_archive_at_hand (w : world message) (archive : bytes) :
  fs w !! OUTPUT_FILE = None ->
  archive_at_hand srv w = Some archive ->
  exists w1,
    download_mpa_zip srv OUTPUT_DIR w = (Ok (zip_of OUTPUT_DIR), w1)
    /\ fs w1 !! zip_of OUTPUT_DIR = Some archive
    /\ fs w1 !! OUTPUT_FILE = None.
Proof.
  intros Hout Hat. unfold archive_at_hand in Hat.
  destruct (fs w !! zip_of OUTPUT_DIR) as [c|] eqn:Hzip.
  - injection Hat as ->.
    rewrite (download_mpa_zip_present OUTPUT_DIR w archive Hzip).
    eexists. split; [reflexivity|]. cbn [fs]. split; assumption.
  - rewrite (download_mpa_zip_absent OUTPUT_DIR w Hzip).
    destruct (srv MPA_URL) as [|status_code chunks fin]; [discriminate|].
    simpl in Hat. destruct fin; [|discriminate].
    destruct (is_success status_code); [|discriminate].
    injection Hat as <-.
    eexists. split; [reflexivity|]. cbn [fs]. split.
    + apply lookup_insert_eq.
    + rewrite lookup_insert_ne by apply zip_is_not_snapshot. exact Hout.
Qed.

End normalizer_facts.

Section normalizer_claims.

Import pathlib httpx host geopandas download_mpa.

Local Arguments String.append : simpl never.
Local Arguments joinpath : simpl never.

(** C5: [filter_us_coast] keeps exactly the features whose bounding box has
    all four edges inside (-130, 24, -65, 49): [minx >= -130], [maxx <= -65],
    [miny >= 24] and [maxy <= 49].  The kept features are rows of the
    (canonical) input as they are, in their order; a feature that reaches
    beyond an edge is dropped whole.  The box (-70, 30, -68, 32) is kept and
    the box (-66, 30, -64, 32) is dropped. *)
Theorem filter_us_coast_keeps_exactly_the_features_inside
    (lib : library) (gdf : GeoDataFrame) (w : world message) :
  exists kept w',
    filter_us_coast lib gdf w = (Ok kept, w')
    /\ (forall f, f ∈ rows kept <-> f ∈ rows (canonical lib gdf) /\ within_us_coast f)
    /\ sublist (rows kept) (rows (canonical lib gdf))
    /\ (forall f, crosses_us_coast_edge f -> f ∉ rows kept)
    /\ (forall site,
          feature_inside site ∈ rows (canonical lib gdf) ->
          feature_inside site ∈ rows kept)
    /\ (forall site, feature_astride site ∉ rows kept).
Proof.
  destruct (filter_us_coast_run lib gdf w) as (w' & Hrun & _).
  eexists _, w'. split; [exact Hrun|]. cbn [rows].
  assert (Hiff : forall f,
    f ∈ List.filter (in_bbox US_COAST_BBOX) (rows (canonical lib gdf))
    <-> f ∈ rows (canonical lib gdf) /\ within_us_coast f).
  { intros f. rewrite !list_elem_of_In, filter_In, in_bbox_us_coast. reflexivity. }
  split; [exact Hiff|].
  split.
  { apply filter_is_sublist. }
  split.
  { intros f Hcross Hin. apply Hiff in Hin as [_ (H1 & H2 & H3 & H4)].
    destruct Hcross as [H|[H|[H|H]]]; apply float_ltb_excludes_leb in H; congruence. }
  split.
  { intros site Hin. apply Hiff. split; [exact Hin|]. repeat split; reflexivity. }
  intros site Hin. apply Hiff in Hin as [_ (_ & H2 & _)].
  vm_compute in H2. discriminate.
Qed.

(** C8: when the archive the run works on holds no [.gdb] directory, the
    normalization raises [FileNotFoundError] and no snapshot exists
    afterwards: nothing was written at the snapshot's path. *)
Theorem archive_without_dataset_aborts_without_snapshot
    (srv : server) (lib : library) (w : world message)
    (archive : bytes) (listing : list Path) :
  fs w !! OUTPUT_FILE = None ->
  archive_at_hand srv w = Some archive ->
  unzip lib archive = Some listing ->
  rglob_suffix ".gdb" listing = [] ->
  exists w',
    download_mpa_data srv lib w
    = (Raise (FileNotFoundError "No .gdb directory found in downloaded zip"), w')
    /\ fs w' !! OUTPUT_FILE = None.
Proof.
  intros Hout Hat Hunzip Hgdb.
  destruct (download_mpa_zip_archive_at_hand srv w archive Hout Hat)
    as (w1 & Hfetch & Hzip & Hout1).
  destruct (download_mpa_data_after_fetch srv lib w w1 archive Hout Hfetch Hzip)
    as (r & w' & Hrun & _ & Hfs & _ & Hr).
  specialize (Hr listing Hunzip Hgdb). subst r.
  exists w'. split; [exact Hrun|].
  rewrite Hfs by discriminate. exact Hout1.
Qed.

(** C10: when the zip is on disk, whatever it holds, [download_mpa_zip]
    hands back its path without a request and without touching it, also
    when the snapshot does not exist; the run then extracts from that zip,
    still without a request, so that a zip that is no archive ends the run
    with [BadZipFile]. *)
Theorem download_mpa_zip_trusts_existing_zip
    (srv : server) (lib : library) (output_path : Path) (w : world message)
    (content : bytes) :
  fs w !! (output_path // "mpa_inventory.zip") = Some content ->
  (exists w',
     download_mpa_zip srv output_path w = (Ok (output_path // "mpa_inventory.zip"), w')
     /\ requests (trace w') = requests (trace w)
     /\ fs w' = fs w)
  /\ (output_path = OUTPUT_DIR ->
      fs w !! OUTPUT_FILE = None ->
      exists r w',
        download_mpa_data srv lib w = (r, w')
        /\ requests (trace w') = requests (trace w)
        /\ (unzip lib content = None -> r = Raise BadZipFile)).
Proof.
  intros Hzip. split.
  - rewrite (download_mpa_zip_present srv output_path w content Hzip).
    eexists. split; [reflexivity|]. cbn [fs trace].
    rewrite requests_app. simpl. rewrite app_nil_r. split; reflexivity.
  - intros -> Hout.
    pose proof (download_mpa_zip_present srv OUTPUT_DIR w content Hzip) as Hfetch.
    destruct (download_mpa_data_after_fetch srv lib w _ content Hout Hfetch Hzip)
      as (r & w' & Hrun & Hreq & _ & Hbad & _).
    exists r, w'. split; [exact Hrun|]. split; [|exact Hbad].
    rewrite Hreq. cbn [trace]. rewrite requests_app. simpl. apply app_nil_r.
Qed.

(** The spec's example as a run: of a frame in EPSG:4326 holding the two
    boxes, the first is kept and the second dropped. *)
Example filter_us_coast_example :
  fst (filter_us_coast toy_library
         (mkGeoDataFrame (Some (Some 4326)) [feature_inside "a"; feature_astride "b"])
         empty_world)
  = Ok (mkGeoDataFrame (Some (Some 4326)) [feature_inside "a"]).
Proof. reflexivity. Qed.

Lemma archive_without_dataset_aborts_without_snapshot_witness :
  let w := mkWorld {[ OUTPUT_DIR // "mpa_inventory.zip" := [Byte.x61; Byte.x62] ]} [] in
  exists w',
    download_mpa_data unreachable toy_library w
    = (Raise (FileNotFoundError "No .gdb directory found in downloaded zip"), w')
    /\ fs w' !! OUTPUT_FILE = None.
Proof.
  intros w.
  apply (archive_without_dataset_aborts_without_snapshot
           unreachable toy_library w [Byte.x61; Byte.x62] ["a"; "b"]);
    reflexivity.
Defined.

Lemma download_mpa_zip_trusts_existing_zip_witness :
  let w := mkWorld {[ OUTPUT_DIR // "mpa_inventory.zip" := [] ]} [] in
  (exists w',
     download_mpa_zip healthy OUTPUT_DIR w = (Ok (OUTPUT_DIR // "mpa_inventory.zip"), w')
     /\ requests (trace w') = requests (trace w)
     /\ fs w' = fs w)
  /\ (exists r w',
        download_mpa_data healthy toy_library w = (r, w')
        /\ requests (trace w') = requests (trace w)
        /\ r = Raise BadZipFile).
Proof.
  intros w.
  destruct (download_mpa_zip_trusts_existing_zip healthy toy_library OUTPUT_DIR w [])
    as [Hzip Hrun]; [reflexivity|].
  split; [exact Hzip|].
  destruct (Hrun eq_refl eq_refl) as (r & w' & Hdata & Hreq & Hbad).
  exists r, w'. split; [exact Hdata|]. split; [exact Hreq|]. apply Hbad. reflexivity.
Defined.

End normalizer_claims.

(** ** The Load Orchestrator: what a run leaves untouched *)

Section untouched_facts.

Import pathlib httpx geopandas load_data.

Local Arguments String.append : simpl never.

Variable loaded : bool.

Lemma untouched_refl (t : table) (w : world) : untouched t w w.
Proof.
  split; [reflexivity|]. split; [reflexivity|].
  exists []. split; [now rewrite app_nil_r|constructor].
Qed.

Lemma untouched_trans (t : table) (w1 w2 w3 : world) :
  untouched t w1 w2 -> untouched t w2 w3 -> untouched t w1 w3.
Proof.
  intros (Hr1 & Hf1 & l1 & Ht1 & Hl1) (Hr2 & Hf2 & l2 & Ht2 & Hl2).
  split; [congruence|]. split; [congruence|].
  exists (l1 ++ l2). split.
  - rewrite Ht2, Ht1, app_assoc. reflexivity.
  - apply Forall_app. split; assumption.
Qed.

Lemma untouched_row_count (t : table) (w w' : world) :
  untouched t w w' -> row_count t w' = row_count t w.
Proof. intros (Hr & _). unfold row_count. now rewrite Hr. Qed.

Lemma leaves_untouched_ret {A} (t : table) (a : A) :
  leaves_untouched loaded t (mret a : M world A).
Proof. intros w _. apply untouched_refl. Qed.

Lemma leaves_untouched_raise {A} (t : table) (e : exn) :
  leaves_untouched loaded t (raise e : M world A).
Proof. intros w _. apply untouched_refl. Qed.

Lemma leaves_untouched_bind {A B} (t : table) (m : M world A) (k : A -> M world B) :
  leaves_untouched loaded t m ->
  (forall a, leaves_untouched loaded t (k a)) ->
  leaves_untouched loaded t (m ≫= k).
Proof.
  intros Hm Hk w Hw. rewrite run_bind.
  specialize (Hm w Hw). destruct (m w) as [[a|e|] w1]; cbn [snd] in *; try exact Hm.
  eapply untouched_trans; [exact Hm|].
  apply Hk. intros Hl. rewrite (untouched_row_count _ _ _ Hm). exact (Hw Hl).
Qed.

Lemma leaves_untouched_emit (t : table) (e : event) :
  loader_footprint t e = false -> leaves_untouched loaded t (emit e).
Proof.
  intros He w _. split; [reflexivity|]. split; [reflexivity|].
  exists [e]. split; [reflexivity|]. constructor; [exact He|constructor].
Qed.

Lemma leaves_untouched_try_finally {A} (t : table) (m : M world A) (f : M world unit) :
  leaves_untouched loaded t m -> leaves_untouched loaded t f ->
  leaves_untouched loaded t (try_finally m f).
Proof.
  intros Hm Hf w Hw. unfold try_finally.
  specialize (Hm w Hw). destruct (m w) as [r w1]. cbn [snd] in Hm.
  assert (Hw1 : loaded = true -> 0 < row_count t w1)
    by (intros Hl; rewrite (untouched_row_count _ _ _ Hm); exact (Hw Hl)).
  specialize (Hf w1 Hw1). destruct (f w1) as [[[]|e|] w2]; cbn [snd] in *;
    eapply untouched_trans; eassumption.
Qed.

Lemma leaves_untouched_for_each {A} (t : table) (xs : list A) (body : A -> M world unit) :
  (forall x, leaves_untouched loaded t (body x)) ->
  leaves_untouched loaded t (for_each xs body).
Proof.
  intros Hbody. induction xs as [|x xs IH]; simpl.
  - apply (leaves_untouched_ret t tt).
  - apply (leaves_untouched_bind t (body x) (fun _ => for_each xs body)); auto.
Qed.

Lemma untouched_db_step (t : table) (m : gmap string bytes) (d d' : database)
    (tr : list event) :
  rows_of t d' = rows_of t d -> untouched t (mkWorld m d tr) (mkWorld m d' tr).
Proof.
  intros Hr. split; [exact Hr|]. split; [reflexivity|].
  exists []. split; [cbn [trace]; now rewrite app_nil_r|constructor].
Qed.

Lemma rows_of_set_staging (t : table) (st : option (list row)) (d : database) :
  rows_of t (set_staging st d) = rows_of t d.
Proof. destruct t; reflexivity. Qed.

Lemma rows_of_insert_into_other (t t' : table) (new : list row) (d : database) :
  t <> t' -> rows_of t (insert_into t' new d) = rows_of t d.
Proof. destruct t, t'; intros H; try reflexivity; congruence. Qed.

Lemma rows_of_insert_into_same (t : table) (new : list row) (d : database) :
  rows_of t (insert_into t new d) = rows_of t d ++ new.
Proof. destruct t; reflexivity. Qed.

Lemma leaves_untouched_path_exists (t : table) (p : Path) :
  loader_footprint t (Stat p) = false -> leaves_untouched loaded t (path_exists p).
Proof.
  intros He. unfold path_exists.
  apply (leaves_untouched_bind t (emit (Stat p))); [now apply leaves_untouched_emit|].
  intros _ w _. apply untouched_refl.
Qed.

Lemma leaves_untouched_read_parquet (t : table) (rd : reader) (p : Path) :
  loader_footprint t (ReadParquet p) = false -> leaves_untouched loaded t (read_parquet rd p).
Proof.
  intros He. unfold read_parquet.
  apply (leaves_untouched_bind t (emit (ReadParquet p))); [now apply leaves_untouched_emit|].
  intros _ w _. destruct (fs w !! p) as [c|]; [destruct (rd c)|]; apply untouched_refl.
Qed.

Lemma leaves_untouched_select_count (t t' : table) :
  leaves_untouched loaded t (select_count t').
Proof.
  unfold select_count.
  apply (leaves_untouched_bind t (emit (Execute (SelectCount t')))).
  - apply leaves_untouched_emit. destruct t; reflexivity.
  - intros _ w _. apply untouched_refl.
Qed.

Lemma leaves_untouched_lift {A} (t : table) (r : result A) :
  leaves_untouched loaded t (lift r : M world A).
Proof. intros w _. apply untouched_refl. Qed.

Lemma leaves_untouched_execute_insert (t t' : table) (pg : postgres) (page : list row) :
  t <> t' -> leaves_untouched loaded t (execute_insert pg t' page).
Proof.
  intros Hne. unfold execute_insert.
  apply (leaves_untouched_bind t (emit (Execute (InsertValues t' (length page))))).
  - apply leaves_untouched_emit. destruct t, t'; try reflexivity; congruence.
  - intros _ [m d tr] _. destruct (accepts_values pg t' page).
    + apply untouched_db_step. now apply rows_of_insert_into_other.
    + apply untouched_refl.
Qed.

Lemma leaves_untouched_execute_values (t t' : table) (pg : postgres) (records : list row) :
  t <> t' -> leaves_untouched loaded t (execute_values pg t' records).
Proof.
  intros Hne. unfold execute_values. apply leaves_untouched_for_each.
  intros page. now apply leaves_untouched_execute_insert.
Qed.

Lemma leaves_untouched_create_staging (t : table) :
  t <> ais_positions -> leaves_untouched loaded t create_staging.
Proof.
  intros Hne. unfold create_staging.
  apply (leaves_untouched_bind t (emit (Execute CreateStaging))).
  - apply leaves_untouched_emit. destruct t; try reflexivity; congruence.
  - intros _ [m d tr] _. cbn [db]. destruct (ais_staging d).
    + apply untouched_refl.
    + apply untouched_db_step, rows_of_set_staging.
Qed.

Lemma leaves_untouched_copy_staging (t : table) (pg : postgres) (buffer : string) :
  t <> ais_positions -> leaves_untouched loaded t (copy_staging pg buffer).
Proof.
  intros Hne. unfold copy_staging.
  apply (leaves_untouched_bind t (emit (Execute (CopyStaging buffer)))).
  - apply leaves_untouched_emit. destruct t; try reflexivity; congruence.
  - intros _ [m d tr] _. cbn [db]. destruct (ais_staging d).
    + destruct (copy_from pg buffer).
      * apply untouched_db_step, rows_of_set_staging.
      * apply untouched_refl.
    + apply untouched_refl.
Qed.

Lemma leaves_untouched_insert_from_staging (t : table) (pg : postgres) :
  t <> ais_positions -> leaves_untouched loaded t (insert_from_staging pg).
Proof.
  intros Hne. unfold insert_from_staging.
  apply (leaves_untouched_bind t (emit (Execute InsertFromStaging))).
  - apply leaves_untouched_emit. destruct t; try reflexivity; congruence.
  - intros _ [m d tr] _. cbn [db]. destruct (ais_staging d) as [st|].
    + destruct (accepts_select pg st).
      * apply untouched_db_step. now apply rows_of_insert_into_other.
      * apply untouched_refl.
    + apply untouched_refl.
Qed.

Lemma leaves_untouched_drop_staging (t : table) :
  t <> ais_positions -> leaves_untouched loaded t drop_staging.
Proof.
  intros Hne. unfold drop_staging.
  apply (leaves_untouched_bind t (emit (Execute DropStaging))).
  - apply leaves_untouched_emit. destruct t; try reflexivity; congruence.
  - intros _ [m d tr] _. cbn [db]. destruct (ais_staging d).
    + apply untouched_db_step, rows_of_set_staging.
    + apply untouched_refl.
Qed.

Lemma leaves_untouched_sorted_glob (t : table) (dir : Path) (suffix : string) :
  t <> ais_positions -> leaves_untouched loaded t (sorted_glob dir suffix).
Proof.
  intros Hne. unfold sorted_glob.
  apply (leaves_untouched_bind t (emit (Glob dir))).
  - apply leaves_untouched_emit. destruct t; try reflexivity; congruence.
  - intros _ w _. apply untouched_refl.
Qed.

Lemma leaves_untouched_connect (t : table) : leaves_untouched loaded t connect.
Proof.
  unfold connect. apply (leaves_untouched_bind t (emit Connect)).
  - apply leaves_untouched_emit. destruct t; reflexivity.
  - intros _ [m d tr] _. apply untouched_db_step, rows_of_set_staging.
Qed.

Lemma leaves_untouched_close (t : table) : leaves_untouched loaded t close.
Proof.
  unfold close. apply (leaves_untouched_bind t (emit Close)).
  { apply leaves_untouched_emit. destruct t; reflexivity. }
  intros _.
  apply (leaves_untouched_bind t
           (modify (fun w => mkWorld (fs w) (set_staging None (db w)) (trace w)))).
  { intros [m d tr] _. apply untouched_db_step, rows_of_set_staging. }
  intros _. apply leaves_untouched_emit. destruct t; reflexivity.
Qed.

Lemma leaves_untouched_bind_post {A B} (t : table) (P : A -> Prop)
    (m : M world A) (k : A -> M world B) :
  (forall w, (loaded = true -> 0 < row_count t w) ->
             match m w with (Ok a, _) => P a | _ => True end) ->
  leaves_untouched loaded t m ->
  (forall a, P a -> leaves_untouched loaded t (k a)) ->
  leaves_untouched loaded t (m ≫= k).
Proof.
  intros Hpost Hm Hk w Hw. rewrite run_bind.
  specialize (Hm w Hw). specialize (Hpost w Hw).
  destruct (m w) as [[a|e|] w1]; cbn [snd] in *; try exact Hm.
  eapply untouched_trans; [exact Hm|].
  apply Hk; [exact Hpost|]. intros Hl. rewrite (untouched_row_count _ _ _ Hm). exact (Hw Hl).
Qed.

(** The files the sorted glob finds lie directly below the directory. *)
Lemma sorted_glob_below (dir : Path) (suffix : string) (w : world) :
  match sorted_glob dir suffix w with
  | (Ok files, _) => Forall (fun p => directly_below dir p = true) files
  | _ => True
  end.
Proof.
  unfold sorted_glob. run_monad.
  rewrite merge_sort_Permutation.
  apply Forall_forall. intros p Hp.
  apply list_elem_of_In, filter_In in Hp as [_ Hp].
  apply andb_true_iff in Hp as [Hp _]. exact Hp.
Qed.

Lemma below_ais_dir_is_no_other_source (p : Path) :
  directly_below AIS_DIR p = true ->
  String.eqb p MPA_FILE = false /\ String.eqb p CETACEAN_FILE = false.
Proof.
  intros Hp. split.
  - destruct (String.eqb_spec p MPA_FILE) as [->|]; [|reflexivity].
    vm_compute in Hp. discriminate.
  - destruct (String.eqb_spec p CETACEAN_FILE) as [->|]; [|reflexivity].
    vm_compute in Hp. discriminate.
Qed.

(** Applies the rule that fits the head of the computation. *)
Ltac frame :=
  repeat first
    [ apply leaves_untouched_ret
    | apply leaves_untouched_raise
    | apply leaves_untouched_lift
    | apply leaves_untouched_select_count
    | apply leaves_untouched_connect
    | apply leaves_untouched_close
    | apply leaves_untouched_emit; reflexivity
    | apply leaves_untouched_path_exists; reflexivity
    | apply leaves_untouched_read_parquet; reflexivity
    | apply leaves_untouched_execute_values; discriminate
    | apply leaves_untouched_create_staging; discriminate
    | apply leaves_untouched_copy_staging; discriminate
    | apply leaves_untouched_insert_from_staging; discriminate
    | apply leaves_untouched_drop_staging; discriminate
    | apply leaves_untouched_sorted_glob; discriminate
    | apply leaves_untouched_bind; [|intros ?] ].

Lemma leaves_untouched_load_mpa_data (t : table) (pg : postgres) (py : python)
    (rd : reader) :
  t <> marine_protected_areas -> leaves_untouched loaded t (load_mpa_data pg py rd).
Proof.
  intros Hne. unfold load_mpa_data.
  apply leaves_untouched_bind; [destruct t; [congruence|frame..]|].
  intros present. destruct present; cbn [negb]; destruct t; try congruence; frame.
Qed.

Lemma leaves_untouched_load_cetacean_data (t : table) (pg : postgres) (py : python)
    (rd : reader) :
  t <> cetacean_sightings -> leaves_untouched loaded t (load_cetacean_data pg py rd).
Proof.
  intros Hne. unfold load_cetacean_data.
  apply leaves_untouched_bind; [destruct t; [frame|congruence|frame]|].
  intros present. destruct present; cbn [negb]; destruct t; try congruence; frame.
Qed.

Lemma leaves_untouched_load_ais_file (t : table) (pg : postgres) (py : python)
    (rd : reader) (files : nat) (file_idx : Z) (filepath : Path) (total_loaded : Z) :
  t <> ais_positions ->
  directly_below AIS_DIR filepath = true ->
  leaves_untouched loaded t (load_ais_file pg py rd files file_idx filepath total_loaded).
Proof.
  intros Hne Hp. apply below_ais_dir_is_no_other_source in Hp as [Hmpa Hcet].
  unfold load_ais_file.
  apply leaves_untouched_bind; [destruct t; [frame|frame|congruence]|]. intros _.
  apply leaves_untouched_bind.
  { apply leaves_untouched_read_parquet. destruct t; [exact Hmpa|exact Hcet|congruence]. }
  intros gdf. destruct t; try congruence; frame.
Qed.

Lemma leaves_untouched_load_ais_files (t : table) (pg : postgres) (py : python)
    (rd : reader) (files : nat) (parquet_files : list Path) :
  t <> ais_positions ->
  Forall (fun p => directly_below AIS_DIR p = true) parquet_files ->
  forall file_idx total_loaded,
    leaves_untouched loaded t
      (load_ais_files pg py rd files file_idx parquet_files total_loaded).
Proof.
  intros Hne Hall. induction Hall as [|p rest Hp Hrest IH]; intros file_idx total_loaded; simpl.
  - apply leaves_untouched_ret.
  - apply leaves_untouched_bind; [now apply leaves_untouched_load_ais_file|].
    intros total. apply IH.
Qed.

Lemma leaves_untouched_load_ais_data (t : table) (pg : postgres) (py : python)
    (rd : reader) :
  t <> ais_positions -> leaves_untouched loaded t (load_ais_data pg py rd).
Proof.
  intros Hne. unfold load_ais_data.
  apply (leaves_untouched_bind_post t
           (Forall (fun p => directly_below AIS_DIR p = true))).
  - intros w _. apply sorted_glob_below.
  - now apply leaves_untouched_sorted_glob.
  - intros files Hfiles. destruct files as [|p rest].
    + destruct t; try congruence; frame.
    + apply leaves_untouched_bind; [destruct t; try congruence; frame|]. intros _.
      apply leaves_untouched_bind; [now apply leaves_untouched_load_ais_files|].
      intros total. destruct t; try congruence; frame.
Qed.

(** The gate of the orchestrator: a relation with rows is passed over, and
    the loaders of the other relations do not reach it. *)
Lemma leaves_untouched_load_table (t t' : table) (pg : postgres) (py : python)
    (rd : reader) :
  loaded = true -> leaves_untouched loaded t (load_table pg py rd t').
Proof.
  intros Hloaded. unfold load_table.
  destruct (decide (t' = t)) as [->|Hne].
  - apply (leaves_untouched_bind_post t (fun count => 0 < count)).
    + intros w Hw. unfold select_count. run_monad. exact (Hw Hloaded).
    + apply leaves_untouched_select_count.
    + intros count Hcount. destruct (Z.ltb_spec 0 count); [|lia].
      apply leaves_untouched_emit. destruct t; reflexivity.
  - apply leaves_untouched_bind; [apply leaves_untouched_select_count|].
    intros count. destruct (0 <? count).
    + apply leaves_untouched_emit. destruct t; reflexivity.
    + destruct t'.
      * apply leaves_untouched_bind; [|intros ?; apply leaves_untouched_ret].
        apply leaves_untouched_load_mpa_data. congruence.
      * apply leaves_untouched_bind; [|intros ?; apply leaves_untouched_ret].
        apply leaves_untouched_load_cetacean_data. congruence.
      * apply leaves_untouched_bind; [|intros ?; apply leaves_untouched_ret].
        apply leaves_untouched_load_ais_data. congruence.
Qed.

Lemma leaves_untouched_load_all_data (t : table) (pg : postgres) (py : python)
    (rd : reader) :
  loaded = true -> leaves_untouched loaded t (load_all_data pg py rd).
Proof.
  intros Hloaded. unfold load_all_data.
  apply leaves_untouched_bind; [apply leaves_untouched_emit; destruct t; reflexivity|].
  intros _. apply leaves_untouched_bind; [apply leaves_untouched_connect|]. intros _.
  apply leaves_untouched_try_finally; [|apply leaves_untouched_close].
  apply leaves_untouched_bind.
  { apply leaves_untouched_for_each. intros t'. now apply leaves_untouched_load_table. }
  intros _. apply leaves_untouched_bind.
  { apply leaves_untouched_emit. destruct t; reflexivity. }
  intros _. apply leaves_untouched_for_each. intros t'. unfold report_count.
  apply leaves_untouched_bind; [apply leaves_untouched_select_count|].
  intros count. apply leaves_untouched_emit. destruct t; reflexivity.
Qed.

End untouched_facts.


(** ** The Staged Bulk Loader *)

Section bulk_loader_facts.

Import pathlib httpx geopandas load_data.

Local Arguments String.append : simpl never.
Local Arguments name : simpl never.

Variable pg : postgres.
Variable py : python.
Variable rd : reader.

Lemma leb_iff_lt_or_eq (a b : string) :
  String.leb a b = true <-> String_as_OT.lt a b \/ a = b.
Proof.
  unfold String.leb.
  change (String.compare a b) with (String_as_OT.compare a b).
  destruct String_as_OT.lt_strorder as [Hirr Htr].
  destruct (String_as_OT.compare_spec a b) as [H|H|H].
  - split; auto.
  - split; auto.
  - split; [discriminate|].
    intros [H'| ->]; exfalso.
    + apply (Hirr a). eapply Htr; eauto.
    + apply (Hirr b H).
Qed.

#[local] Instance path_le_trans : Transitive path_le.
Proof.
  intros a b c. unfold path_le. rewrite !leb_iff_lt_or_eq.
  destruct String_as_OT.lt_strorder as [Hirr Htr].
  intros [H1| ->] [H2| ->]; auto. left. eapply Htr; eauto.
Qed.

#[local] Instance path_le_total : Total path_le.
Proof. intros a b. apply String.leb_total. Qed.

(** The sorted glob: ascending, without repetition, and exactly the files
    on disk directly below the directory whose name has the suffix. *)
Lemma sorted_glob_spec (dir : Path) (suffix : string) (w : world) :
  exists files,
    sorted_glob dir suffix w = (Ok files, mkWorld (fs w) (db w) (trace w ++ [Glob dir]))
    /\ StronglySorted path_le files
    /\ NoDup files
    /\ forall p, p ∈ files <->
         is_Some (fs w !! p)
         /\ directly_below dir p = true /\ ends_with suffix (name p) = true.
Proof.
  destruct w as [m d tr]. unfold sorted_glob. run_monad.
  eexists. split; [reflexivity|].
  split; [apply StronglySorted_merge_sort; apply _|].
  split.
  - rewrite merge_sort_Permutation.
    apply NoDup_ListNoDup, List.NoDup_filter, NoDup_ListNoDup.
    apply NoDup_fst_map_to_list.
  - intros p. rewrite merge_sort_Permutation.
    rewrite list_elem_of_In, filter_In, <- list_elem_of_In, andb_true_iff.
    rewrite list_elem_of_fmap.
    split.
    + intros [((p' & c) & -> & Hin) Hp]. apply elem_of_map_to_list in Hin.
      split; [cbn [fst]; eauto|exact Hp].
    + intros [[c Hc] Hp]. split; [|exact Hp].
      exists (p, c). split; [reflexivity|]. now apply elem_of_map_to_list.
Qed.

Lemma insert_into_nil (t : table) (d : database) : insert_into t [] d = d.
Proof. destruct t, d; simpl; now rewrite app_nil_r. Qed.

Lemma insert_into_app (t : table) (a b : list row) (d : database) :
  insert_into t b (insert_into t a d) = insert_into t (a ++ b) d.
Proof. destruct t, d; simpl; now rewrite app_assoc. Qed.

(** What a file yields depends on the files only. *)
Lemma ais_load_at_same_files (w w' : world) (p : Path) :
  fs w' = fs w -> ais_load_at pg py rd w' p = ais_load_at pg py rd w p.
Proof. intros Hfs. unfold ais_load_at, frame_at. now rewrite Hfs. Qed.

(** What going through takes, spelled out. *)
Lemma ais_load_at_Some (w : world) (p : Path) (n : nat) (staged : list row) :
  ais_load_at pg py rd w p = Some (n, staged) ->
  exists content gdf flat,
    fs w !! p = Some content
    /\ rd content = Some gdf
    /\ flat_frame py gdf = Ok flat
    /\ length (data flat) = n
    /\ copy_from pg (to_csv py flat) = Some staged
    /\ accepts_select pg staged = true.
Proof.
  unfold ais_load_at, frame_at. intros H.
  destruct (fs w !! p) as [content|]; [|discriminate].
  cbn [mbind option_bind] in H.
  destruct (rd content) as [gdf|] eqn:Hrd; [|discriminate].
  cbn [mbind option_bind] in H.
  destruct (flat_frame py gdf) as [flat| |] eqn:Hflat; try discriminate.
  destruct (copy_from pg (to_csv py flat)) as [staged'|] eqn:Hcopy; [|discriminate].
  cbn [mbind option_bind] in H.
  destruct (accepts_select pg staged') eqn:Hsel; [|discriminate].
  injection H as <- <-. exists content, gdf, flat. repeat split; assumption.
Qed.

(** One file that goes through, with no staging relation in the way: the
    rows COPY reads pass through the staging relation into the position
    relation, the staging relation is dropped, and the new running total,
    counted in rows of the frame, is logged. *)
Lemma load_ais_file_run (files : nat) (file_idx : Z) (filepath : Path)
    (total_loaded : Z) (w : world) (n : nat) (staged : list row) :
  ais_load_at pg py rd w filepath = Some (n, staged) ->
  ais_staging (db w) = None ->
  exists buffer,
    load_ais_file pg py rd files file_idx filepath total_loaded w =
    (Ok (total_loaded + Z.of_nat n),
     mkWorld (fs w) (insert_into ais_positions staged (db w))
       (trace w ++
        [Info (Reading file_idx files (name filepath)); ReadParquet filepath;
         Execute CreateStaging; Execute (CopyStaging buffer);
         Execute InsertFromStaging; Execute DropStaging;
         Info (LoadedFile file_idx files (name filepath) (Z.of_nat n)
                 (total_loaded + Z.of_nat n))])).
Proof.
  intros Hload Hst.
  apply ais_load_at_Some in Hload
    as (content & gdf & flat & Hc & Hrd & Hflat & <- & Hcopy & Hsel).
  destruct w as [m [mp ce ai st] tr]. cbn [fs db ais_staging] in *. subst st.
  exists (to_csv py flat).
  unfold load_ais_file, read_parquet, create_staging, copy_staging,
    insert_from_staging, drop_staging.
  run_monad. rewrite Hc, Hrd, Hflat. cbn [ais_staging set_staging].
  rewrite Hcopy. cbn [ais_staging set_staging app]. rewrite Hsel.
  cbn [ais_staging set_staging insert_into mpa_rows cetacean_rows ais_rows].
  rewrite <- !app_assoc. reflexivity.
Qed.

Lemma total_rows_cons (l : nat * list row) (loads : list (nat * list row)) :
  total_rows (l :: loads) = Z.of_nat (fst l) + total_rows loads.
Proof. reflexivity. Qed.

Lemma staged_rows_cons (l : nat * list row) (loads : list (nat * list row)) :
  staged_rows (l :: loads) = snd l ++ staged_rows loads.
Proof. reflexivity. Qed.

(** The files in turn: the running total after each file is the sum of
    the row counts so far. *)
Lemma load_ais_files_run (files : nat) (parquet_files : list Path)
    (loads : list (nat * list row)) (w0 : world) :
  Forall2 (fun p l => ais_load_at pg py rd w0 p = Some l) parquet_files loads ->
  forall (file_idx total_loaded : Z) (d : database) (tr : list event),
    ais_staging d = None ->
    exists log,
      load_ais_files pg py rd files file_idx parquet_files total_loaded
        (mkWorld (fs w0) d tr) =
      (Ok (total_loaded + total_rows loads),
       mkWorld (fs w0) (insert_into ais_positions (staged_rows loads) d) (tr ++ log))
      /\ files_read log = parquet_files
      /\ logged_running_totals log = running_totals total_loaded (frame_rows loads)
      /\ logged_final_totals log = [].
Proof.
  induction 1 as [|p [n staged] rest loads Hp Hrest IH];
    intros file_idx total_loaded d tr Hst.
  - exists []. split; [|repeat split; reflexivity].
    unfold staged_rows, total_rows. cbn [map concat frame_rows foldr].
    rewrite insert_into_nil, app_nil_r, Z.add_0_r. reflexivity.
  - simpl load_ais_files. rewrite run_bind.
    destruct (load_ais_file_run files file_idx p total_loaded (mkWorld (fs w0) d tr)
                n staged) as [buffer Hfile].
    { rewrite <- Hp. now apply ais_load_at_same_files. }
    { exact Hst. }
    rewrite Hfile. cbn [fs db trace].
    match goal with
    | |- context [load_ais_files _ _ _ _ _ _ _ (mkWorld _ _ ?tr1)] =>
        destruct (IH (file_idx + 1) (total_loaded + Z.of_nat n)
                    (insert_into ais_positions staged d) tr1)
          as (log & Hrun & Hread & Htotals & Hfinal)
    end.
    { destruct d; exact Hst. }
    eexists. split.
    + rewrite Hrun. rewrite insert_into_app, <- app_assoc, total_rows_cons, staged_rows_cons.
      cbn [fst snd]. f_equal. f_equal. lia.
    + unfold files_read, logged_running_totals, logged_final_totals in *.
      rewrite !omap_app, Hread, Htotals, Hfinal. repeat split; reflexivity.
Qed.

End bulk_loader_facts.

Section bulk_loader_claims.

Import pathlib httpx geopandas load_data.

Local Arguments String.append : simpl never.
Local Arguments name : simpl never.

(** The flat frame has the rows of the frame it is built from: the count
    [n_rows] the loop adds up is the row count of the file. *)
Lemma flat_frame_rows (py : python) (gdf flat : DataFrame) :
  flat_frame py gdf = Ok flat -> length (data flat) = length (data gdf).
Proof.
  unfold flat_frame. intros H.
  repeat (apply result_bind_Ok in H as (? & _ & H)).
  injection H as <-. unfold DataFrame_of_dict. cbn [data].
  now rewrite length_map, length_seq.
Qed.

(** C6 as stated fails, twice.  On the three files of ten rows each, with
    every statement accepted, the loader logs the running totals 10, 20, 30
    and the final total 30, but the call hands back [None], not the total.
    And a sequence of files that can all be read does not by itself get
    that far: where the database rejects the text of the first file at
    COPY, the statement raises and no total is logged at all. *)
Lemma load_ais_data_returns_none_not_the_total :
  (exists w',
     load_ais_data lenient plain row_per_byte three_days = (Ok NoneValue, w')
     /\ fst (load_ais_data lenient plain row_per_byte three_days) <> Ok (IntValue 30)
     /\ logged_running_totals (trace w') = [10; 20; 30]
     /\ logged_final_totals (trace w') = [30])
  /\ (exists w',
        load_ais_data strict plain row_per_byte three_days = (Raise DatabaseError, w')
        /\ files_read (trace w') = [AIS_DIR // "ais-2024-01-01.parquet"]
        /\ logged_running_totals (trace w') = []
        /\ logged_final_totals (trace w') = []).
Proof.
  split.
  - eexists. split; [vm_compute; reflexivity|].
    split; [vm_compute; discriminate|].
    split; vm_compute; reflexivity.
  - eexists. split; [vm_compute; reflexivity|].
    repeat split; vm_compute; reflexivity.
Qed.

(** C6 (amended): with a non-empty sorted sequence of source files each of
    which goes through (it is read, converted, copied and inserted without
    an error), [load_ais_data] reads the files in ascending order of their
    paths, logs after each file a running total equal to the sum of the row
    counts of the files read so far, and logs the final total, the sum over
    all files, once all are processed.  The call itself hands back
    [None]. *)
Theorem load_ais_data_logs_running_and_final_totals
    (pg : postgres) (py : python) (rd : reader) (w : world)
    (parquet_files : list Path) (loads : list (nat * list row)) :
  fst (sorted_glob AIS_DIR ".parquet" w) = Ok parquet_files ->
  parquet_files <> [] ->
  Forall2 (fun p l => ais_load_at pg py rd w p = Some l) parquet_files loads ->
  ais_staging (db w) = None ->
  exists w',
    load_ais_data pg py rd w = (Ok NoneValue, w')
    /\ StronglySorted path_le parquet_files
    /\ files_read (trace w') = files_read (trace w) ++ parquet_files
    /\ logged_running_totals (trace w') =
       logged_running_totals (trace w) ++ running_totals 0 (frame_rows loads)
    /\ logged_final_totals (trace w') =
       logged_final_totals (trace w) ++ [total_rows loads]
    /\ last (trace w') = Some (Info (AisComplete (total_rows loads))).
Proof.
  intros Hglob Hne Hread Hst.
  destruct (sorted_glob_spec AIS_DIR ".parquet" w) as (files & Hrun & Hsorted & _).
  rewrite Hrun in Hglob. cbn [fst] in Hglob. injection Hglob as ->.
  unfold load_ais_data. rewrite run_bind, Hrun.
  destruct parquet_files as [|p rest]; [congruence|].
  set (files := p :: rest) in *.
  rewrite run_bind. unfold emit at 1, modify. cbn [fs db trace].
  rewrite run_bind.
  destruct (load_ais_files_run pg py rd (length files) files loads w Hread 1 0 (db w)
              ((trace w ++ [Glob AIS_DIR]) ++ [Info (FoundAisFiles (length files))]) Hst)
    as (log & Hfiles & Hlogread & Hlogtot & Hlogfin).
  rewrite Z.add_0_l in Hfiles. rewrite Hfiles. run_monad.
  eexists. split; [reflexivity|]. cbn [trace db].
  split; [exact Hsorted|].
  unfold files_read, logged_running_totals, logged_final_totals in *.
  rewrite !omap_app, Hlogread, Hlogtot, Hlogfin. simpl. rewrite !app_nil_r.
  repeat split; try reflexivity. apply last_snoc.
Qed.

Lemma load_ais_data_logs_running_and_final_totals_witness :
  exists w',
    load_ais_data lenient plain row_per_byte three_days = (Ok NoneValue, w')
    /\ StronglySorted path_le three_days_files
    /\ files_read (trace w') = files_read (trace three_days) ++ three_days_files
    /\ logged_running_totals (trace w') =
       logged_running_totals (trace three_days)
       ++ running_totals 0 (frame_rows three_days_loads)
    /\ logged_final_totals (trace w') =
       logged_final_totals (trace three_days) ++ [total_rows three_days_loads]
    /\ last (trace w') = Some (Info (AisComplete (total_rows three_days_loads))).
Proof.
  apply (load_ais_data_logs_running_and_final_totals
           lenient plain row_per_byte three_days three_days_files three_days_loads).
  - vm_compute. reflexivity.
  - discriminate.
  - apply Forall2_omap_all. vm_compute. reflexivity.
  - reflexivity.
Defined.

(** The totals of the witness, in numbers. *)
Example three_days_totals :
  running_totals 0 (frame_rows three_days_loads) = [10; 20; 30]
  /\ total_rows three_days_loads = 30.
Proof. vm_compute. split; reflexivity. Qed.

End bulk_loader_claims.

(** ** The Load Orchestrator: the claim *)

Section orchestrator_claims.

Import pathlib httpx geopandas load_data.

Local Arguments String.append : simpl never.

(** The footprint is not an empty notion: where a relation has no rows,
    the orchestrator runs its loader, and the first thing after the count
    query is an event of that loader. *)
Lemma load_table_runs_loader_of_empty_relation
    (pg : postgres) (py : python) (rd : reader) (t : table) (w : world) :
  row_count t w = 0 ->
  exists e rest,
    trace (snd (load_table pg py rd t w)) = trace w ++ Execute (SelectCount t) :: e :: rest
    /\ loader_footprint t e = true.
Proof.
  intros Hcount. destruct w as [m d tr]. unfold row_count in Hcount. cbn [db] in Hcount.
  unfold load_table, select_count. run_monad. rewrite Hcount. cbn [Z.ltb Z.compare].
  destruct t.
  - unfold load_mpa_data, path_exists, read_parquet. run_monad.
    destruct (exists_ m MPA_FILE); cbn [negb]; run_monad.
    2: { cbn [snd trace]; rewrite <- !app_assoc.
         eexists _, _; (split; [reflexivity|reflexivity]). }
    destruct (m !! MPA_FILE) as [c|]; [destruct (rd c) as [gdf|]|].
    2,3: cbn [snd trace]; rewrite <- !app_assoc;
         eexists _, _; (split; [reflexivity|reflexivity]).
    destruct (collect (mpa_record py) (iterrows gdf)) as [records| |].
    2,3: cbn [snd trace]; rewrite <- !app_assoc;
         eexists _, _; (split; [reflexivity|reflexivity]).
    match goal with
    | |- context [execute_values pg ?t' records ?w3] =>
        pose proof (leaves_untouched_execute_values false cetacean_sightings t' pg records
                      ltac:(discriminate) w3 ltac:(discriminate))
          as (_ & _ & log & Hlog & _);
        destruct (execute_values pg t' records w3) as [[[]|e|] [m4 d4 t4]]
    end;
      cbn [snd trace] in *; subst t4; cbn [snd trace];
      rewrite <- !app_assoc; eexists _, _; (split; [reflexivity|reflexivity]).
  - unfold load_cetacean_data, path_exists, read_parquet. run_monad.
    destruct (exists_ m CETACEAN_FILE); cbn [negb]; run_monad.
    2: { cbn [snd trace]; rewrite <- !app_assoc.
         eexists _, _; (split; [reflexivity|reflexivity]). }
    destruct (m !! CETACEAN_FILE) as [c|]; [destruct (rd c) as [df|]|].
    2,3: cbn [snd trace]; rewrite <- !app_assoc;
         eexists _, _; (split; [reflexivity|reflexivity]).
    destruct (collect (cetacean_record py) (iterrows df)) as [records| |].
    2,3: cbn [snd trace]; rewrite <- !app_assoc;
         eexists _, _; (split; [reflexivity|reflexivity]).
    match goal with
    | |- context [execute_values pg ?t' records ?w3] =>
        pose proof (leaves_untouched_execute_values false marine_protected_areas t' pg
                      records ltac:(discriminate) w3 ltac:(discriminate))
          as (_ & _ & log & Hlog & _);
        destruct (execute_values pg t' records w3) as [[[]|e|] [m4 d4 t4]]
    end;
      cbn [snd trace] in *; subst t4; cbn [snd trace];
      rewrite <- !app_assoc; eexists _, _; (split; [reflexivity|reflexivity]).
  - unfold load_ais_data.
    pose proof (sorted_glob_below AIS_DIR ".parquet"
                  (mkWorld m d (tr ++ [Execute (SelectCount ais_positions)]))) as Hbelow.
    destruct (sorted_glob_spec AIS_DIR ".parquet"
                (mkWorld m d (tr ++ [Execute (SelectCount ais_positions)])))
      as (files & Hglob & _).
    rewrite Hglob in Hbelow. rewrite !run_bind, Hglob. cbn [fs db trace].
    destruct files as [|p rest].
    + run_monad. cbn [snd trace]. rewrite <- !app_assoc.
      eexists _, _; (split; [reflexivity|reflexivity]).
    + rewrite !run_bind. unfold emit at 1, modify. cbn [fs db trace].
      rewrite !run_bind.
      match goal with
      | |- context [load_ais_files pg py rd ?n ?i ?fl ?tot ?w3] =>
          pose proof (leaves_untouched_load_ais_files false marine_protected_areas
                        pg py rd n fl ltac:(discriminate) Hbelow i tot w3
                        ltac:(discriminate)) as (_ & _ & log & Hlog & _);
          destruct (load_ais_files pg py rd n i fl tot w3) as [[total|e|] [m4 d4 t4]]
      end;
        cbn [snd trace] in *; subst t4; run_monad; cbn [snd trace];
        rewrite <- !app_assoc; eexists _, _; (split; [reflexivity|reflexivity]).
Qed.

Lemma load_all_data_all_loaded (pg : postgres) (py : python) (rd : reader) (w : world) :
  (forall t, 0 < row_count t w) -> fst (load_all_data pg py rd w) = Ok tt.
Proof.
  intros Hall.
  pose proof (Hall marine_protected_areas) as H1.
  pose proof (Hall cetacean_sightings) as H2.
  pose proof (Hall ais_positions) as H3.
  destruct w as [m [mp ce ai st] tr]. unfold row_count in H1, H2, H3.
  cbn [db rows_of mpa_rows cetacean_rows ais_rows] in H1, H2, H3.
  destruct mp as [|r1 mp]; [simpl in H1; lia|].
  destruct ce as [|r2 ce]; [simpl in H2; lia|].
  destruct ai as [|r3 ai]; [simpl in H3; lia|].
  reflexivity.
Qed.

(** C4: a relation whose row count is greater than zero is passed over by
    [load_all_data]: none of the events of its loader (file accesses,
    statements, log messages) occurs, and its rows are the same afterwards,
    whatever happens to the other relations.  When all three relations have
    rows the run completes and no relation is altered. *)
Theorem load_all_data_passes_over_loaded_relations
    (pg : postgres) (py : python) (rd : reader) (t : table) (w : world) :
  0 < row_count t w ->
  exists r w' log,
    load_all_data pg py rd w = (r, w')
    /\ trace w' = trace w ++ log
    /\ Forall (fun e => loader_footprint t e = false) log
    /\ rows_of t (db w') = rows_of t (db w)
    /\ ((forall t', 0 < row_count t' w) ->
        r = Ok tt
        /\ (forall t', rows_of t' (db w') = rows_of t' (db w))
        /\ (forall t', Forall (fun e => loader_footprint t' e = false) log)).
Proof.
  intros Ht.
  pose proof (leaves_untouched_load_all_data true t pg py rd eq_refl w (fun _ => Ht)) as Hun.
  pose proof (load_all_data_all_loaded pg py rd w) as Hok.
  pose proof (fun t' H =>
                leaves_untouched_load_all_data true t' pg py rd eq_refl w (fun _ => H))
    as Hall.
  destruct (load_all_data pg py rd w) as [r w']. cbn [fst snd] in *.
  destruct Hun as (Hrows & _ & log & Htrace & Hlog).
  exists r, w', log. repeat split; try assumption.
  - now apply Hok.
  - intros t'. now destruct (Hall t' (H t')) as (Hr & _).
  - intros t'. destruct (Hall t' (H t')) as (_ & _ & log' & Htrace' & Hlog').
    rewrite Htrace in Htrace'. apply app_inv_head in Htrace'. now subst log'.
Qed.

Lemma load_all_data_passes_over_loaded_relations_witness :
  0 < row_count marine_protected_areas partly_loaded
  /\ exists r w' log,
       load_all_data lenient plain row_per_byte partly_loaded = (r, w')
       /\ trace w' = trace partly_loaded ++ log
       /\ Forall (fun e => loader_footprint marine_protected_areas e = false) log
       /\ rows_of marine_protected_areas (db w')
          = rows_of marine_protected_areas (db partly_loaded)
       /\ ((forall t', 0 < row_count t' partly_loaded) ->
           r = Ok tt
           /\ (forall t', rows_of t' (db w') = rows_of t' (db partly_loaded))
           /\ (forall t', Forall (fun e => loader_footprint t' e = false) log)).
Proof.
  assert (H : 0 < row_count marine_protected_areas partly_loaded) by reflexivity.
  split; [exact H|].
  exact (load_all_data_passes_over_loaded_relations
           lenient plain row_per_byte marine_protected_areas partly_loaded H).
Defined.

(** With rows in all three relations a run is three counts, three skips
    and the final counts: no loader runs, not even against a database that
    would reject every COPY and a reader that can read no file. *)
Example run_on_a_loaded_database_changes_nothing :
  load_all_data strict plain unreadable fully_loaded
  = (Ok tt,
     mkWorld (fs fully_loaded) (db fully_loaded)
       [Info Connecting; Connect;
        Execute (SelectCount marine_protected_areas);
        Info (AlreadyHasRows marine_protected_areas 1);
        Execute (SelectCount cetacean_sightings);
        Info (AlreadyHasRows cetacean_sightings 1);
        Execute (SelectCount ais_positions);
        Info (AlreadyHasRows ais_positions 1);
        Info FinalRowCounts;
        Execute (SelectCount ais_positions); Info (RowCount ais_positions 1);
        Execute (SelectCount cetacean_sightings); Info (RowCount cetacean_sightings 1);
        Execute (SelectCount marine_protected_areas);
        Info (RowCount marine_protected_areas 1);
        Close; Info ConnectionClosed]).
Proof. vm_compute. reflexivity. Qed.

End orchestrator_claims.

(** * Further properties of the three modules *)

(** ** [download_ais.py] *)

Section more_fetch_facts.

Import datetime pathlib httpx host download_ais.

Local Arguments String.append : simpl never.
Local Arguments joinpath : simpl never.
Local Arguments filename_of : simpl never.

(** X2: An interval whose end lies before its start has no dates: the loop
    body never runs, and nothing is raised whatever the two dates are. *)
Theorem generate_dates_of_empty_interval (start end_ : date) :
  end_ < start -> generate_dates start end_ = Ok [].
Proof.
  intros Hlt. unfold generate_dates, generate_dates_budget. cbn [generate_dates_loop].
  destruct (Z.leb_spec start end_); [lia|reflexivity].
Qed.

Lemma generate_dates_of_empty_interval_witness :
  END_DATE < END_DATE + 1 /\ generate_dates (END_DATE + 1) END_DATE = Ok [].
Proof.
  assert (H : END_DATE < END_DATE + 1) by (unfold END_DATE; lia).
  split; [exact H|]. exact (generate_dates_of_empty_interval (END_DATE + 1) END_DATE H).
Defined.

(** X4: Whatever the service does, [download_file] neither removes nor rewrites
    a file that is on disk, the unit's own destination included. *)
Theorem download_file_keeps_every_existing_file
    (srv : server) (file_date : date) (output_dir : Path) (w : world message)
    (p : Path) (c : bytes) :
  fs w !! p = Some c ->
  fs (snd (download_file srv file_date output_dir w)) !! p = Some c.
Proof.
  intros Hp.
  destruct (download_file_outcome srv file_date output_dir w) as (w' & Hrun & Hfs & _).
  rewrite Hrun. cbn [snd]. rewrite Hfs.
  destruct (fetch_outcome_of srv file_date output_dir w) eqn:Ho; try exact Hp.
  destruct (delivered_body _); [|exact Hp].
  unfold fetch_outcome_of in Ho.
  destruct (exists_ (fs w) (output_dir // filename_of file_date)) eqn:E; [discriminate|].
  apply exists_false_inv in E.
  rewrite lookup_insert_ne; [exact Hp|]. intros <-. congruence.
Qed.

Lemma download_file_keeps_every_existing_file_witness :
  let w := mkWorld {[ OUTPUT_DIR // filename_of END_DATE := [Byte.x50] ]} [] in
  fs (snd (download_file flaky START_DATE OUTPUT_DIR w)) !! (OUTPUT_DIR // filename_of END_DATE)
  = Some [Byte.x50].
Proof.
  intros w.
  apply (download_file_keeps_every_existing_file flaky START_DATE OUTPUT_DIR w).
  reflexivity.
Defined.

(** X5: A call sends one request, to the URL of its unit, unless the unit is
    skipped, in which case it sends none. *)
Theorem download_file_requests_its_url_at_most_once
    (srv : server) (file_date : date) (output_dir : Path) (w : world message) :
  requests (trace (snd (download_file srv file_date output_dir w)))
  = requests (trace w)
    ++ match fetch_outcome_of srv file_date output_dir w with
       | Skipped => []
       | Downloaded | Failed => [BASE_URL +:+ "/" +:+ filename_of file_date]
       end.
Proof.
  destruct (download_file_outcome srv file_date output_dir w)
    as (w' & Hrun & _ & log & Htrace & Hlog).
  rewrite Hrun. cbn [snd]. rewrite Htrace, requests_app, Hlog.
  destruct (fetch_outcome_of srv file_date output_dir w); reflexivity.
Qed.

Lemma fetch_step_keeps_files (srv : server) (file_date : date) (files : nat) (i : Z)
    (c : counts) (w : world message) (p : Path) :
  is_Some (fs w !! p) ->
  is_Some (fs (snd (fetch_step srv files i file_date c w)) !! p).
Proof.
  intros Hp.
  destruct (fetch_step_run srv file_date files i c w) as (fs' & log & Hstep & _ & Hfs).
  rewrite Hstep. cbn [snd fs]. rewrite Hfs.
  destruct (fetch_outcome_of _ _ _ _); try exact Hp.
  destruct (delivered_body _); [|exact Hp].
  destruct (decide (OUTPUT_DIR // filename_of file_date = p)) as [<-|Hne].
  - rewrite lookup_insert_eq. eauto.
  - now rewrite lookup_insert_ne.
Qed.

Lemma fetch_step_delivered_is_on_disk (srv : server) (file_date : date) (files : nat)
    (i : Z) (c : counts) (w : world message) :
  delivers (srv (BASE_URL +:+ "/" +:+ filename_of file_date)) ->
  is_Some (fs (snd (fetch_step srv files i file_date c w))
             !! (OUTPUT_DIR // filename_of file_date)).
Proof.
  intros Hd.
  destruct (fetch_step_run srv file_date files i c w) as (fs' & log & Hstep & _ & Hfs).
  rewrite Hstep. cbn [snd fs]. rewrite Hfs.
  apply delivered_body_Some in Hd as [body Hbody]. rewrite Hbody.
  destruct (fetch_outcome_of srv file_date OUTPUT_DIR w) eqn:Ho.
  - rewrite lookup_insert_eq. eauto.
  - now apply fetch_outcome_Skipped in Ho.
  - apply fetch_outcome_Failed in Ho as [_ Hfail].
    apply delivered_body_None in Hfail. congruence.
Qed.

Lemma fetch_step_total (srv : server) (file_date : date) (files : nat) (i : Z)
    (c : counts) (w : world message) :
  fetch_step srv files i file_date c w
  = (Ok (count_outcome (fetch_outcome_of srv file_date OUTPUT_DIR w) c),
     snd (fetch_step srv files i file_date c w)).
Proof.
  destruct (fetch_step_run srv file_date files i c w) as (fs' & log & Hstep & _).
  now rewrite Hstep.
Qed.

Lemma fetch_loop_keeps_files (srv : server) (files : nat) (dates : list date) :
  forall (i : Z) (c : counts) (w : world message) (p : Path),
    is_Some (fs w !! p) ->
    is_Some (fs (snd (fetch_loop srv files i dates c w)) !! p).
Proof.
  induction dates as [|d rest IH]; intros i c w p Hp; [exact Hp|].
  cbn [fetch_loop]. rewrite run_bind, fetch_step_total.
  apply IH. now apply fetch_step_keeps_files.
Qed.

(** The unit is on disk: the turn of the loop counts it as skipped and does
    nothing else. *)
Lemma fetch_step_skipped (srv : server) (file_date : date) (files : nat) (i : Z)
    (c : counts) (w : world message) :
  is_Some (fs w !! (OUTPUT_DIR // filename_of file_date)) ->
  fetch_step srv files i file_date c w
  = (Ok (mkCounts (downloaded c) (skipped c + 1) (failed c)),
     mkWorld (fs w)
       (trace w ++ [Info (Progress i files); Info (Skipping (filename_of file_date))])).
Proof.
  intros [content Hc]. destruct w as [m t]. cbn [fs trace] in *.
  unfold fetch_step, path_exists. run_monad.
  rewrite (download_file_present srv file_date OUTPUT_DIR _ content) by exact Hc.
  cbn [fs trace]. rewrite (exists_Some _ _ _ Hc), <- app_assoc. reflexivity.
Qed.

Lemma fetch_loop_tally
    (srv : server) (files : nat) (dates : list date) (i : Z) (c : counts)
    (w : world message) :
  exists c' w',
    fetch_loop srv files i dates c w = (Ok c', w')
    /\ downloaded c <= downloaded c'
    /\ skipped c <= skipped c'
    /\ failed c <= failed c'
    /\ downloaded c' + skipped c' + failed c'
       = downloaded c + skipped c + failed c + Z.of_nat (length dates).
Proof.
  revert i c w. induction dates as [|d rest IH]; intros i c w.
  - exists c, w. split; [reflexivity|]. cbn [length]. lia.
  - cbn [fetch_loop]. rewrite run_bind, fetch_step_total.
    destruct (IH (i + 1) (count_outcome (fetch_outcome_of srv d OUTPUT_DIR w) c)
                (snd (fetch_step srv files i d c w)))
      as (c' & w' & Hloop & H1 & H2 & H3 & H4).
    exists c', w'. split; [exact Hloop|].
    destruct (fetch_outcome_of srv d OUTPUT_DIR w);
      cbn [count_outcome downloaded skipped failed length] in *; lia.
Qed.

(** X6: The loop never stops early: every unit is counted once, in one of the
    three counters, whatever the service does. *)
Theorem fetch_loop_counts_every_unit
    (srv : server) (files : nat) (dates : list date) (i : Z) (c : counts)
    (w : world message) :
  exists c' w',
    fetch_loop srv files i dates c w = (Ok c', w')
    /\ downloaded c <= downloaded c'
    /\ skipped c <= skipped c'
    /\ failed c <= failed c'
    /\ downloaded c' + skipped c' + failed c'
       = downloaded c + skipped c + failed c + Z.of_nat (length dates).
Proof.
  apply fetch_loop_tally.
Qed.

(** With every unit on disk, a run is all skips: no request, no pause, no
    change to the files. *)
Lemma fetch_loop_all_on_disk (srv : server) (files : nat) (dates : list date) :
  forall (i : Z) (c : counts) (w : world message),
    (forall d, d ∈ dates -> is_Some (fs w !! (OUTPUT_DIR // filename_of d))) ->
    exists w',
      fetch_loop srv files i dates c w
      = (Ok (mkCounts (downloaded c) (skipped c + Z.of_nat (length dates)) (failed c)), w')
      /\ fs w' = fs w
      /\ requests (trace w') = requests (trace w)
      /\ pauses (trace w') = pauses (trace w).
Proof.
  induction dates as [|d rest IH]; intros i c w Hall.
  - exists w. cbn [fetch_loop length]. rewrite Z.add_0_r. destruct c.
    repeat split; reflexivity.
  - cbn [fetch_loop]. rewrite run_bind.
    rewrite fetch_step_skipped by (apply Hall; left).
    destruct (IH (i + 1) (mkCounts (downloaded c) (skipped c + 1) (failed c))
                (mkWorld (fs w)
                   (trace w ++ [Info (Progress i files); Info (Skipping (filename_of d))])))
      as (w' & Hloop & Hfs & Hreq & Hpause).
    { intros d' Hd'. cbn [fs]. apply Hall. now right. }
    exists w'. split.
    + rewrite Hloop. cbn [downloaded skipped failed length].
      do 3 f_equal. lia.
    + cbn [fs trace] in *. split; [exact Hfs|].
      unfold requests, pauses in *.
      rewrite omap_app in Hreq. rewrite omap_app in Hpause.
      cbn [omap list_omap] in Hreq, Hpause.
      rewrite app_nil_r in Hreq. rewrite app_nil_r in Hpause.
      split; assumption.
Qed.

Lemma fetch_loop_delivered_is_on_disk (srv : server) (files : nat) (dates : list date) :
  forall (i : Z) (c : counts) (w : world message),
    (forall d, d ∈ dates -> delivers (srv (BASE_URL +:+ "/" +:+ filename_of d))) ->
    forall d, d ∈ dates ->
      is_Some (fs (snd (fetch_loop srv files i dates c w)) !! (OUTPUT_DIR // filename_of d)).
Proof.
  induction dates as [|d0 rest IH]; intros i c w Hall d Hd.
  - inversion Hd.
  - cbn [fetch_loop]. rewrite run_bind, fetch_step_total.
    apply elem_of_cons in Hd as [->|Hd].
    + apply fetch_loop_keeps_files, fetch_step_delivered_is_on_disk. apply Hall. left.
    + apply IH; [|exact Hd]. intros d' Hd'. apply Hall. now right.
Qed.

(** X7: Resuming: after a run in which every unit was delivered, a second run
    over the same units skips them all, whatever the service does then: it
    sends no request, takes no pause and leaves the files as they are. *)
Theorem fetch_loop_rerun_skips_everything
    (srv srv' : server) (files files' : nat) (i i' : Z) (dates : list date)
    (c c' : counts) (w : world message) :
  (forall d, d ∈ dates -> delivers (srv (BASE_URL +:+ "/" +:+ filename_of d))) ->
  let w1 := snd (fetch_loop srv files i dates c w) in
  exists w2,
    fetch_loop srv' files' i' dates c' w1
    = (Ok (mkCounts (downloaded c') (skipped c' + Z.of_nat (length dates)) (failed c')), w2)
    /\ fs w2 = fs w1
    /\ requests (trace w2) = requests (trace w1)
    /\ pauses (trace w2) = pauses (trace w1).
Proof.
  intros Hall w1. apply fetch_loop_all_on_disk.
  intros d Hd. now apply fetch_loop_delivered_is_on_disk.
Qed.

Lemma fetch_loop_rerun_skips_everything_witness :
  let dates := [START_DATE; START_DATE + 1; START_DATE] in
  let w1 := snd (fetch_loop healthy 3 1 dates (mkCounts 0 0 0) empty_world) in
  exists w2,
    fetch_loop unreachable 3 1 dates (mkCounts 0 0 0) w1 = (Ok (mkCounts 0 3 0), w2)
    /\ fs w2 = fs w1
    /\ requests (trace w2) = requests (trace w1)
    /\ pauses (trace w2) = pauses (trace w1).
Proof.
  intros dates w1.
  apply (fetch_loop_rerun_skips_everything
           healthy unreachable 3 3 1 1 dates (mkCounts 0 0 0) (mkCounts 0 0 0) empty_world).
  intros d _. split; reflexivity.
Defined.

(** A unit whose exchange delivers: a turn of the loop for any unit leaves
    its destination absent or holding the delivered body, and the unit's own
    turn leaves it holding the body. *)
Lemma fetch_step_settles_unit (srv : server) (files : nat) (i : Z) (d' : date)
    (c : counts) (w : world message) (d : date) (body : bytes) :
  delivered_body (srv (BASE_URL +:+ "/" +:+ filename_of d)) = Some body ->
  let dest := OUTPUT_DIR // filename_of d in
  let w' := snd (fetch_step srv files i d' c w) in
  (fs w !! dest = None -> d' <> d -> fs w' !! dest = None \/ fs w' !! dest = Some body)
  /\ (fs w !! dest = None -> d' = d -> fs w' !! dest = Some body)
  /\ (fs w !! dest = Some body -> fs w' !! dest = Some body).
Proof.
  intros Hbody dest w'. subst w'.
  destruct (fetch_step_run srv d' files i c w) as (fs' & log & Hstep & _ & Hfs).
  rewrite Hstep. cbn [snd fs]. rewrite Hfs. clear Hstep Hfs.
  assert (Hsame : OUTPUT_DIR // filename_of d' = dest ->
                  delivered_body (srv (BASE_URL +:+ "/" +:+ filename_of d')) = Some body).
  { intros Heq. apply joinpath_inj in Heq. now rewrite Heq. }
  destruct (fetch_outcome_of srv d' OUTPUT_DIR w) eqn:Ho.
  - apply fetch_outcome_Downloaded in Ho as [Habsent Hd'].
    apply delivered_body_Some in Hd' as [body' Hbody']. rewrite Hbody'.
    destruct (decide (OUTPUT_DIR // filename_of d' = dest)) as [Heq|Hne].
    + rewrite (Hsame Heq) in Hbody'. injection Hbody' as <-.
      rewrite Heq, lookup_insert_eq. auto.
    + rewrite lookup_insert_ne by exact Hne.
      split; [auto|]. split; [|auto].
      intros _ ->. now contradiction Hne.
  - apply fetch_outcome_Skipped in Ho as [content Hcontent].
    split; [auto|]. split; [|auto].
    intros Habsent ->. subst dest. congruence.
  - apply fetch_outcome_Failed in Ho as [Habsent Hfail].
    split; [auto|]. split; [|auto].
    intros _ ->. apply delivered_body_None in Hfail. congruence.
Qed.

Lemma fetch_loop_settles_unit (srv : server) (files : nat) (dates : list date)
    (d : date) (body : bytes) :
  delivered_body (srv (BASE_URL +:+ "/" +:+ filename_of d)) = Some body ->
  forall (i : Z) (c : counts) (w : world message),
    fs w !! (OUTPUT_DIR // filename_of d) = Some body
    \/ (fs w !! (OUTPUT_DIR // filename_of d) = None /\ d ∈ dates) ->
    fs (snd (fetch_loop srv files i dates c w)) !! (OUTPUT_DIR // filename_of d) = Some body.
Proof.
  intros Hbody. induction dates as [|d0 rest IH]; intros i c w Hw.
  - destruct Hw as [Hw|[_ Hw]]; [exact Hw|inversion Hw].
  - cbn [fetch_loop]. rewrite run_bind, fetch_step_total.
    destruct (fetch_step_settles_unit srv files i d0 c w d body Hbody) as (H1 & H2 & H3).
    apply IH. destruct Hw as [Hw|[Hw Hd]].
    + left. now apply H3.
    + destruct (decide (d0 = d)) as [Heq|Hne].
      * left. now apply H2.
      * apply elem_of_cons in Hd as [Hd|Hd]; [congruence|].
        destruct (H1 Hw Hne) as [Hnone|Hsome]; [right|left]; auto.
Qed.




End more_fetch_facts.

(** ** [download_mpa.py] *)

Section more_normalizer_facts.

Import pathlib httpx host geopandas download_mpa.

Local Arguments String.append : simpl never.
Local Arguments joinpath : simpl never.

Local Abbreviation zip_of dir := (dir // "mpa_inventory.zip").

(** X9: A failed fetch of the archive propagates its exception and leaves no
    zip behind: both handlers delete what was written, and the file system
    is the one before the call. *)
Theorem download_mpa_zip_failure_leaves_no_partial_zip
    (srv : server) (output_path : Path) (w : world message) :
  fs w !! zip_of output_path = None ->
  transport_failure (srv MPA_URL) ->
  exists e w',
    download_mpa_zip srv output_path w = (Raise e, w')
    /\ (e = RequestError
        \/ exists status_code, e = HTTPStatusError status_code
                               /\ is_success status_code = false)
    /\ fs w' = fs w
    /\ requests (trace w') = requests (trace w) ++ [MPA_URL].
Proof.
  intros Hzip Hfail. rewrite (download_mpa_zip_absent srv output_path w Hzip).
  destruct (srv MPA_URL) as [|status_code chunks fin]; simpl in Hfail.
  - eexists _, _. split; [reflexivity|]. split; [now left|]. split; [reflexivity|].
    cbn [trace]. now rewrite requests_app.
  - destruct (is_success status_code) eqn:Hok.
    + destruct Hfail as [Hfail | ->]; [discriminate|].
      eexists _, _. split; [reflexivity|]. split; [now left|]. split; [reflexivity|].
      cbn [trace]. now rewrite requests_app.
    + eexists _, _. split; [reflexivity|]. split; [right; eauto|]. split; [reflexivity|].
      cbn [trace]. now rewrite requests_app.
Qed.

Lemma download_mpa_zip_failure_leaves_no_partial_zip_witness :
  exists e w',
    download_mpa_zip flaky OUTPUT_DIR empty_world = (Raise e, w')
    /\ (e = RequestError
        \/ exists status_code, e = HTTPStatusError status_code
                               /\ is_success status_code = false)
    /\ fs w' = fs (@empty_world message)
    /\ requests (trace w') = requests (trace (@empty_world message)) ++ [MPA_URL].
Proof.
  apply (download_mpa_zip_failure_leaves_no_partial_zip flaky OUTPUT_DIR empty_world).
  - reflexivity.
  - right. reflexivity.
Defined.



(** X11: The gate of the normalizer: with the snapshot on disk nothing is
    fetched, extracted or written, only the skip is logged. *)
Theorem download_mpa_data_skips_when_snapshot_exists
    (srv : server) (lib : library) (w : world message) (snapshot : bytes) :
  fs w !! OUTPUT_FILE = Some snapshot ->
  download_mpa_data srv lib w
  = (Ok tt, mkWorld (fs w) (trace w ++ [Info (ParquetExists OUTPUT_FILE)])).
Proof.
  intros Hout. destruct w as [m t]. cbn [fs trace] in *.
  unfold download_mpa_data, path_exists. run_monad.
  rewrite (exists_Some _ _ _ Hout). reflexivity.
Qed.

Lemma download_mpa_data_skips_when_snapshot_exists_witness :
  let w := mkWorld {[ OUTPUT_FILE := [Byte.x2a] ]} [] in
  download_mpa_data healthy toy_library w
  = (Ok tt, mkWorld (fs w) (trace w ++ [Info (ParquetExists OUTPUT_FILE)])).
Proof.
  intros w.
  apply (download_mpa_data_skips_when_snapshot_exists healthy toy_library w [Byte.x2a]).
  reflexivity.
Defined.

Lemma failed_archive_fetch_changes_no_file
    (srv : server) (w : world message) :
  fs w !! zip_of OUTPUT_DIR = None ->
  transport_failure (srv MPA_URL) ->
  exists e w', download_mpa_zip srv OUTPUT_DIR w = (Raise e, w') /\ fs w' = fs w.
Proof.
  intros Hzip Hfail. rewrite (download_mpa_zip_absent srv OUTPUT_DIR w Hzip).
  destruct (srv MPA_URL) as [|status_code chunks fin]; simpl in Hfail.
  - eexists _, _. split; reflexivity.
  - destruct (is_success status_code).
    + destruct Hfail as [Hfail | ->]; [discriminate|]. eexists _, _. split; reflexivity.
    + eexists _, _. split; reflexivity.
Qed.

(** What the fetch step leaves on disk when the run has an archive at hand. *)
Lemma download_mpa_zip_with_archive_at_hand
    (srv : server) (w : world message) (archive : bytes) :
  archive_at_hand srv w = Some archive ->
  exists w1,
    download_mpa_zip srv OUTPUT_DIR w = (Ok (zip_of OUTPUT_DIR), w1)
    /\ fs w1 = <[zip_of OUTPUT_DIR := archive]> (fs w).
Proof.
  intros Hat. unfold archive_at_hand in Hat.
  destruct (fs w !! zip_of OUTPUT_DIR) as [c|] eqn:Hzip.
  - injection Hat as ->.
    rewrite (download_mpa_zip_present srv OUTPUT_DIR w archive Hzip).
    eexists. split; [reflexivity|]. cbn [fs]. symmetry. now apply insert_id.
  - rewrite (download_mpa_zip_absent srv OUTPUT_DIR w Hzip).
    destruct (srv MPA_URL) as [|status_code chunks fin]; [discriminate|].
    simpl in Hat. destruct fin; [|discriminate].
    destruct (is_success status_code); [|discriminate].
    injection Hat as <-. eexists. split; reflexivity.
Qed.

(** With no archive at hand, the fetch raises and changes no file. *)
Lemma download_mpa_zip_without_archive_at_hand (srv : server) (w : world message) :
  archive_at_hand srv w = None ->
  exists e w1,
    download_mpa_zip srv OUTPUT_DIR w = (Raise e, w1) /\ fs w1 = fs w.
Proof.
  intros Hat. unfold archive_at_hand in Hat.
  destruct (fs w !! zip_of OUTPUT_DIR) as [c|] eqn:Hzip; [discriminate|].
  apply delivered_body_None in Hat.
  destruct (failed_archive_fetch_changes_no_file srv w Hzip Hat)
    as (e & w1 & Hrun & Hfs).
  eauto.
Qed.



(** X13: On every path that does not complete (the fetch fails, the zip is no
    archive, it holds no dataset, the dataset cannot be read), there is no
    snapshot afterwards. *)
Theorem download_mpa_data_failure_leaves_no_snapshot
    (srv : server) (lib : library) (w w' : world message) (r : result unit) :
  fs w !! OUTPUT_FILE = None ->
  download_mpa_data srv lib w = (r, w') ->
  r <> Ok tt ->
  fs w' !! OUTPUT_FILE = None.
Proof.
  intros Hout Hrun Hr.
  destruct (archive_at_hand srv w) as [archive|] eqn:Hat.
  - destruct (download_mpa_zip_with_archive_at_hand srv w archive Hat)
      as (w1 & Hfetch & Hfs1).
    destruct (download_mpa_data_after_fetch srv lib w w1 archive Hout Hfetch)
      as (r0 & w0 & Hrun0 & _ & Hfs0 & _).
    { rewrite Hfs1. apply lookup_insert_eq. }
    rewrite Hrun in Hrun0. injection Hrun0 as <- <-.
    rewrite (Hfs0 Hr), Hfs1.
    rewrite lookup_insert_ne by apply zip_is_not_snapshot. exact Hout.
  - destruct (download_mpa_zip_without_archive_at_hand srv w Hat) as (e & w1 & Hfetch & Hfs1).
    destruct w as [m t], w1 as [m1 t1]. cbn [fs] in *. subst m1.
    unfold download_mpa_data, path_exists in Hrun. revert Hrun. run_monad.
    rewrite (exists_None _ _ Hout), Hfetch. intros [= <- <-]. exact Hout.
Qed.

Lemma download_mpa_data_failure_leaves_no_snapshot_witness :
  fs (snd (download_mpa_data unreachable toy_library empty_world)) !! OUTPUT_FILE = None.
Proof.
  apply (download_mpa_data_failure_leaves_no_snapshot
           unreachable toy_library empty_world _
           (fst (download_mpa_data unreachable toy_library empty_world))).
  - reflexivity.
  - apply surjective_pairing.
  - vm_compute. discriminate.
Defined.

(** X14: A zip on disk that is no archive is never replaced: the run ends with
    [BadZipFile] and leaves the files as they are, so that every later run,
    against any service, ends the same way. *)
Theorem unreadable_zip_blocks_every_rerun
    (srv srv' : server) (lib : library) (w : world message) (content : bytes) :
  fs w !! OUTPUT_FILE = None ->
  fs w !! zip_of OUTPUT_DIR = Some content ->
  unzip lib content = None ->
  exists w',
    download_mpa_data srv lib w = (Raise BadZipFile, w')
    /\ fs w' = fs w
    /\ fst (download_mpa_data srv' lib w') = Raise BadZipFile.
Proof.
  intros Hout Hzip Hbad.
  pose proof (download_mpa_zip_present srv OUTPUT_DIR w content Hzip) as Hfetch.
  destruct (download_mpa_data_after_fetch srv lib w _ content Hout Hfetch Hzip)
    as (r & w' & Hrun & _ & Hfs & Hr & _).
  specialize (Hr Hbad). subst r. specialize (Hfs ltac:(discriminate)). cbn [fs] in Hfs.
  exists w'. split; [exact Hrun|]. split; [exact Hfs|].
  assert (Hout' : fs w' !! OUTPUT_FILE = None) by (now rewrite Hfs).
  assert (Hzip' : fs w' !! zip_of OUTPUT_DIR = Some content) by (now rewrite Hfs).
  pose proof (download_mpa_zip_present srv' OUTPUT_DIR w' content Hzip') as Hfetch'.
  destruct (download_mpa_data_after_fetch srv' lib w' _ content Hout' Hfetch' Hzip')
    as (r2 & w2 & Hrun2 & _ & _ & Hr2 & _).
  rewrite Hrun2. cbn [fst]. now apply Hr2.
Qed.

Lemma unreadable_zip_blocks_every_rerun_witness :
  let w := mkWorld {[ zip_of OUTPUT_DIR := [] ]} [] in
  exists w',
    download_mpa_data healthy toy_library w = (Raise BadZipFile, w')
    /\ fs w' = fs w
    /\ fst (download_mpa_data healthy toy_library w') = Raise BadZipFile.
Proof.
  intros w.
  apply (unreadable_zip_blocks_every_rerun healthy healthy toy_library w []); reflexivity.
Defined.

Lemma canonical_needs_no_reprojection (lib : library) (gdf : GeoDataFrame) :
  needs_reprojection (canonical lib gdf) = false.
Proof.
  unfold canonical. destruct (needs_reprojection gdf) eqn:E; [|exact E].
  unfold to_crs_4326. destruct (crs gdf) as [src|] eqn:Hcrs; [reflexivity|].
  unfold needs_reprojection in E. rewrite Hcrs in E. discriminate.
Qed.

Lemma filter_filter {A} (keep : A -> bool) (l : list A) :
  List.filter keep (List.filter keep l) = List.filter keep l.
Proof.
  induction l as [|a l IH]; [reflexivity|]. simpl.
  destruct (keep a) eqn:E; simpl; rewrite ?E, IH; reflexivity.
Qed.

(** X15: Filtering is idempotent: the frame handed back is in EPSG:4326 or has no
    reference system, so a second pass reprojects nothing and keeps every
    row of the first. *)
Theorem filter_us_coast_twice_is_once
    (lib : library) (gdf : GeoDataFrame) (w w2 : world message) :
  exists kept,
    fst (filter_us_coast lib gdf w) = Ok kept
    /\ needs_reprojection kept = false
    /\ fst (filter_us_coast lib kept w2) = Ok kept.
Proof.
  destruct (filter_us_coast_run lib gdf w) as (w' & Hrun & _).
  rewrite Hrun. eexists. split; [reflexivity|].
  fold (us_coast_part lib gdf).
  assert (Hneeds : needs_reprojection (us_coast_part lib gdf) = false).
  { pose proof (canonical_needs_no_reprojection lib gdf) as H.
    unfold needs_reprojection in *. exact H. }
  split; [exact Hneeds|].
  destruct (filter_us_coast_run lib (us_coast_part lib gdf) w2) as (w3 & Hrun2 & _).
  rewrite Hrun2. cbn [fst].
  unfold canonical. rewrite Hneeds. unfold us_coast_part at 1 2. cbn [crs rows].
  rewrite filter_filter. reflexivity.
Qed.

Lemma SFcompare_refl (x : SpecFloat.spec_float) :
  x <> SpecFloat.S754_nan -> SpecFloat.SFcompare x x = Some Eq.
Proof.
  destruct x as [s|s| |s m e]; simpl; intros H; try congruence.
  - destruct s; reflexivity.
  - rewrite Z.compare_refl.
    change (PosDef.Pos.compare_cont Eq m m) with (Pos.compare_cont Eq m m).
    rewrite Pcompare_refl. destruct s; reflexivity.
Qed.

Lemma is_nan_spec (x : float) :
  PrimFloat.is_nan x = true -> Prim2SF x = SpecFloat.S754_nan.
Proof.
  unfold PrimFloat.is_nan. rewrite FloatAxioms.eqb_spec. unfold SpecFloat.SFeqb.
  destruct (Prim2SF x) eqn:E; try reflexivity;
    rewrite SFcompare_refl by discriminate; discriminate.
Qed.

Lemma leb_nan_l (x y : float) : PrimFloat.is_nan x = true -> PrimFloat.leb x y = false.
Proof.
  intros H. rewrite FloatAxioms.leb_spec, (is_nan_spec x H). reflexivity.
Qed.

Lemma leb_nan_r (x y : float) : PrimFloat.is_nan y = true -> PrimFloat.leb x y = false.
Proof.
  intros H. rewrite FloatAxioms.leb_spec, (is_nan_spec y H).
  unfold SpecFloat.SFleb. destruct (Prim2SF x); reflexivity.
Qed.

(** X16: A feature with a bound that is not a number, as geopandas reports for
    an empty or missing geometry, is never kept: each comparison of the
    mask with NaN is false. *)
Theorem filter_us_coast_drops_nan_bounds
    (lib : library) (gdf : GeoDataFrame) (w : world message) (f : feature) :
  has_nan_bound f ->
  exists kept,
    fst (filter_us_coast lib gdf w) = Ok kept /\ f ∉ rows kept.
Proof.
  intros Hnan.
  destruct (filter_us_coast_run lib gdf w) as (w' & Hrun & _).
  rewrite Hrun. eexists. split; [reflexivity|]. cbn [rows].
  rewrite list_elem_of_In, filter_In. intros [_ Hin].
  unfold in_bbox, US_COAST_BBOX in Hin. rewrite !andb_true_iff in Hin.
  destruct Hin as [[[H1 H2] H3] H4].
  destruct Hnan as [H|[H|[H|H]]].
  - now rewrite (leb_nan_r _ _ H) in H1.
  - now rewrite (leb_nan_r _ _ H) in H3.
  - now rewrite (leb_nan_l _ _ H) in H2.
  - now rewrite (leb_nan_l _ _ H) in H4.
Qed.

Lemma filter_us_coast_drops_nan_bounds_witness :
  let f := mkFeature "empty" PrimFloat.nan PrimFloat.nan PrimFloat.nan PrimFloat.nan in
  exists kept,
    fst (filter_us_coast toy_library (mkGeoDataFrame None [f; feature_inside "a"]) empty_world)
    = Ok kept
    /\ f ∉ rows kept.
Proof.
  intros f.
  apply (filter_us_coast_drops_nan_bounds toy_library _ empty_world f).
  left. reflexivity.
Defined.

End more_normalizer_facts.

(** ** [load_data.py]: a run only adds rows *)

Section only_grows_facts.

Import pathlib httpx geopandas load_data.

Local Arguments String.append : simpl never.

Lemma grown_refl (w : world) : grown w w.
Proof. split; [reflexivity|]. split; [reflexivity|]. intros t. reflexivity. Qed.

Lemma grown_trans (w1 w2 w3 : world) : grown w1 w2 -> grown w2 w3 -> grown w1 w3.
Proof.
  intros (Hf1 & Ht1 & Hr1) (Hf2 & Ht2 & Hr2). split; [congruence|].
  split; [etransitivity; eassumption|].
  intros t. etransitivity; [apply Hr1|apply Hr2].
Qed.

Lemma grown_step (m : gmap string bytes) (d d' : database) (tr tr' : list event) :
  tr `prefix_of` tr' ->
  (forall t, rows_of t d `prefix_of` rows_of t d') ->
  grown (mkWorld m d tr) (mkWorld m d' tr').
Proof. intros Ht H. split; [reflexivity|]. split; [exact Ht|exact H]. Qed.

Lemma prefix_insert_into (t t' : table) (new : list row) (d : database) :
  rows_of t d `prefix_of` rows_of t (insert_into t' new d).
Proof.
  destruct (decide (t = t')) as [->|Hne].
  - rewrite rows_of_insert_into_same. now apply prefix_app_r.
  - now rewrite rows_of_insert_into_other.
Qed.

Lemma only_grows_ret {A} (a : A) : only_grows (mret a : M world A).
Proof. intros w. apply grown_refl. Qed.

Lemma only_grows_lift {A} (r : result A) : only_grows (lift r : M world A).
Proof. intros w. apply grown_refl. Qed.

Lemma only_grows_bind {A B} (m : M world A) (k : A -> M world B) :
  only_grows m -> (forall a, only_grows (k a)) -> only_grows (m ≫= k).
Proof.
  intros Hm Hk w. rewrite run_bind. specialize (Hm w).
  destruct (m w) as [[a|e|] w1]; cbn [snd] in *; try exact Hm.
  eapply grown_trans; [exact Hm|apply Hk].
Qed.

Lemma only_grows_emit (e : event) : only_grows (emit e).
Proof.
  intros [m d tr]. apply grown_step; [now apply prefix_app_r|]. intros t. reflexivity.
Qed.

Lemma only_grows_for_each {A} (xs : list A) (body : A -> M world unit) :
  (forall x, only_grows (body x)) -> only_grows (for_each xs body).
Proof.
  intros Hbody. induction xs as [|x xs IH]; simpl.
  - apply (only_grows_ret tt).
  - apply (only_grows_bind (body x) (fun _ => for_each xs body)); auto.
Qed.

Lemma only_grows_try_finally {A} (m : M world A) (f : M world unit) :
  only_grows m -> only_grows f -> only_grows (try_finally m f).
Proof.
  intros Hm Hf w. unfold try_finally. specialize (Hm w).
  destruct (m w) as [r w1]. cbn [snd] in Hm. specialize (Hf w1).
  destruct (f w1) as [[[]|e|] w2]; cbn [snd] in *; eapply grown_trans; eassumption.
Qed.

(** Runs a loop-free computation on a world in all its cases. *)
Ltac grows_by_cases :=
  intros [? ? ?]; run_monad;
  repeat match goal with
         | |- context [exists_ ?a ?b] => destruct (exists_ a b); cbn [negb]; run_monad
         | |- context [?a !! ?b] => destruct (a !! b); run_monad
         | |- context [ais_staging ?a] => destruct (ais_staging a); run_monad
         | |- context [match ?r ?c with Some _ => _ | None => _ end] =>
             destruct (r c); run_monad
         | |- context [if ?c then _ else _] => destruct c; run_monad
         end;
  cbn [snd];
  (apply grown_step;
   [ repeat apply prefix_app_r; reflexivity
   | intros ?;
     repeat first [ reflexivity
                  | rewrite rows_of_set_staging
                  | etransitivity; [|apply prefix_insert_into] ] ]).

Lemma only_grows_path_exists (p : Path) : only_grows (path_exists p).
Proof. unfold path_exists. grows_by_cases. Qed.

Lemma only_grows_read_parquet (rd : reader) (p : Path) : only_grows (read_parquet rd p).
Proof. unfold read_parquet. grows_by_cases. Qed.

Lemma only_grows_select_count (t : table) : only_grows (select_count t).
Proof. unfold select_count. grows_by_cases. Qed.

Lemma only_grows_execute_values (pg : postgres) (t : table) (records : list row) :
  only_grows (execute_values pg t records).
Proof.
  unfold execute_values. apply only_grows_for_each. intros page.
  unfold execute_insert. grows_by_cases.
Qed.

Lemma only_grows_create_staging : only_grows create_staging.
Proof. unfold create_staging. grows_by_cases. Qed.

Lemma only_grows_copy_staging (pg : postgres) (buffer : string) :
  only_grows (copy_staging pg buffer).
Proof. unfold copy_staging. grows_by_cases. Qed.

Lemma only_grows_insert_from_staging (pg : postgres) : only_grows (insert_from_staging pg).
Proof. unfold insert_from_staging. grows_by_cases. Qed.

Lemma only_grows_drop_staging : only_grows drop_staging.
Proof. unfold drop_staging. grows_by_cases. Qed.

Lemma only_grows_sorted_glob (dir : Path) (suffix : string) :
  only_grows (sorted_glob dir suffix).
Proof. unfold sorted_glob. grows_by_cases. Qed.

(** Applies the rule that fits the head of the computation. *)
Ltac grows :=
  repeat first
    [ apply only_grows_ret
    | apply only_grows_lift
    | apply only_grows_emit
    | apply only_grows_path_exists
    | apply only_grows_read_parquet
    | apply only_grows_select_count
    | apply only_grows_execute_values
    | apply only_grows_create_staging
    | apply only_grows_copy_staging
    | apply only_grows_insert_from_staging
    | apply only_grows_drop_staging
    | apply only_grows_sorted_glob
    | progress cbv zeta
    | apply only_grows_bind; [|intros ?] ].

Lemma only_grows_load_mpa_data (pg : postgres) (py : python) (rd : reader) :
  only_grows (load_mpa_data pg py rd).
Proof.
  unfold load_mpa_data. apply only_grows_bind; [apply only_grows_path_exists|].
  intros present. destruct present; cbn [negb]; grows.
Qed.

Lemma only_grows_load_cetacean_data (pg : postgres) (py : python) (rd : reader) :
  only_grows (load_cetacean_data pg py rd).
Proof.
  unfold load_cetacean_data. apply only_grows_bind; [apply only_grows_path_exists|].
  intros present. destruct present; cbn [negb]; grows.
Qed.

Lemma only_grows_load_ais_file (pg : postgres) (py : python) (rd : reader) (files : nat)
    (file_idx : Z) (filepath : Path) (total_loaded : Z) :
  only_grows (load_ais_file pg py rd files file_idx filepath total_loaded).
Proof. unfold load_ais_file. grows. Qed.

Lemma only_grows_load_ais_files (pg : postgres) (py : python) (rd : reader) (files : nat)
    (parquet_files : list Path) :
  forall file_idx total_loaded,
    only_grows (load_ais_files pg py rd files file_idx parquet_files total_loaded).
Proof.
  induction parquet_files as [|p rest IH]; intros file_idx total_loaded; simpl.
  - apply only_grows_ret.
  - apply only_grows_bind; [apply only_grows_load_ais_file|]. intros total. apply IH.
Qed.

Lemma only_grows_load_ais_data (pg : postgres) (py : python) (rd : reader) :
  only_grows (load_ais_data pg py rd).
Proof.
  unfold load_ais_data. apply only_grows_bind; [apply only_grows_sorted_glob|].
  intros files. destruct files as [|p rest].
  - grows.
  - apply only_grows_bind; [apply only_grows_emit|]. intros _.
    apply only_grows_bind; [apply only_grows_load_ais_files|]. intros total. grows.
Qed.

Lemma only_grows_load_table (pg : postgres) (py : python) (rd : reader) (t : table) :
  only_grows (load_table pg py rd t).
Proof.
  unfold load_table. apply only_grows_bind; [apply only_grows_select_count|].
  intros count. destruct (0 <? count); [apply only_grows_emit|].
  destruct t; (apply only_grows_bind; [|intros ?; apply only_grows_ret]).
  - apply only_grows_load_mpa_data.
  - apply only_grows_load_cetacean_data.
  - apply only_grows_load_ais_data.
Qed.

Lemma only_grows_load_all_data_try (pg : postgres) (py : python) (rd : reader) :
  only_grows (load_all_data_try pg py rd).
Proof.
  unfold load_all_data_try.
  apply only_grows_bind.
  { apply only_grows_for_each. intros t. apply only_grows_load_table. }
  intros _. apply only_grows_bind; [apply only_grows_emit|]. intros _.
  apply only_grows_for_each. intros t. unfold report_count.
  apply only_grows_bind; [apply only_grows_select_count|].
  intros count. apply only_grows_emit.
Qed.

Lemma only_grows_close : only_grows close.
Proof. unfold close. grows_by_cases. Qed.

Lemma only_grows_load_all_data (pg : postgres) (py : python) (rd : reader) :
  only_grows (load_all_data pg py rd).
Proof.
  unfold load_all_data.
  apply only_grows_bind; [apply only_grows_emit|]. intros _.
  apply only_grows_bind; [unfold connect; grows_by_cases|]. intros _.
  apply only_grows_try_finally; [|apply only_grows_close].
  apply (only_grows_load_all_data_try pg py rd).
Qed.

(** X23: A run never writes or deletes a file, only appends to the log, and
    never removes or reorders a row: every relation keeps the rows it had as
    a prefix of the rows it has afterwards, so no row count goes down, also
    when the run ends in an error, whatever the database accepts. *)
Theorem load_all_data_only_adds_rows
    (pg : postgres) (py : python) (rd : reader) (w : world) (t : table) :
  let w' := snd (load_all_data pg py rd w) in
  fs w' = fs w
  /\ trace w `prefix_of` trace w'
  /\ rows_of t (db w) `prefix_of` rows_of t (db w')
  /\ row_count t w <= row_count t w'.
Proof.
  intros w'. destruct (only_grows_load_all_data pg py rd w) as (Hfs & Htrace & Hrows).
  fold w' in Hfs, Htrace, Hrows.
  split; [exact Hfs|]. split; [exact Htrace|]. split; [apply Hrows|].
  destruct (Hrows t) as [new Hnew]. unfold row_count. rewrite Hnew, length_app. lia.
Qed.

End only_grows_facts.

(** ** [load_data.py]: the loaders *)

Section more_loader_facts.

Import pathlib httpx geopandas load_data.

Local Arguments String.append : simpl never.
Local Arguments name : simpl never.

Variable pg : postgres.
Variable py : python.
Variable rd : reader.

(** X17: The source file of a row-batch loader is missing: a warning, and
    nothing else; the call returns normally. *)
Theorem row_batch_loaders_pass_over_a_missing_file (w : world) :
  (fs w !! MPA_FILE = None ->
   load_mpa_data pg py rd w
   = (Ok NoneValue,
      mkWorld (fs w) (db w) (trace w ++ [Stat MPA_FILE; Warning MpaFileNotFound])))
  /\ (fs w !! CETACEAN_FILE = None ->
      load_cetacean_data pg py rd w
      = (Ok NoneValue,
         mkWorld (fs w) (db w)
           (trace w ++ [Stat CETACEAN_FILE; Warning CetaceanFileNotFound]))).
Proof.
  destruct w as [m d tr]. cbn [fs db trace]. split; intros Hmissing.
  - unfold load_mpa_data, path_exists. run_monad.
    rewrite (exists_None _ _ Hmissing). cbn [negb]. now rewrite <- app_assoc.
  - unfold load_cetacean_data, path_exists. run_monad.
    rewrite (exists_None _ _ Hmissing). cbn [negb]. now rewrite <- app_assoc.
Qed.

(** The pages [execute_values] sends are the records, in order. *)
Lemma pages_of_concat {A} (budget : nat) (argslist : list A) :
  (length argslist <= budget)%nat -> concat (pages_of budget argslist) = argslist.
Proof.
  revert argslist. induction budget as [|budget IH]; intros argslist Hlen.
  - destruct argslist; [reflexivity|cbn [length] in Hlen; lia].
  - cbn [pages_of]. destruct argslist as [|a rest]; [reflexivity|].
    cbn [concat]. rewrite IH.
    + apply take_drop.
    + rewrite length_drop. unfold page_size. cbn [length] in *. lia.
Qed.

Lemma paginate_concat {A} (argslist : list A) : concat (paginate argslist) = argslist.
Proof. unfold paginate. now apply pages_of_concat. Qed.

Lemma execute_pages_run (t : table) (pages : list (list row)) :
  Forall (fun page => accepts_values pg t page = true) pages ->
  forall (m : gmap string bytes) (d : database) (tr : list event),
    for_each pages (execute_insert pg t) (mkWorld m d tr)
    = (Ok tt,
       mkWorld m (insert_into t (concat pages) d)
         (tr ++ map (fun page => Execute (InsertValues t (length page))) pages)).
Proof.
  induction 1 as [|page pages Hpage Hpages IH]; intros m d tr.
  - cbn [for_each concat map]. rewrite insert_into_nil, app_nil_r. reflexivity.
  - cbn [for_each concat map]. unfold bind at 1. unfold execute_insert at 1.
    run_monad. rewrite Hpage. rewrite IH.
    rewrite insert_into_app, <- app_assoc. reflexivity.
Qed.

(** Records the database accepts: every one is inserted, in order, after
    the rows the relation had. *)
Lemma execute_values_run (t : table) (records : list row)
    (m : gmap string bytes) (d : database) (tr : list event) :
  accepted pg t records ->
  execute_values pg t records (mkWorld m d tr)
  = (Ok tt,
     mkWorld m (insert_into t records d)
       (tr ++ map (fun page => Execute (InsertValues t (length page))) (paginate records))).
Proof.
  intros Hacc. unfold execute_values.
  rewrite (execute_pages_run t (paginate records) Hacc), paginate_concat. reflexivity.
Qed.

Lemma load_mpa_data_run (w : world) (gdf : DataFrame) (records : list row) :
  frame_at rd w MPA_FILE = Some gdf ->
  collect (mpa_record py) (iterrows gdf) = Ok records ->
  accepted pg marine_protected_areas records ->
  load_mpa_data pg py rd w
  = (Ok NoneValue,
     mkWorld (fs w) (insert_into marine_protected_areas records (db w))
       (trace w
        ++ [Stat MPA_FILE; ReadParquet MPA_FILE; Info (ReadMpa (length (data gdf)))]
        ++ map (fun page => Execute (InsertValues marine_protected_areas (length page)))
               (paginate records)
        ++ [Info (LoadedMpa (length records))])).
Proof.
  intros Hframe Hrec Hacc. destruct w as [m d tr].
  unfold frame_at in Hframe. cbn [fs db trace] in *.
  destruct (m !! MPA_FILE) as [c|] eqn:Hc; [|discriminate].
  cbn [mbind option_bind] in Hframe.
  unfold load_mpa_data, path_exists, read_parquet. run_monad.
  rewrite (exists_Some _ _ _ Hc). cbn [negb]. run_monad. rewrite Hc, Hframe, Hrec.
  rewrite (execute_values_run _ _ _ _ _ Hacc).
  rewrite <- !app_assoc. reflexivity.
Qed.

Lemma load_cetacean_data_run (w : world) (df : DataFrame) (records : list row) :
  frame_at rd w CETACEAN_FILE = Some df ->
  collect (cetacean_record py) (iterrows df) = Ok records ->
  accepted pg cetacean_sightings records ->
  load_cetacean_data pg py rd w
  = (Ok NoneValue,
     mkWorld (fs w) (insert_into cetacean_sightings records (db w))
       (trace w
        ++ [Stat CETACEAN_FILE; ReadParquet CETACEAN_FILE;
            Info (ReadCetacean (length (data df)))]
        ++ map (fun page => Execute (InsertValues cetacean_sightings (length page)))
               (paginate records)
        ++ [Info (LoadedCetacean (length records))])).
Proof.
  intros Hframe Hrec Hacc. destruct w as [m d tr].
  unfold frame_at in Hframe. cbn [fs db trace] in *.
  destruct (m !! CETACEAN_FILE) as [c|] eqn:Hc; [|discriminate].
  cbn [mbind option_bind] in Hframe.
  unfold load_cetacean_data, path_exists, read_parquet. run_monad.
  rewrite (exists_Some _ _ _ Hc). cbn [negb]. run_monad. rewrite Hc, Hframe, Hrec.
  rewrite (execute_values_run _ _ _ _ _ Hacc).
  rewrite <- !app_assoc. reflexivity.
Qed.

Lemma collect_length {A B} (f : A -> result B) (xs : list A) (ys : list B) :
  collect f xs = Ok ys -> length ys = length xs.
Proof.
  revert ys. induction xs as [|x xs IH]; intros ys H.
  - injection H as <-. reflexivity.
  - cbn [collect] in H. apply result_bind_Ok in H as (y & _ & H).
    apply result_bind_Ok in H as (ys' & Hys' & H). injection H as <-.
    cbn [length]. f_equal. now apply IH.
Qed.

(** X18: The source file of a row-batch loader can be read, every row of its
    frame converts to a record, and the database accepts the records: one
    record per row of the file is inserted, in the order of the file and
    after the rows the relation had, in pages of [page_size]; the other
    relations and the files are not touched. *)
Theorem row_batch_loaders_insert_every_row
    (w : world) (gdf : DataFrame) (records : list row) :
  (frame_at rd w MPA_FILE = Some gdf ->
   collect (mpa_record py) (iterrows gdf) = Ok records ->
   accepted pg marine_protected_areas records ->
   load_mpa_data pg py rd w
   = (Ok NoneValue,
      mkWorld (fs w) (insert_into marine_protected_areas records (db w))
        (trace w
         ++ [Stat MPA_FILE; ReadParquet MPA_FILE; Info (ReadMpa (length (data gdf)))]
         ++ map (fun page => Execute (InsertValues marine_protected_areas (length page)))
                (paginate records)
         ++ [Info (LoadedMpa (length records))]))
   /\ length records = length (data gdf))
  /\ (frame_at rd w CETACEAN_FILE = Some gdf ->
      collect (cetacean_record py) (iterrows gdf) = Ok records ->
      accepted pg cetacean_sightings records ->
      load_cetacean_data pg py rd w
      = (Ok NoneValue,
         mkWorld (fs w) (insert_into cetacean_sightings records (db w))
           (trace w
            ++ [Stat CETACEAN_FILE; ReadParquet CETACEAN_FILE;
                Info (ReadCetacean (length (data gdf)))]
            ++ map (fun page => Execute (InsertValues cetacean_sightings (length page)))
                   (paginate records)
            ++ [Info (LoadedCetacean (length records))]))
      /\ length records = length (data gdf))
  /\ (forall t,
        rows_of t (insert_into t records (db w)) = rows_of t (db w) ++ records
        /\ forall t', t' <> t ->
             rows_of t' (insert_into t records (db w)) = rows_of t' (db w)).
Proof.
  split; [|split].
  - intros Hframe Hrec Hacc. split; [now apply load_mpa_data_run|].
    apply collect_length in Hrec. rewrite Hrec. unfold iterrows. apply length_map.
  - intros Hframe Hrec Hacc. split; [now apply load_cetacean_data_run|].
    apply collect_length in Hrec. rewrite Hrec. unfold iterrows. apply length_map.
  - intros t. split; [apply rows_of_insert_into_same|].
    intros t' Hne. now apply rows_of_insert_into_other.
Qed.

(** X19: The source file of a row-batch loader is there but cannot be read: the
    error propagates before any statement is sent, and the database is as it
    was. *)
Theorem row_batch_loaders_insert_nothing_from_an_unreadable_file
    (w : world) (content : bytes) :
  rd content = None ->
  (fs w !! MPA_FILE = Some content ->
   load_mpa_data pg py rd w
   = (Raise ParquetError,
      mkWorld (fs w) (db w) (trace w ++ [Stat MPA_FILE; ReadParquet MPA_FILE])))
  /\ (fs w !! CETACEAN_FILE = Some content ->
      load_cetacean_data pg py rd w
      = (Raise ParquetError,
         mkWorld (fs w) (db w) (trace w ++ [Stat CETACEAN_FILE; ReadParquet CETACEAN_FILE]))).
Proof.
  intros Hbad. destruct w as [m d tr]. cbn [fs db trace]. split; intros Hc.
  - unfold load_mpa_data, path_exists, read_parquet. run_monad.
    rewrite (exists_Some _ _ _ Hc). cbn [negb]. run_monad. rewrite Hc, Hbad.
    now rewrite <- !app_assoc.
  - unfold load_cetacean_data, path_exists, read_parquet. run_monad.
    rewrite (exists_Some _ _ _ Hc). cbn [negb]. run_monad. rewrite Hc, Hbad.
    now rewrite <- !app_assoc.
Qed.

(** The sorted glob looks at the files only. *)
Lemma sorted_glob_run (dir : Path) (suffix : string) (w : world) :
  sorted_glob dir suffix w
  = (Ok (match fst (sorted_glob dir suffix (mkWorld (fs w) (mkDatabase [] [] [] None) [])) with
         | Ok files => files
         | _ => []
         end),
     mkWorld (fs w) (db w) (trace w ++ [Glob dir])).
Proof. destruct w as [m d tr]. reflexivity. Qed.

Lemma sorted_glob_same_files (dir : Path) (suffix : string) (w w' : world) :
  fs w' = fs w ->
  fst (sorted_glob dir suffix w') = fst (sorted_glob dir suffix w).
Proof. intros Hfs. rewrite (sorted_glob_run _ _ w), (sorted_glob_run _ _ w'), Hfs. reflexivity. Qed.

Lemma sorted_glob_Ok (dir : Path) (suffix : string) (w : world) (files : list Path) :
  fst (sorted_glob dir suffix w) = Ok files ->
  sorted_glob dir suffix w = (Ok files, mkWorld (fs w) (db w) (trace w ++ [Glob dir])).
Proof.
  destruct w as [m d tr]. unfold sorted_glob. run_monad. cbn [fst].
  intros [= <-]. reflexivity.
Qed.

(** X20: No source file in the directory: a warning, no statement, and the
    database is as it was. *)
Theorem load_ais_data_warns_when_no_file_is_found (w : world) :
  fst (sorted_glob AIS_DIR ".parquet" w) = Ok [] ->
  load_ais_data pg py rd w
  = (Ok NoneValue, mkWorld (fs w) (db w) (trace w ++ [Glob AIS_DIR; Warning NoAisFiles])).
Proof.
  intros Hglob. unfold load_ais_data. rewrite run_bind, (sorted_glob_Ok _ _ _ _ Hglob).
  destruct w as [m d tr]. run_monad. now rewrite <- app_assoc.
Qed.

Lemma result_bind_stuck {A B} (r : result A) (k : A -> result B) :
  r ≫= k = OutOfFuel -> r = OutOfFuel \/ exists a, r = Ok a /\ k a = OutOfFuel.
Proof. destruct r as [a| |]; try discriminate; eauto. Qed.

Lemma column_returns (df : DataFrame) (key : string) : column df key <> OutOfFuel.
Proof. unfold column. destruct (bool_decide _); discriminate. Qed.

Lemma geometry_returns (gdf : DataFrame) : geometry gdf <> OutOfFuel.
Proof.
  unfold geometry. destruct (geometry_column gdf); [|discriminate].
  destruct (bool_decide _); [apply column_returns|discriminate].
Qed.

Lemma collect_wkt_returns (g : list cell) : collect wkt g <> OutOfFuel.
Proof.
  induction g as [|c g IH]; [discriminate|]. cbn [collect].
  destruct c as [text|]; cbn; [|discriminate].
  destruct (collect wkt g); [discriminate|discriminate|congruence].
Qed.

(** Building the flat frame either succeeds or raises. *)
Lemma flat_frame_returns (gdf : DataFrame) : flat_frame py gdf <> OutOfFuel.
Proof.
  unfold flat_frame. intros H.
  repeat (apply result_bind_stuck in H as [H|(? & _ & H)];
          [first [ now apply column_returns in H
                 | apply result_bind_stuck in H as [H|(? & _ & H)];
                   [now apply geometry_returns in H|now apply collect_wkt_returns in H] ]|]).
  discriminate.
Qed.

(** A file that does not go through, with no staging relation in the way:
    the turn of the loop raises after the read, no relation has a row more
    or less, and no running total is logged for it. *)
Lemma load_ais_file_fails (files : nat) (file_idx : Z) (filepath : Path)
    (total_loaded : Z) (w : world) :
  ais_load_at pg py rd w filepath = None ->
  ais_staging (db w) = None ->
  exists e w',
    load_ais_file pg py rd files file_idx filepath total_loaded w = (Raise e, w')
    /\ (forall t, rows_of t (db w') = rows_of t (db w))
    /\ fs w' = fs w
    /\ files_read (trace w') = files_read (trace w) ++ [filepath]
    /\ logged_running_totals (trace w') = logged_running_totals (trace w)
    /\ logged_final_totals (trace w') = logged_final_totals (trace w).
Proof.
  intros Hload Hst. destruct w as [m [mp ce ai st] tr].
  unfold ais_load_at, frame_at in Hload. cbn [fs db ais_staging] in *. subst st.
  pose proof (flat_frame_returns) as Hreturns.
  unfold load_ais_file, read_parquet, create_staging, copy_staging,
    insert_from_staging, drop_staging.
  run_monad.
  assert (Hlog : forall log,
             files_read log = [filepath] -> logged_running_totals log = [] ->
             logged_final_totals log = [] ->
             files_read (tr ++ log) = files_read tr ++ [filepath]
             /\ logged_running_totals (tr ++ log) = logged_running_totals tr
             /\ logged_final_totals (tr ++ log) = logged_final_totals tr).
  { intros log H1 H2 H3. unfold files_read, logged_running_totals, logged_final_totals in *.
    rewrite !omap_app, H1, H2, H3, !app_nil_r. auto. }
  destruct (m !! filepath) as [content|]; cbn [mbind option_bind] in Hload.
  2: { eexists _, _. split; [reflexivity|]. cbn [fs db trace].
       split; [reflexivity|]. split; [reflexivity|].
       rewrite <- app_assoc. apply Hlog; reflexivity. }
  destruct (rd content) as [gdf|]; cbn [mbind option_bind] in Hload.
  2: { eexists _, _. split; [reflexivity|]. cbn [fs db trace].
       split; [reflexivity|]. split; [reflexivity|].
       rewrite <- app_assoc. apply Hlog; reflexivity. }
  specialize (Hreturns gdf).
  destruct (flat_frame py gdf) as [flat|e|]; [|clear Hload|congruence].
  2: { eexists _, _. split; [reflexivity|]. cbn [fs db trace].
       split; [reflexivity|]. split; [reflexivity|].
       rewrite <- app_assoc. apply Hlog; reflexivity. }
  cbn [ais_staging set_staging].
  destruct (copy_from pg (to_csv py flat)) as [staged|]; cbn [mbind option_bind] in Hload.
  2: { eexists _, _. split; [reflexivity|]. cbn [fs db trace].
       split; [intros []; reflexivity|]. split; [reflexivity|].
       rewrite <- !app_assoc. apply Hlog; reflexivity. }
  cbn [ais_staging set_staging app].
  destruct (accepts_select pg staged); [discriminate|].
  eexists _, _. split; [reflexivity|]. cbn [fs db trace].
  split; [intros []; reflexivity|]. split; [reflexivity|].
  rewrite <- !app_assoc. apply Hlog; reflexivity.
Qed.

Lemma load_ais_files_app (files : nat) (pre rest : list Path) :
  forall (file_idx total_loaded : Z) (w : world),
    load_ais_files pg py rd files file_idx (pre ++ rest) total_loaded w
    = (load_ais_files pg py rd files file_idx pre total_loaded
       ≫= load_ais_files pg py rd files (file_idx + Z.of_nat (length pre)) rest) w.
Proof.
  induction pre as [|p pre IH]; intros file_idx total_loaded w.
  - cbn [app length load_ais_files]. rewrite run_bind, run_ret, Z.add_0_r. reflexivity.
  - cbn [app length load_ais_files]. rewrite !run_bind.
    destruct (load_ais_file pg py rd files file_idx p total_loaded w) as [[total|e|] w1];
      try reflexivity.
    rewrite IH, run_bind.
    replace (file_idx + 1 + Z.of_nat (length pre)) with (file_idx + Z.of_nat (S (length pre)))
      by lia.
    reflexivity.
Qed.

Lemma partial_ais_load
    (w : world) (before : list Path) (bad : Path) (after : list Path)
    (loads : list (nat * list row)) :
  fst (sorted_glob AIS_DIR ".parquet" w) = Ok (before ++ bad :: after) ->
  Forall2 (fun p l => ais_load_at pg py rd w p = Some l) before loads ->
  ais_load_at pg py rd w bad = None ->
  ais_staging (db w) = None ->
  exists e w',
    load_ais_data pg py rd w = (Raise e, w')
    /\ ais_rows (db w') = ais_rows (db w) ++ staged_rows loads
    /\ mpa_rows (db w') = mpa_rows (db w)
    /\ cetacean_rows (db w') = cetacean_rows (db w)
    /\ fs w' = fs w
    /\ files_read (trace w') = files_read (trace w) ++ before ++ [bad]
    /\ logged_running_totals (trace w')
       = logged_running_totals (trace w) ++ running_totals 0 (frame_rows loads)
    /\ logged_final_totals (trace w') = logged_final_totals (trace w).
Proof.
  intros Hglob Hread Hbad Hst.
  unfold load_ais_data. rewrite run_bind, (sorted_glob_Ok _ _ _ _ Hglob).
  destruct (before ++ bad :: after) as [|p0 l0] eqn:Hfiles.
  { symmetry in Hfiles. now apply app_cons_not_nil in Hfiles. }
  rewrite <- Hfiles. clear Hfiles.
  rewrite run_bind. unfold emit at 1, modify. cbn [fs db trace].
  rewrite run_bind, load_ais_files_app, run_bind.
  destruct (load_ais_files_run pg py rd (length (before ++ bad :: after)) before loads w
              Hread 1 0 (db w)
              ((trace w ++ [Glob AIS_DIR])
               ++ [Info (FoundAisFiles (length (before ++ bad :: after)))]) Hst)
    as (log & Hfiles & Hlogread & Hlogtot & Hlogfin).
  rewrite Hfiles. cbn [load_ais_files]. rewrite run_bind.
  match goal with
  | |- context [load_ais_file pg py rd ?n ?i bad ?tot ?w1] =>
      destruct (load_ais_file_fails n i bad tot w1)
        as (e & w' & Hfile & Hrows & Hfs & Hr1 & Hr2 & Hr3)
  end.
  { rewrite <- Hbad. now apply ais_load_at_same_files. }
  { cbn [db]. destruct (db w). exact Hst. }
  rewrite Hfile. exists e, w'. split; [reflexivity|].
  cbn [fs db trace] in *.
  pose proof (Hrows ais_positions) as Hais.
  pose proof (Hrows marine_protected_areas) as Hmpa.
  pose proof (Hrows cetacean_sightings) as Hcet.
  cbn [rows_of] in Hais, Hmpa, Hcet.
  rewrite Hais, Hmpa, Hcet, Hfs, Hr1, Hr2, Hr3.
  unfold files_read, logged_running_totals, logged_final_totals in *.
  rewrite !omap_app, Hlogread, Hlogtot, Hlogfin. cbn [omap list_omap].
  rewrite !app_nil_r, <- !app_assoc.
  destruct (db w). cbn [insert_into ais_rows mpa_rows cetacean_rows].
  repeat split; reflexivity.
Qed.

(** X21: A file that does not go through (it cannot be read, lacks a column or
    a geometry, or is rejected by the database at COPY or at the INSERT)
    stops the load where it stands: the call raises, the rows of the files
    before it, in sorted order, are in the relation, those of the failing
    file and of the files after it are not, the files after it are not even
    read, the running totals up to it are logged and no final total is. *)
Theorem load_ais_data_stops_at_the_first_file_that_fails
    (w : world) (before : list Path) (bad : Path) (after : list Path)
    (loads : list (nat * list row)) :
  fst (sorted_glob AIS_DIR ".parquet" w) = Ok (before ++ bad :: after) ->
  Forall2 (fun p l => ais_load_at pg py rd w p = Some l) before loads ->
  ais_load_at pg py rd w bad = None ->
  ais_staging (db w) = None ->
  exists e w',
    load_ais_data pg py rd w = (Raise e, w')
    /\ ais_rows (db w') = ais_rows (db w) ++ staged_rows loads
    /\ mpa_rows (db w') = mpa_rows (db w)
    /\ cetacean_rows (db w') = cetacean_rows (db w)
    /\ fs w' = fs w
    /\ files_read (trace w') = files_read (trace w) ++ before ++ [bad]
    /\ logged_running_totals (trace w')
       = logged_running_totals (trace w) ++ running_totals 0 (frame_rows loads)
    /\ logged_final_totals (trace w') = logged_final_totals (trace w).
Proof.
  apply partial_ais_load.
Qed.

(** X22: After a load that stopped part-way with rows in the relation, a full
    run, even with a reader, conversions and a database under which every
    file would go through, passes the relation over: the files that were not
    loaded stay unloaded. *)
Theorem interrupted_ais_load_is_never_completed
    (pg' : postgres) (py' : python) (rd' : reader)
    (w : world) (before : list Path) (bad : Path) (after : list Path)
    (loads : list (nat * list row)) :
  fst (sorted_glob AIS_DIR ".parquet" w) = Ok (before ++ bad :: after) ->
  Forall2 (fun p l => ais_load_at pg py rd w p = Some l) before loads ->
  ais_load_at pg py rd w bad = None ->
  ais_staging (db w) = None ->
  staged_rows loads <> [] ->
  let w1 := snd (load_ais_data pg py rd w) in
  ais_rows (db (snd (load_all_data pg' py' rd' w1))) = ais_rows (db w) ++ staged_rows loads.
Proof.
  intros Hglob Hread Hbad Hst Hrows w1.
  destruct (partial_ais_load w before bad after loads Hglob Hread Hbad Hst)
    as (e & w' & Hrun & Hais & _).
  subst w1. rewrite Hrun. cbn [snd].
  assert (Hcount : 0 < row_count ais_positions w').
  { unfold row_count. cbn [rows_of]. rewrite Hais, length_app.
    destruct (staged_rows loads); [congruence|]. cbn [length]. lia. }
  destruct (leaves_untouched_load_all_data true ais_positions pg' py' rd' eq_refl w'
              (fun _ => Hcount))
    as (Hkeep & _).
  cbn [rows_of] in Hkeep. now rewrite Hkeep.
Qed.

(** A run of the loader over files that all go through. *)
Lemma load_ais_data_run (w : world) (files : list Path) (loads : list (nat * list row)) :
  fst (sorted_glob AIS_DIR ".parquet" w) = Ok files ->
  Forall2 (fun p l => ais_load_at pg py rd w p = Some l) files loads ->
  ais_staging (db w) = None ->
  exists log,
    load_ais_data pg py rd w
    = (Ok NoneValue,
       mkWorld (fs w) (insert_into ais_positions (staged_rows loads) (db w))
         (trace w ++ log)).
Proof.
  intros Hglob Hread Hst.
  unfold load_ais_data. rewrite run_bind, (sorted_glob_Ok _ _ _ _ Hglob).
  destruct files as [|p rest].
  - inversion Hread; subst. destruct w as [m d tr]. run_monad.
    unfold staged_rows. cbn [map concat].
    rewrite insert_into_nil, <- app_assoc. eexists. reflexivity.
  - set (files := p :: rest) in *.
    rewrite run_bind. unfold emit at 1, modify. cbn [fs db trace].
    rewrite run_bind.
    destruct (load_ais_files_run pg py rd (length files) files loads w Hread 1 0 (db w)
                ((trace w ++ [Glob AIS_DIR]) ++ [Info (FoundAisFiles (length files))]) Hst)
      as (log & Hfiles & _).
    rewrite Hfiles. run_monad. rewrite <- !app_assoc. eexists. reflexivity.
Qed.

End more_loader_facts.

(** ** [load_data.py]: the run as a whole *)

Section orchestrator_facts.

Import pathlib httpx geopandas load_data.

Local Arguments String.append : simpl never.
Local Arguments name : simpl never.

(** [finally: conn.close()] runs on every outcome of the block and hands
    that outcome on. *)
Lemma try_finally_close {A} (body : M world A) (w : world) :
  try_finally body close w
  = (fst (body w),
     mkWorld (fs (snd (body w))) (set_staging None (db (snd (body w))))
       (trace (snd (body w)) ++ [Close; Info ConnectionClosed])).
Proof.
  unfold try_finally, close. destruct (body w) as [r [m1 d1 t1]]. run_monad.
  cbn [fst snd]. rewrite <- ?app_assoc. reflexivity.
Qed.

Lemma load_all_data_run (pg : postgres) (py : python) (rd : reader) (w : world) :
  load_all_data pg py rd w = try_finally (load_all_data_try pg py rd) close (connected w).
Proof.
  destruct w as [m d tr]. unfold load_all_data, connect, connected.
  rewrite !run_bind. unfold emit at 1, modify. cbn [fs db trace].
  rewrite !run_bind. unfold emit at 1, modify. cbn [fs db trace].
  rewrite <- app_assoc. reflexivity.
Qed.

Lemma row_count_0 (t : table) (w : world) : row_count t w = 0 -> rows_of t (db w) = [].
Proof. unfold row_count. destruct (rows_of t (db w)); [reflexivity|]. cbn [length]. lia. Qed.

Lemma load_table_of_empty_relation
    (pg : postgres) (py : python) (rd : reader) (t : table) (w : world) :
  row_count t w = 0 ->
  load_table pg py rd t w
  = (match t with
     | marine_protected_areas => load_mpa_data pg py rd;; mret tt
     | cetacean_sightings => load_cetacean_data pg py rd;; mret tt
     | ais_positions => load_ais_data pg py rd;; mret tt
     end) (mkWorld (fs w) (db w) (trace w ++ [Execute (SelectCount t)])).
Proof.
  intros Hcount. destruct w as [m d tr]. unfold row_count in Hcount. cbn [db] in Hcount.
  unfold load_table, select_count. run_monad. rewrite Hcount. reflexivity.
Qed.


(** X25: A source file of the first relation that cannot be read ends the whole
    run: the error is not caught, the two other relations are neither
    counted nor loaded, no final count is logged, and the connection is
    closed. *)
Theorem unreadable_mpa_file_aborts_the_whole_run
    (pg : postgres) (py : python) (rd : reader) (w : world) (content : bytes) :
  row_count marine_protected_areas w = 0 ->
  fs w !! MPA_FILE = Some content ->
  rd content = None ->
  load_all_data pg py rd w
  = (Raise ParquetError,
     mkWorld (fs w) (set_staging None (db w))
       (trace w ++ [Info Connecting; Connect;
                    Execute (SelectCount marine_protected_areas);
                    Stat MPA_FILE; ReadParquet MPA_FILE;
                    Close; Info ConnectionClosed])).
Proof.
  intros Hcount Hc Hbad.
  rewrite load_all_data_run, try_finally_close.
  assert (Hrun : load_all_data_try pg py rd (connected w)
                 = (Raise ParquetError,
                    mkWorld (fs w) (set_staging None (db w))
                      (trace w ++ [Info Connecting; Connect;
                                   Execute (SelectCount marine_protected_areas);
                                   Stat MPA_FILE; ReadParquet MPA_FILE]))).
  { unfold load_all_data_try. rewrite run_bind. cbn [for_each]. unfold bind at 1.
    rewrite load_table_of_empty_relation
      by (unfold row_count, connected in *; cbn [db]; now rewrite rows_of_set_staging).
    destruct w as [m d tr]. unfold connected. cbn [fs db trace] in *.
    unfold load_mpa_data, path_exists, read_parquet. run_monad.
    rewrite (exists_Some _ _ _ Hc). cbn [negb]. run_monad. rewrite Hc, Hbad.
    rewrite <- !app_assoc. reflexivity. }
  rewrite Hrun. cbn [fst snd fs db trace]. rewrite <- app_assoc.
  destruct (db w). reflexivity.
Qed.

(** X26: A run that returns normally ends its log with the row counts of the
    three relations as they are when the run is over, in the order position
    reports, sightings, protected areas, followed by the closing of the
    connection. *)
Theorem load_all_data_reports_the_final_row_counts
    (pg : postgres) (py : python) (rd : reader) (w : world) :
  fst (load_all_data pg py rd w) = Ok tt ->
  let w' := snd (load_all_data pg py rd w) in
  exists log,
    trace w'
    = log ++ [Info FinalRowCounts;
              Execute (SelectCount ais_positions);
              Info (RowCount ais_positions (row_count ais_positions w'));
              Execute (SelectCount cetacean_sightings);
              Info (RowCount cetacean_sightings (row_count cetacean_sightings w'));
              Execute (SelectCount marine_protected_areas);
              Info (RowCount marine_protected_areas (row_count marine_protected_areas w'));
              Close; Info ConnectionClosed].
Proof.
  rewrite load_all_data_run, try_finally_close. cbn [fst snd].
  unfold load_all_data_try. rewrite run_bind.
  destruct (for_each [marine_protected_areas; cetacean_sightings; ais_positions]
              (load_table pg py rd) (connected w)) as [[[]|e|] [m3 d3 t3]];
    [|discriminate|discriminate].
  intros _. unfold report_count, select_count. cbn [for_each]. run_monad.
  cbn [snd]. unfold row_count. cbn [db]. rewrite !rows_of_set_staging.
  exists t3. rewrite <- !app_assoc. reflexivity.
Qed.

(** X27: A first run, on a database without rows, with source files that all
    go through (they are read, every row converts, and the database accepts
    what it is sent): the run returns normally, the two row-batch relations
    hold exactly the records of their files, the position relation the rows
    COPY has read, file after file in the sorted order of the files; no file
    is changed. *)
Theorem load_all_data_loads_an_empty_database
    (pg : postgres) (py : python) (rd : reader) (w : world)
    (gdf df : DataFrame) (mpa cetaceans : list row)
    (parquet_files : list Path) (loads : list (nat * list row)) :
  (forall t, row_count t w = 0) ->
  frame_at rd w MPA_FILE = Some gdf ->
  collect (mpa_record py) (iterrows gdf) = Ok mpa ->
  accepted pg marine_protected_areas mpa ->
  frame_at rd w CETACEAN_FILE = Some df ->
  collect (cetacean_record py) (iterrows df) = Ok cetaceans ->
  accepted pg cetacean_sightings cetaceans ->
  fst (sorted_glob AIS_DIR ".parquet" w) = Ok parquet_files ->
  Forall2 (fun p l => ais_load_at pg py rd w p = Some l) parquet_files loads ->
  let w' := snd (load_all_data pg py rd w) in
  fst (load_all_data pg py rd w) = Ok tt
  /\ fs w' = fs w
  /\ mpa_rows (db w') = mpa
  /\ cetacean_rows (db w') = cetaceans
  /\ ais_rows (db w') = staged_rows loads.
Proof.
  intros Hempty Hmpa Hmparec Hmpaacc Hcet Hcetrec Hcetacc Hglob Hread.
  pose proof (row_count_0 _ _ (Hempty marine_protected_areas)) as H1.
  pose proof (row_count_0 _ _ (Hempty cetacean_sightings)) as H2.
  pose proof (row_count_0 _ _ (Hempty ais_positions)) as H3.
  destruct w as [m [mp ce ai st] tr].
  cbn [db rows_of mpa_rows cetacean_rows ais_rows] in H1, H2, H3.
  subst mp ce ai.
  rewrite load_all_data_run, try_finally_close. cbn [fst snd].
  unfold connected, set_staging. cbn [fs db trace mpa_rows cetacean_rows ais_rows ais_staging].
  assert (Hrun : exists log,
             load_all_data_try pg py rd
               (mkWorld m (mkDatabase [] [] [] None) (tr ++ [Info Connecting; Connect]))
             = (Ok tt, mkWorld m (mkDatabase mpa cetaceans (staged_rows loads) None) log)).
  { unfold load_all_data_try. rewrite run_bind. cbn [for_each]. unfold bind.
    rewrite load_table_of_empty_relation by reflexivity. rewrite run_bind.
    rewrite (load_mpa_data_run pg py rd _ gdf mpa) by assumption. rewrite run_ret.
    cbn [fs db trace insert_into app mpa_rows cetacean_rows ais_rows ais_staging].
    rewrite load_table_of_empty_relation by reflexivity. rewrite run_bind.
    rewrite (load_cetacean_data_run pg py rd _ df cetaceans) by assumption. rewrite run_ret.
    cbn [fs db trace insert_into app mpa_rows cetacean_rows ais_rows ais_staging].
    rewrite load_table_of_empty_relation by reflexivity. rewrite run_bind.
    match goal with
    | |- context [load_ais_data pg py rd ?w3] =>
        destruct (load_ais_data_run pg py rd w3 parquet_files loads) as [log Hais];
          [exact Hglob|exact Hread|reflexivity|]
    end.
    rewrite Hais, run_ret.
    cbn [fs db trace insert_into app ret mpa_rows cetacean_rows ais_rows ais_staging].
    unfold report_count, select_count. run_monad. eexists. reflexivity. }
  destruct Hrun as [log Hrun]. rewrite Hrun.
  cbn [fst snd fs db mpa_rows cetacean_rows ais_rows].
  repeat split; reflexivity.
Qed.

End orchestrator_facts.

Section loader_witnesses.

Import pathlib httpx geopandas load_data.

Lemma row_batch_loaders_pass_over_a_missing_file_witness :
  load_mpa_data lenient plain row_per_byte three_days
  = (Ok NoneValue,
     mkWorld (fs three_days) (db three_days)
       (trace three_days ++ [Stat MPA_FILE; Warning MpaFileNotFound])).
Proof.
  destruct (row_batch_loaders_pass_over_a_missing_file lenient plain row_per_byte three_days)
    as [Hmpa _].
  apply Hmpa. vm_compute. reflexivity.
Defined.

Lemma row_batch_loaders_insert_every_row_witness :
  (exists gdf records,
     frame_at row_per_byte fresh MPA_FILE = Some gdf
     /\ load_mpa_data lenient plain row_per_byte fresh
        = (Ok NoneValue,
           mkWorld (fs fresh) (insert_into marine_protected_areas records (db fresh))
             (trace fresh
              ++ [Stat MPA_FILE; ReadParquet MPA_FILE; Info (ReadMpa (length (data gdf)))]
              ++ map (fun page => Execute (InsertValues marine_protected_areas (length page)))
                     (paginate records)
              ++ [Info (LoadedMpa (length records))]))
     /\ length records = length (data gdf)
     /\ length records = 2%nat)
  /\ (exists df records,
        frame_at row_per_byte fresh CETACEAN_FILE = Some df
        /\ load_cetacean_data lenient plain row_per_byte fresh
           = (Ok NoneValue,
              mkWorld (fs fresh) (insert_into cetacean_sightings records (db fresh))
                (trace fresh
                 ++ [Stat CETACEAN_FILE; ReadParquet CETACEAN_FILE;
                     Info (ReadCetacean (length (data df)))]
                 ++ map (fun page => Execute (InsertValues cetacean_sightings (length page)))
                        (paginate records)
                 ++ [Info (LoadedCetacean (length records))]))
        /\ length records = length (data df)
        /\ length records = 1%nat).
Proof.
  split.
  - destruct (row_per_byte [Byte.x6d; Byte.x70]) as [gdf|] eqn:Hgdf; [|discriminate].
    destruct (collect (mpa_record plain) (iterrows gdf)) as [records| |] eqn:Hrecords;
      [|injection Hgdf as <-; vm_compute in Hrecords; discriminate..].
    exists gdf, records.
    assert (Hframe : frame_at row_per_byte fresh MPA_FILE = Some gdf).
    { rewrite <- Hgdf. vm_compute. reflexivity. }
    destruct (row_batch_loaders_insert_every_row lenient plain row_per_byte fresh gdf records)
      as (Hmpa & _ & _).
    destruct (Hmpa Hframe Hrecords) as [Hrun Hlen].
    { apply Forall_forall. intros page _. reflexivity. }
    split; [exact Hframe|]. split; [exact Hrun|]. split; [exact Hlen|].
    rewrite Hlen. injection Hgdf as <-. reflexivity.
  - destruct (row_per_byte [Byte.x63]) as [df|] eqn:Hdf; [|discriminate].
    destruct (collect (cetacean_record plain) (iterrows df)) as [records| |] eqn:Hrecords;
      [|injection Hdf as <-; vm_compute in Hrecords; discriminate..].
    exists df, records.
    assert (Hframe : frame_at row_per_byte fresh CETACEAN_FILE = Some df).
    { rewrite <- Hdf. vm_compute. reflexivity. }
    destruct (row_batch_loaders_insert_every_row lenient plain row_per_byte fresh df records)
      as (_ & Hcet & _).
    destruct (Hcet Hframe Hrecords) as [Hrun Hlen].
    { apply Forall_forall. intros page _. reflexivity. }
    split; [exact Hframe|]. split; [exact Hrun|]. split; [exact Hlen|].
    rewrite Hlen. injection Hdf as <-. reflexivity.
Defined.

Lemma row_batch_loaders_insert_nothing_from_an_unreadable_file_witness :
  load_mpa_data lenient plain picky
    (mkWorld {[ MPA_FILE := [Byte.x00] ]} (mkDatabase [] [] [] None) [])
  = (Raise ParquetError,
     mkWorld {[ MPA_FILE := [Byte.x00] ]} (mkDatabase [] [] [] None)
       [Stat MPA_FILE; ReadParquet MPA_FILE]).
Proof.
  destruct (row_batch_loaders_insert_nothing_from_an_unreadable_file
              lenient plain picky
              (mkWorld {[ MPA_FILE := [Byte.x00] ]} (mkDatabase [] [] [] None) [])
              [Byte.x00] eq_refl) as [Hmpa _].
  apply Hmpa. reflexivity.
Defined.

Lemma load_ais_data_warns_when_no_file_is_found_witness :
  let w := mkWorld {[ MPA_FILE := [Byte.x31] ]} (mkDatabase [] [] [] None) [] in
  load_ais_data lenient plain row_per_byte w
  = (Ok NoneValue, mkWorld (fs w) (db w) (trace w ++ [Glob AIS_DIR; Warning NoAisFiles])).
Proof.
  intros w. apply (load_ais_data_warns_when_no_file_is_found lenient plain row_per_byte w).
  vm_compute. reflexivity.
Defined.

(** The first example: the second file cannot be read.  The second: every
    file can be read, and the database rejects every COPY. *)
Lemma load_ais_data_stops_at_the_first_file_that_fails_witness :
  let before := [AIS_DIR // "ais-2024-01-01.parquet"] in
  let loads := omap (ais_load_at lenient plain picky second_file_broken) before in
  exists e w',
    load_ais_data lenient plain picky second_file_broken = (Raise e, w')
    /\ ais_rows (db w') = ais_rows (db second_file_broken) ++ staged_rows loads
    /\ mpa_rows (db w') = mpa_rows (db second_file_broken)
    /\ cetacean_rows (db w') = cetacean_rows (db second_file_broken)
    /\ fs w' = fs second_file_broken
    /\ files_read (trace w')
       = files_read (trace second_file_broken)
         ++ before ++ [AIS_DIR // "ais-2024-01-02.parquet"]
    /\ logged_running_totals (trace w')
       = logged_running_totals (trace second_file_broken)
         ++ running_totals 0 (frame_rows loads)
    /\ logged_final_totals (trace w') = logged_final_totals (trace second_file_broken).
Proof.
  intros before loads.
  apply (load_ais_data_stops_at_the_first_file_that_fails
           lenient plain picky second_file_broken
           before (AIS_DIR // "ais-2024-01-02.parquet")
           [AIS_DIR // "ais-2024-01-03.parquet"] loads).
  - vm_compute. reflexivity.
  - apply Forall2_omap_all. vm_compute. reflexivity.
  - vm_compute. reflexivity.
  - reflexivity.
Defined.

Example rejected_copy_stops_the_load :
  exists w',
    load_ais_data strict plain row_per_byte second_file_broken = (Raise DatabaseError, w')
    /\ ais_rows (db w') = []
    /\ files_read (trace w') = [AIS_DIR // "ais-2024-01-01.parquet"].
Proof. eexists. split; [vm_compute; reflexivity|]. split; vm_compute; reflexivity. Qed.

Lemma interrupted_ais_load_is_never_completed_witness :
  let before := [AIS_DIR // "ais-2024-01-01.parquet"] in
  let loads := omap (ais_load_at lenient plain picky second_file_broken) before in
  let w1 := snd (load_ais_data lenient plain picky second_file_broken) in
  ais_rows (db (snd (load_all_data lenient plain row_per_byte w1)))
  = ais_rows (db second_file_broken) ++ staged_rows loads.
Proof.
  intros before loads.
  apply (interrupted_ais_load_is_never_completed
           lenient plain picky lenient plain row_per_byte second_file_broken
           before (AIS_DIR // "ais-2024-01-02.parquet")
           [AIS_DIR // "ais-2024-01-03.parquet"] loads).
  - vm_compute. reflexivity.
  - apply Forall2_omap_all. vm_compute. reflexivity.
  - vm_compute. reflexivity.
  - reflexivity.
  - vm_compute. discriminate.
Defined.

Lemma unreadable_mpa_file_aborts_the_whole_run_witness :
  load_all_data lenient plain unreadable fresh
  = (Raise ParquetError,
     mkWorld (fs fresh) (set_staging None (db fresh))
       (trace fresh ++ [Info Connecting; Connect;
                        Execute (SelectCount marine_protected_areas);
                        Stat MPA_FILE; ReadParquet MPA_FILE;
                        Close; Info ConnectionClosed])).
Proof.
  apply (unreadable_mpa_file_aborts_the_whole_run lenient plain unreadable fresh
           [Byte.x6d; Byte.x70]).
  - reflexivity.
  - vm_compute. reflexivity.
  - reflexivity.
Defined.

Lemma load_all_data_reports_the_final_row_counts_witness :
  let w' := snd (load_all_data lenient plain row_per_byte fresh) in
  exists log,
    trace w'
    = log ++ [Info FinalRowCounts;
              Execute (SelectCount ais_positions);
              Info (RowCount ais_positions (row_count ais_positions w'));
              Execute (SelectCount cetacean_sightings);
              Info (RowCount cetacean_sightings (row_count cetacean_sightings w'));
              Execute (SelectCount marine_protected_areas);
              Info (RowCount marine_protected_areas (row_count marine_protected_areas w'));
              Close; Info ConnectionClosed].
Proof.
  apply (load_all_data_reports_the_final_row_counts lenient plain row_per_byte fresh).
  vm_compute. reflexivity.
Defined.

Lemma load_all_data_loads_an_empty_database_witness :
  let files := [AIS_DIR // "ais-2024-01-01.parquet"; AIS_DIR // "ais-2024-01-02.parquet"] in
  let loads := omap (ais_load_at lenient plain row_per_byte fresh) files in
  let w' := snd (load_all_data lenient plain row_per_byte fresh) in
  exists mpa cetaceans,
    fst (load_all_data lenient plain row_per_byte fresh) = Ok tt
    /\ fs w' = fs fresh
    /\ mpa_rows (db w') = mpa
    /\ cetacean_rows (db w') = cetaceans
    /\ ais_rows (db w') = staged_rows loads
    /\ length mpa = 2%nat /\ length cetaceans = 1%nat /\ length (staged_rows loads) = 3%nat.
Proof.
  intros files loads.
  destruct (row_per_byte [Byte.x6d; Byte.x70]) as [gdf|] eqn:Hgdf; [|discriminate].
  destruct (row_per_byte [Byte.x63]) as [df|] eqn:Hdf; [|discriminate].
  destruct (collect (mpa_record plain) (iterrows gdf)) as [mpa| |] eqn:Hmpa;
    [|injection Hgdf as <-; vm_compute in Hmpa; discriminate..].
  destruct (collect (cetacean_record plain) (iterrows df)) as [cetaceans| |] eqn:Hcet;
    [|injection Hdf as <-; vm_compute in Hcet; discriminate..].
  exists mpa, cetaceans.
  destruct (load_all_data_loads_an_empty_database
              lenient plain row_per_byte fresh gdf df mpa cetaceans files loads)
    as (H1 & H2 & H3 & H4 & H5).
  - intros []; reflexivity.
  - rewrite <- Hgdf. vm_compute. reflexivity.
  - exact Hmpa.
  - apply Forall_forall. intros page _. reflexivity.
  - rewrite <- Hdf. vm_compute. reflexivity.
  - exact Hcet.
  - apply Forall_forall. intros page _. reflexivity.
  - vm_compute. reflexivity.
  - apply Forall2_omap_all. vm_compute. reflexivity.
  - repeat (split; [assumption|]).
    injection Hgdf as <-. injection Hdf as <-.
    vm_compute in Hmpa. vm_compute in Hcet.
    injection Hmpa as <-. injection Hcet as <-.
    repeat split; vm_compute; reflexivity.
Defined.

End loader_witnesses.
